(** * DbAgent: the smart database-admin engine

  A shallow embedding of [backend/agents/db_admin.py] (intent
  classification, SQL synthesis, safety classification), of the schema
  extractor's text formats ([backend/database/schema_extractor.py]) and of
  the two execution endpoints of [backend/main.py], with the properties the
  specification states about them.

  Text is modelled with [string]: a sequence of 8-bit characters.  The
  case mappings and the white-space test are Python's on ASCII; characters
  above 127 (the bytes of the UTF-8 encoding of the bullet, the arrow and
  the emoji that occur in the source's literals) are neither cased nor
  white space.  Python's [str.upper] maps a few letters outside ASCII to
  several characters (the ligature U+FB06 to ST); what the classifier
  does with a text is therefore stated on [upper sql] itself, the text
  the code tests. *)

From Stdlib Require Import String Ascii List Bool Arith Lia ZArith.
From Stdlib Require Import Numbers.DecimalString.
Import ListNotations.
Open Scope list_scope.
Open Scope string_scope.

Set Implicit Arguments.

(** ** Python's [str] primitives *)

Module PyStr.

Definition code (c : ascii) : nat := nat_of_ascii c.

(** [str.isspace] on one ASCII character: TAB, LF, VT, FF, CR, the four
    separators 0x1c-0x1f and the space. *)
Definition is_space (c : ascii) : bool :=
  (((9 <=? code c) && (code c <=? 13)) ||
   ((28 <=? code c) && (code c <=? 32)))%nat.

Definition is_upper (c : ascii) : bool := ((65 <=? code c) && (code c <=? 90))%nat.
Definition is_lower (c : ascii) : bool := ((97 <=? code c) && (code c <=? 122))%nat.
Definition is_digit (c : ascii) : bool := ((48 <=? code c) && (code c <=? 57))%nat.

(** The class [\w] of the [re] module, on ASCII. *)
Definition is_word (c : ascii) : bool :=
  is_upper c || is_lower c || is_digit c || (code c =? 95)%nat.

Definition upper_char (c : ascii) : ascii :=
  if is_lower c then ascii_of_nat (code c - 32) else c.

Definition lower_char (c : ascii) : ascii :=
  if is_upper c then ascii_of_nat (code c + 32) else c.

Fixpoint map_str (f : ascii -> ascii) (s : string) : string :=
  match s with
  | EmptyString => EmptyString
  | String c s' => String (f c) (map_str f s')
  end.

(** [s.upper()] and [s.lower()], on ASCII letters: one character for
    one. *)
Definition upper : string -> string := map_str upper_char.
Definition lower : string -> string := map_str lower_char.

(** [s.lstrip()], [s.rstrip()], [s.strip()]. *)
Fixpoint lstrip (s : string) : string :=
  match s with
  | EmptyString => EmptyString
  | String c s' => if is_space c then lstrip s' else s
  end.

Fixpoint rstrip (s : string) : string :=
  match s with
  | EmptyString => EmptyString
  | String c s' =>
      match rstrip s' with
      | EmptyString => if is_space c then EmptyString else String c EmptyString
      | r => String c r
      end
  end.

Definition strip (s : string) : string := rstrip (lstrip s).

(** [s.startswith(p)]. *)
Definition startswith (s p : string) : bool := String.prefix p s.

(** [s.startswith((p1, ..., pn))]. *)
Definition startswith_any (s : string) (ps : list string) : bool :=
  existsb (startswith s) ps.

(** [p in s]: [p] occurs in [s] as a substring. *)
Fixpoint contains (p s : string) : bool :=
  String.prefix p s ||
  match s with
  | EmptyString => false
  | String _ s' => contains p s'
  end.

(** [any(kw in s for kw in kws)]. *)
Definition any_in (kws : list string) (s : string) : bool :=
  existsb (fun kw => contains kw s) kws.

Fixpoint drop (n : nat) (s : string) : string :=
  match n, s with
  | O, _ => s
  | S _, EmptyString => EmptyString
  | S k, String _ s' => drop k s'
  end.

(** [s.split(sep)] for a non-empty separator: the pieces between the
    non-overlapping occurrences of [sep], scanned from the left.  [skip]
    counts the characters of a separator still to be passed over and
    [cur] is the piece being read. *)
Fixpoint split_go (sep : string) (skip : nat) (cur s : string) : list string :=
  match s with
  | EmptyString => [cur]
  | String c s' =>
      match skip with
      | S k => split_go sep k cur s'
      | O =>
          if String.prefix sep s
          then cur :: split_go sep (String.length sep - 1) EmptyString s'
          else split_go sep 0 (cur ++ String c EmptyString) s'
      end
  end.

Definition split (s sep : string) : list string := split_go sep 0 EmptyString s.

(** [s.split()]: the maximal runs of characters that are not white
    space. *)
Fixpoint split_ws_go (cur s : string) : list string :=
  match s with
  | EmptyString => match cur with EmptyString => [] | _ => [cur] end
  | String c s' =>
      if is_space c
      then match cur with
           | EmptyString => split_ws_go EmptyString s'
           | _ => cur :: split_ws_go EmptyString s'
           end
      else split_ws_go (cur ++ String c EmptyString) s'
  end.

Definition split_ws (s : string) : list string := split_ws_go EmptyString s.

(** [sep.join(xs)]. *)
Fixpoint join (sep : string) (xs : list string) : string :=
  match xs with
  | [] => EmptyString
  | [x] => x
  | x :: rest => x ++ sep ++ join sep rest
  end.

(** [c * n] for a one-character string. *)
Fixpoint repeat_char (c : ascii) (n : nat) : string :=
  match n with
  | O => EmptyString
  | S k => String c (repeat_char c k)
  end.

(** Truth value of a string: the empty string is false. *)
Definition truthy (s : string) : bool :=
  match s with EmptyString => false | _ => true end.

Definition nl : string := String (ascii_of_nat 10) EmptyString.

(** [s[:n]]. *)
Fixpoint take (n : nat) (s : string) : string :=
  match n, s with
  | O, _ => EmptyString
  | S _, EmptyString => EmptyString
  | S k, String c s' => String c (take k s')
  end.

(** [c in chars] for a character. *)
Fixpoint mem_char (c : ascii) (chars : string) : bool :=
  match chars with
  | EmptyString => false
  | String d chars' => Ascii.eqb c d || mem_char c chars'
  end.

(** [s.strip(chars)]: the characters of [chars] are removed from both
    ends. *)
Fixpoint lstrip_chars (chars s : string) : string :=
  match s with
  | EmptyString => EmptyString
  | String c s' => if mem_char c chars then lstrip_chars chars s' else s
  end.

Fixpoint rstrip_chars (chars s : string) : string :=
  match s with
  | EmptyString => EmptyString
  | String c s' =>
      match rstrip_chars chars s' with
      | EmptyString => if mem_char c chars then EmptyString else String c EmptyString
      | r => String c r
      end
  end.

Definition strip_chars (chars s : string) : string :=
  rstrip_chars chars (lstrip_chars chars s).

(** [s.endswith(suffix)]. *)
Definition endswith (s suffix : string) : bool :=
  (String.length suffix <=? String.length s)%nat
  && String.eqb (drop (String.length s - String.length suffix) s) suffix.

(** The one-character strings of the double quote, the single quote and
    the back quote. *)
Definition dquote : string := String (ascii_of_nat 34) EmptyString.
Definition squote : string := String (ascii_of_nat 39) EmptyString.
Definition bquote : string := String (ascii_of_nat 96) EmptyString.

End PyStr.

Import PyStr.

(** ** The fragment of Python's [re] the agent uses *)

Module Re.

(** A pattern is a sequence of items.  The agent's four patterns need
    literals, alternations of literals, one character of a class, an
    optional character of a class, and [+] over a class, possibly inside
    the capturing group. *)
Inductive item : Type :=
| Lit (l : string)
| AltLit (ls : list string)
| Cls (p : ascii -> bool)
| Opt (p : ascii -> bool)
| Plus (p : ascii -> bool)
| Group1Plus (p : ascii -> bool).

Definition pattern : Type := list item.

(** The first alternative that succeeds, in order. *)
Fixpoint first_some (A : Type) (xs : list (option A)) : option A :=
  match xs with
  | [] => None
  | Some a :: _ => Some a
  | None :: rest => first_some rest
  end.

(** Greedy [p+] with backtracking: take a character, try to take more,
    and fall back to the continuation [k] with what was taken so far. *)
Fixpoint plus_go (A : Type) (p : ascii -> bool)
    (k : string -> string -> option A) (taken s : string) : option A :=
  match s with
  | EmptyString => None
  | String c s' =>
      if p c then
        let taken' := taken ++ String c EmptyString in
        match plus_go p k taken' s' with
        | Some r => Some r
        | None => k taken' s'
        end
      else None
  end.

(** [match_at pat g s]: match [pat] at the start of [s]; [g] is what
    group 1 holds so far.  The result is group 1 of the first match the
    backtracking search finds. *)
Fixpoint match_at (pat : pattern) (g : option string) (s : string)
    : option (option string) :=
  match pat with
  | [] => Some g
  | it :: rest =>
      match it with
      | Lit l =>
          if String.prefix l s
          then match_at rest g (drop (String.length l) s) else None
      | AltLit ls =>
          first_some
            (map (fun l =>
                    if String.prefix l s
                    then match_at rest g (drop (String.length l) s)
                    else None) ls)
      | Cls p =>
          match s with
          | String c s' => if p c then match_at rest g s' else None
          | EmptyString => None
          end
      | Opt p =>
          match
            match s with
            | String c s' => if p c then match_at rest g s' else None
            | EmptyString => None
            end
          with
          | Some r => Some r
          | None => match_at rest g s
          end
      | Plus p =>
          plus_go p (fun _ s' => match_at rest g s') EmptyString s
      | Group1Plus p =>
          plus_go p (fun taken s' => match_at rest (Some taken) s')
            EmptyString s
      end
  end.

(** [re.search(pat, s)] followed by [.group(1)]: the leftmost match. *)
Fixpoint search (pat : pattern) (s : string) : option (option string) :=
  match match_at pat None s with
  | Some g => Some g
  | None =>
      match s with
      | EmptyString => None
      | String _ s' => search pat s'
      end
  end.

End Re.

(** ** Exceptions *)

Inductive exn : Type :=
| IndexError
| OtherError (msg : string).

Inductive res (A : Type) : Type :=
| Ok (a : A)
| Raise (e : exn).

Arguments Ok {A} a.
Arguments Raise {A} e.

Definition bind (A B : Type) (m : res A) (f : A -> res B) : res B :=
  match m with
  | Ok a => f a
  | Raise e => Raise e
  end.

Notation "x <- m ;; k" := (bind m (fun x => k))
  (at level 61, m at next level, right associativity).

(** ** Decimal text of numbers: [str(n)] and the [f"{n}"] fields *)

Definition str_of_nat (n : nat) : string :=
  NilEmpty.string_of_uint (Nat.to_uint n).

Definition str_of_Z (z : Z) : string :=
  NilEmpty.string_of_int (Z.to_int z).

Fixpoint rev_str (s : string) : string :=
  match s with
  | EmptyString => EmptyString
  | String c s' => rev_str s' ++ String c EmptyString
  end.

(** The digits from the right with a comma after every third one. *)
Fixpoint commas_rev (k : nat) (s : string) : string :=
  match s with
  | EmptyString => EmptyString
  | String c s' =>
      if (k =? 3)%nat
      then String "," (String c (commas_rev 1 s'))
      else String c (commas_rev (S k) s')
  end.

(** [f"{z:,}"] for a positive [z]. *)
Definition str_of_Z_commas (z : Z) : string :=
  rev_str (commas_rev 0 (rev_str (str_of_Z z))).

(** ** The schema extractor's two text formats

  What the catalogue queries return is data here: the tables of the
  public schema in name order, each with the details that
  [get_table_details] assembles. *)

Module SchemaExtractor.

Record Column : Type := {
  name : string;
  data_type : string;
  max_length : option Z;
  precision : option Z;
  scale : option Z;
  nullable : bool;
  default : option string;
  is_primary_key : bool;
  (** [Some (ref_table, ref_col)] when [is_foreign_key]. *)
  foreign_key : option (string * string);
  is_unique : bool
}.

Record Index : Type := {
  index_name : string;
  index_columns : list string;
  unique : bool;
  primary : bool;
  index_type : string
}.

Record TableDetails : Type := {
  table_name : string;
  row_count : Z;
  columns : list Column;
  indexes : list Index
}.

(** [catalog] is [Raise e] when an exception other than a database error
    escapes the catalogue queries; an unreachable database is [Ok []],
    since [get_all_tables] turns every failure into the empty list. *)
Record t : Type := {
  db_name : string;
  catalog : res (list TableDetails)
}.

(** Truth value of an optional number: [None] and 0 are false. *)
Definition truthy_Z (z : option Z) : option Z :=
  match z with
  | Some v => if (v =? 0)%Z then None else Some v
  | None => None
  end.

Definition type_mapping (dtype : string) : string :=
  if String.eqb dtype "character varying" then "varchar"
  else if String.eqb dtype "character" then "char"
  else if String.eqb dtype "timestamp without time zone" then "timestamp"
  else if String.eqb dtype "timestamp with time zone" then "timestamptz"
  else if String.eqb dtype "double precision" then "float8"
  else if String.eqb dtype "integer" then "int"
  else if String.eqb dtype "bigint" then "bigint"
  else if String.eqb dtype "smallint" then "smallint"
  else dtype.

Definition format_data_type (col : Column) : string :=
  let dtype := type_mapping (data_type col) in
  match truthy_Z (max_length col) with
  | Some len => dtype ++ "(" ++ str_of_Z len ++ ")"
  | None =>
      match truthy_Z (precision col) with
      | Some p =>
          match truthy_Z (scale col) with
          | Some sc => dtype ++ "(" ++ str_of_Z p ++ "," ++ str_of_Z sc ++ ")"
          | None => dtype ++ "(" ++ str_of_Z p ++ ")"
          end
      | None => dtype
      end
  end.

(** [col['references']]. *)
Definition references (fk : string * string) : string :=
  fst fk ++ "." ++ snd fk.

Definition bracketed (sep : string) (items : list string) : string :=
  match items with
  | [] => ""
  | _ => " [" ++ join sep items ++ "]"
  end.

Definition column_line (col : Column) : string :=
  let dtype := format_data_type col in
  let nullable_str := if nullable col then "NULL" else "NOT NULL" in
  let constraints :=
    ((if is_primary_key col then ["PRIMARY KEY"] else []) ++
     (match foreign_key col with
      | Some fk => [("FK → " ++ references fk)%string]
      | None => []
      end) ++
     (if is_unique col && negb (is_primary_key col) then ["UNIQUE"] else []))%list in
  let constraint_str := bracketed ", " constraints in
  let default_str :=
    match default col with
    | Some d => if truthy d then " DEFAULT " ++ d else ""
    | None => ""
    end in
  "  • " ++ name col ++ ": " ++ dtype ++ " " ++ nullable_str ++ default_str
    ++ constraint_str.

Definition index_line (idx : Index) : string :=
  let idx_type := if unique idx then "UNIQUE" else "INDEX" in
  let cols := join ", " (index_columns idx) in
  "  • " ++ index_name idx ++ ": " ++ idx_type ++ " (" ++ cols ++ ") ["
    ++ index_type idx ++ "]".

Definition table_block (details : TableDetails) : list string :=
  let non_pk_indexes := filter (fun idx => negb (primary idx)) (indexes details) in
  ([("TABLE: " ++ table_name details)%string] ++
   (if (0 <? row_count details)%Z
    then [("Rows: ~" ++ str_of_Z_commas (row_count details))%string] else []) ++
   [repeat_char "-" 80; "COLUMNS:"] ++
   map column_line (columns details) ++
   (match non_pk_indexes with
    | [] => []
    | _ => [""; "INDEXES:"] ++ map index_line non_pk_indexes
    end) ++
   [""])%list.

Definition schema_text (db : string) (tables : list TableDetails) : string :=
  match tables with
  | [] => "Database '" ++ db ++ "': No tables found in public schema."
  | _ =>
      join nl
        ([("DATABASE: '" ++ db ++ "'")%string;
          ("TABLES: " ++ str_of_nat (List.length tables))%string;
          repeat_char "=" 80;
          ""] ++ flat_map table_block tables)%list
  end.

Definition extract_schema (self : t) : res string :=
  tables <- catalog self ;; Ok (schema_text (db_name self) tables).

Definition compact_column (col : Column) : string :=
  let dtype := format_data_type col in
  let markers :=
    ((if is_primary_key col then ["PK"] else []) ++
     (match foreign_key col with
      | Some fk => [("FK→" ++ hd "" (split (references fk) "."))%string]
      | None => []
      end))%list in
  name col ++ ":" ++ dtype ++ bracketed "," markers.

Definition compact_table_line (details : TableDetails) : string :=
  "  • " ++ table_name details ++ ": "
    ++ join ", " (map compact_column (columns details)).

Definition compact_text (db : string) (tables : list TableDetails) : string :=
  match tables with
  | [] => "Database '" ++ db ++ "': No tables found."
  | _ =>
      join nl
        (("Database '" ++ db ++ "' - " ++ str_of_nat (List.length tables)
            ++ " tables:") :: map compact_table_line tables)
  end.

Definition extract_schema_compact (self : t) : res string :=
  tables <- catalog self ;; Ok (compact_text (db_name self) tables).

End SchemaExtractor.

(** ** The agent: [SmartDBAdminAgent] *)

Module SmartDBAdminAgent.

Record t : Type := {
  db_name : string;
  schema_extractor : SchemaExtractor.t;
  schema_context : option string
}.

(** [SmartDBAdminAgent(db_name)], over the database the extractor sees. *)
Definition init (db : string) (catalog : res (list SchemaExtractor.TableDetails)) : t :=
  {| db_name := db;
     schema_extractor := {| SchemaExtractor.db_name := db; SchemaExtractor.catalog := catalog |};
     schema_context := None |}.

(** The intent dictionary.  [table] is what [intent.get('table')] gives:
    [None] both when the key is missing and when it holds [None]. *)
Record Intent : Type := {
  type : string;
  explanation : string;
  table : option string
}.

Record SafetyVerdict : Type := {
  level : string;
  recommendation : string;
  warnings : option string
}.

(** The dictionary [process_query] returns. *)
Inductive Response : Type :=
| Failure (error : string) (suggestions : list string)
| Generated (sql explanation safety_level recommendation : string)
    (warnings : option string) (intent_type : string).

(** Truth value of an optional string: [None] and [''] are false. *)
Definition truthy_opt (o : option string) : bool :=
  match o with
  | Some s => truthy s
  | None => false
  end.

(** [a or b]. *)
Definition or_else (a b : option string) : option string :=
  if truthy_opt a then a else b.

Definition _load_schema_context (self : t) : string * t :=
  match schema_context self with
  | Some s =>
      if truthy s then (s, self)
      else
        let s' := match SchemaExtractor.extract_schema_compact (schema_extractor self) with
                  | Ok schema => schema
                  | Raise _ => "Schema unavailable"
                  end in
        (s', {| db_name := db_name self;
                schema_extractor := schema_extractor self;
                schema_context := Some s' |})
  | None =>
      let s' := match SchemaExtractor.extract_schema_compact (schema_extractor self) with
                | Ok schema => schema
                | Raise _ => "Schema unavailable"
                end in
      (s', {| db_name := db_name self;
              schema_extractor := schema_extractor self;
              schema_context := Some s' |})
  end.

Definition is_quote (c : ascii) : bool :=
  (code c =? 34)%nat || (code c =? 39)%nat || (code c =? 96)%nat.

(** The four patterns of [_extract_table_name]; [columns?] is the literal
    [column] followed by [s] or nothing, [s] tried first. *)
Definition patterns : list Re.pattern :=
  [ [Re.AltLit ["table"; "from"; "in"; "for"; "of"]; Re.Plus is_space;
     Re.Opt is_quote; Re.Group1Plus is_word; Re.Opt is_quote];
    [Re.Cls is_quote; Re.Group1Plus is_word; Re.Cls is_quote;
     Re.Plus is_space; Re.Lit "table"];
    [Re.Lit "describe"; Re.Plus is_space; Re.Group1Plus is_word];
    [Re.Lit "column"; Re.AltLit ["s"; ""]; Re.Plus is_space;
     Re.AltLit ["in"; "of"; "for"]; Re.Plus is_space; Re.Group1Plus is_word] ].

Definition stop_words : list string :=
  ["table"; "from"; "in"; "for"; "of"; "the"; "a"; "an"].

Definition in_list (s : string) (xs : list string) : bool :=
  existsb (String.eqb s) xs.

Fixpoint first_table_name (pats : list Re.pattern) (query : string) : option string :=
  match pats with
  | [] => None
  | pat :: rest =>
      match Re.search pat query with
      | Some (Some table_name) =>
          if negb (in_list table_name stop_words) then Some table_name
          else first_table_name rest query
      | _ => first_table_name rest query
      end
  end.

Definition _extract_table_name (query : string) : option string :=
  first_table_name patterns query.

Definition _analyze_intent (query : string) : Intent :=
  let query_lower := strip (lower query) in
  if any_in ["show tables"; "list tables"; "what tables"; "all tables"] query_lower then
    {| type := "list_tables";
       explanation := "List all tables in the database";
       table := None |}
  else if any_in ["describe"; "table structure"; "columns in"; "show columns"; "schema of"] query_lower then
    let table := _extract_table_name query_lower in
    {| type := "describe_table";
       explanation := match table with
                      | Some tb => if truthy tb then "Show structure of table: " ++ tb
                                   else "Show table structure"
                      | None => "Show table structure"
                      end;
       table := table |}
  else if any_in ["show indexes"; "list indexes"; "what indexes"; "all indexes"] query_lower then
    {| type := "list_indexes";
       explanation := "List all indexes in the database";
       table := None |}
  else if any_in ["foreign key"; "relationships"; "references"; "constraints"] query_lower then
    {| type := "foreign_keys";
       explanation := "Show foreign key relationships";
       table := None |}
  else if any_in ["table size"; "table sizes"; "disk usage"; "space used"] query_lower then
    {| type := "table_sizes";
       explanation := "Show table sizes sorted by disk usage";
       table := None |}
  else if any_in ["database size"; "db size"; "total size"] query_lower then
    {| type := "database_size";
       explanation := "Show total database size";
       table := None |}
  else if any_in ["row count"; "table rows"; "count rows"; "how many rows"] query_lower then
    {| type := "row_counts";
       explanation := "Show row counts for all tables";
       table := None |}
  else if any_in ["connections"; "active sessions"; "who is connected"; "connected users"] query_lower then
    {| type := "connections";
       explanation := "Show active database connections";
       table := None |}
  else if any_in ["running queries"; "active queries"; "current queries"] query_lower then
    {| type := "active_queries";
       explanation := "Show currently running queries";
       table := None |}
  else if any_in ["statistics"; "stats"; "table stats"] query_lower then
    {| type := "statistics";
       explanation := "Show database statistics";
       table := None |}
  else if startswith_any query_lower ["select"; "show me"; "get"; "find"; "list all"] then
    {| type := "data_query";
       explanation := "Retrieve data from database";
       table := None |}
  else if startswith_any query_lower ["update"; "delete"; "insert"; "create"; "alter"; "drop"] then
    {| type := "modification";
       explanation := "Modify database structure or data";
       table := None |}
  else
    {| type := "unknown";
       explanation := "General database query";
       table := None |}.

(** The catalogue of fixed templates of [_generate_sql]. *)

Definition sql_list_tables : string :=
  "SELECT 
    schemaname,
    tablename,
    tableowner
FROM pg_tables 
WHERE schemaname = 'public' 
ORDER BY tablename;".

Definition sql_describe_table (table : string) : string :=
  "SELECT 
    column_name,
    data_type,
    character_maximum_length,
    is_nullable,
    column_default
FROM information_schema.columns 
WHERE table_schema = 'public' 
AND table_name = '"
  ++ table ++
  "'
ORDER BY ordinal_position;".

Definition sql_list_indexes : string :=
  "SELECT 
    schemaname,
    tablename,
    indexname,
    indexdef
FROM pg_indexes 
WHERE schemaname = 'public' 
ORDER BY tablename, indexname;".

Definition sql_foreign_keys : string :=
  "SELECT
    tc.table_name AS from_table,
    kcu.column_name AS from_column,
    ccu.table_name AS to_table,
    ccu.column_name AS to_column,
    tc.constraint_name
FROM information_schema.table_constraints AS tc
JOIN information_schema.key_column_usage AS kcu
    ON tc.constraint_name = kcu.constraint_name
    AND tc.table_schema = kcu.table_schema
JOIN information_schema.constraint_column_usage AS ccu
    ON ccu.constraint_name = tc.constraint_name
    AND ccu.table_schema = tc.table_schema
WHERE tc.constraint_type = 'FOREIGN KEY'
AND tc.table_schema = 'public'
ORDER BY tc.table_name, tc.constraint_name;".

Definition sql_table_sizes : string :=
  "SELECT 
    schemaname,
    tablename,
    pg_size_pretty(pg_total_relation_size(schemaname||'.'||tablename)) AS total_size,
    pg_size_pretty(pg_relation_size(schemaname||'.'||tablename)) AS table_size,
    pg_size_pretty(pg_total_relation_size(schemaname||'.'||tablename) - pg_relation_size(schemaname||'.'||tablename)) AS indexes_size,
    pg_total_relation_size(schemaname||'.'||tablename) AS bytes
FROM pg_tables 
WHERE schemaname = 'public' 
ORDER BY pg_total_relation_size(schemaname||'.'||tablename) DESC;".

Definition sql_database_size : string :=
  "SELECT 
    current_database() AS database_name,
    pg_size_pretty(pg_database_size(current_database())) AS size;".

Definition sql_row_counts : string :=
  "SELECT 
    schemaname,
    relname AS table_name,
    n_live_tup AS row_count,
    n_dead_tup AS dead_rows
FROM pg_stat_user_tables 
WHERE schemaname = 'public' 
ORDER BY n_live_tup DESC;".

Definition sql_connections : string :=
  "SELECT 
    datname AS database,
    usename AS user,
    application_name,
    client_addr,
    state,
    COUNT(*) AS connection_count
FROM pg_stat_activity 
WHERE datname = current_database()
GROUP BY datname, usename, application_name, client_addr, state
ORDER BY connection_count DESC;".

Definition sql_active_queries : string :=
  "SELECT 
    pid,
    usename AS user,
    datname AS database,
    state,
    query_start,
    LEFT(query, 100) AS query_preview
FROM pg_stat_activity 
WHERE state = 'active'
AND query NOT LIKE '%pg_stat_activity%'
ORDER BY query_start;".

Definition sql_statistics : string :=
  "SELECT 
    schemaname,
    relname AS table_name,
    seq_scan AS sequential_scans,
    seq_tup_read AS rows_read_seq,
    idx_scan AS index_scans,
    idx_tup_fetch AS rows_fetched_idx,
    n_tup_ins AS inserts,
    n_tup_upd AS updates,
    n_tup_del AS deletes
FROM pg_stat_user_tables 
WHERE schemaname = 'public' 
ORDER BY relname;".


(** The loop of [_extract_table_names_from_schema] over the lines of the
    schema; [parts[1].split()[0]] raises [IndexError] when nothing but
    white space follows [Table:]. *)
Fixpoint scan_lines (lines : list string) (tables : list string) : res (list string) :=
  match lines with
  | [] => Ok tables
  | line :: rest =>
      if contains "Table:" line then
        let parts := split line "Table:" in
        if (1 <? List.length parts)%nat then
          match split_ws (nth 1 parts "") with
          | [] => Raise IndexError
          | tok :: _ => scan_lines rest (tables ++ [strip tok])%list
          end
        else scan_lines rest tables
      else scan_lines rest tables
  end.

Definition _extract_table_names_from_schema (schema : string) : res (list string) :=
  scan_lines (split schema nl) [].

Definition _construct_select_query (query schema : string) : res (option string) :=
  let query_lower := lower query in
  tables <- _extract_table_names_from_schema schema ;;
  let table := find (fun tb => contains (lower tb) query_lower) tables in
  match table with
  | None => Ok None
  | Some tb =>
      if negb (truthy tb) then Ok None
      else
        let sql := "SELECT * FROM " ++ tb in
        let sql :=
          if any_in ["where"; "with"; "having"] query_lower
          then sql ++ nl ++ "-- Add WHERE clause as needed" else sql in
        let sql :=
          if negb (contains "limit" query_lower) && negb (contains "all" query_lower)
          then sql ++ nl ++ "LIMIT 100" else sql in
        Ok (Some (sql ++ ";"))
  end.

Definition _generate_sql (query : string) (intent : Intent) (schema : string)
    : res (option string) :=
  let intent_type := type intent in
  if String.eqb intent_type "list_tables" then Ok (Some sql_list_tables)
  else if String.eqb intent_type "describe_table" then
    let table := or_else (table intent) (_extract_table_name (lower query)) in
    match table with
    | Some tb => if truthy tb then Ok (Some (sql_describe_table tb)) else Ok None
    | None => Ok None
    end
  else if String.eqb intent_type "list_indexes" then Ok (Some sql_list_indexes)
  else if String.eqb intent_type "foreign_keys" then Ok (Some sql_foreign_keys)
  else if String.eqb intent_type "table_sizes" then Ok (Some sql_table_sizes)
  else if String.eqb intent_type "database_size" then Ok (Some sql_database_size)
  else if String.eqb intent_type "row_counts" then Ok (Some sql_row_counts)
  else if String.eqb intent_type "connections" then Ok (Some sql_connections)
  else if String.eqb intent_type "active_queries" then Ok (Some sql_active_queries)
  else if String.eqb intent_type "statistics" then Ok (Some sql_statistics)
  else if String.eqb intent_type "data_query" then _construct_select_query query schema
  else Ok None.

Definition _analyze_safety (sql : string) : SafetyVerdict :=
  let sql_upper := strip (upper sql) in
  if any_in ["DROP"; "TRUNCATE"] sql_upper then
    {| level := "dangerous";
       recommendation := "ðŸ›‘ DANGEROUS: This will permanently delete data or structure. Triple-check before executing!";
       warnings := Some "This operation cannot be undone. Make sure you have a backup." |}
  else if any_in ["DELETE"; "UPDATE"; "INSERT"; "ALTER"; "CREATE"] sql_upper then
    {| level := "modify";
       recommendation := "âš ï¸ CAUTION: This will modify data or structure. Review carefully before executing.";
       warnings := Some "Ensure you have reviewed the impact of this change." |}
  else if startswith_any sql_upper ["SELECT"; "SHOW"; "WITH"] then
    {| level := "safe";
       recommendation := "âœ… SAFE: Read-only query. Safe to execute.";
       warnings := None |}
  else
    {| level := "unknown";
       recommendation := "â“ UNKNOWN: Unable to determine query type. Proceed with caution.";
       warnings := Some "Review the query carefully before executing." |}.

Definition _get_suggestions (failed_query : string) : list string :=
  [ "Try: 'Show all tables'";
    "Try: 'Show table sizes'";
    "Try: 'List all indexes'";
    "Try: 'Describe table actor'";
    "Try: 'Show database size'";
    "Try: 'Show active connections'";
    "Try: 'Show row counts'";
    "Try: 'Show foreign keys'" ].

Definition process_query (self : t) (natural_language_query : string)
    : res Response * t :=
  let (schema, self') := _load_schema_context self in
  let intent := _analyze_intent natural_language_query in
  match _generate_sql natural_language_query intent schema with
  | Raise e => (Raise e, self')
  | Ok sql =>
      if negb (truthy_opt sql) then
        (Ok (Failure "Could not generate SQL query. Please rephrase your request."
               (_get_suggestions natural_language_query)), self')
      else
        let sql_text := match sql with Some q => q | None => "" end in
        let safety := _analyze_safety sql_text in
        (Ok (Generated sql_text (explanation intent) (level safety)
               (recommendation safety) (warnings safety) (type intent)), self')
  end.

End SmartDBAdminAgent.

(** ** Execution: the database handler, the executor agent and the two
  execute endpoints of [backend/main.py]

  The database and the language model are collaborators.  What matters
  of the database is which statements reach it: the state threaded
  through the calls is the list of statements handed to
  [PostgreSQLHandler.execute], oldest first. *)

Module Main.

(** The dictionary [PostgreSQLHandler.execute] returns; it catches every
    exception itself. *)
Inductive DbResult : Type :=
| DbSuccess (payload : string)
| DbFailure (error : string).

Record Collaborators : Type := {
  (** The database's answer to a statement, given the statements run
      before it. *)
  db_answer : list string -> string -> DbResult;
  (** [_analyze_and_fix_error]: the corrected SQL when the model proposes
      a retry. *)
  fixed_sql : string -> string -> option string;
  (** [get_schema] and the construction of the executor agent. *)
  get_schema : string -> res string;
  (** [settings.MAX_RETRY_ATTEMPTS]: an integer read from the environment,
      of either sign. *)
  MAX_RETRY_ATTEMPTS : Z
}.

Definition Sent : Type := list string.

Definition handler_execute (w : Collaborators) (sql : string) (sent : Sent)
    : DbResult * Sent :=
  (db_answer w sent sql, (sent ++ [sql])%list).

Inductive ExecutionResponse : Type :=
| ExecSuccess (payload : string)
| ExecFailure (error : string).

(** [SQLExecutorAgent.execute(sql, retry_count)], by recursion on the
    retries that remain: [retry_count >= MAX_RETRY_ATTEMPTS] holds exactly
    when [MAX_RETRY_ATTEMPTS - retry_count], cut off at zero, is zero.  The
    statement is run before that test. *)
Fixpoint executor_execute (w : Collaborators) (remaining : nat) (sql : string)
    (sent : Sent) : ExecutionResponse * Sent :=
  let (result, sent') := handler_execute w sql sent in
  match result with
  | DbSuccess payload => (ExecSuccess payload, sent')
  | DbFailure error =>
      match remaining with
      | O => (ExecFailure error, sent')
      | S k =>
          match fixed_sql w sql error with
          | Some fixed =>
              if truthy fixed then executor_execute w k fixed sent'
              else (ExecFailure error, sent')
          | None => (ExecFailure error, sent')
          end
      end
  end.

Record SQLExecutionRequest : Type := {
  db_name : string;
  sql : string;
  confirm : bool
}.

(** The request of the smart-admin execute endpoint: no confirmation
    field. *)
Record SmartAdminExecuteRequest : Type := {
  admin_db_name : string;
  admin_sql : string
}.

Inductive Http (A : Type) : Type :=
| Returned (body : A)
| HTTPException (status_code : nat) (detail : string).

Arguments Returned {A} body.
Arguments HTTPException {A} status_code detail.

Definition str_of_exn (e : exn) : string :=
  match e with
  | IndexError => "list index out of range"
  | OtherError msg => msg
  end.

(** [POST /query/execute]. *)
Definition execute_sql (w : Collaborators) (request : SQLExecutionRequest)
    (sent : Sent) : Http ExecutionResponse * Sent :=
  if negb (confirm request) then
    (HTTPException 400 "Execution requires confirmation", sent)
  else
    match get_schema w (db_name request) with
    | Raise e => (Returned (ExecFailure (str_of_exn e)), sent)
    | Ok schema =>
        let (result, sent') :=
          executor_execute w (Z.to_nat (MAX_RETRY_ATTEMPTS w)) (sql request) sent in
        (Returned result, sent')
    end.

(** [SmartDBAdminAgent.execute_sql]. *)
Definition agent_execute_sql (w : Collaborators) (sql : string) (sent : Sent)
    : DbResult * Sent :=
  handler_execute w sql sent.

(** [POST /admin/smart/execute]. *)
Definition smart_admin_execute (w : Collaborators)
    (request : SmartAdminExecuteRequest) (sent : Sent) : Http DbResult * Sent :=
  let (result, sent') := agent_execute_sql w (admin_sql request) sent in
  (Returned result, sent').

(** [POST /admin/smart/generate]: whatever [process_query] raises is
    turned into a failure with a list of its own. *)
Definition smart_admin_generate (db : string)
    (catalog : res (list SchemaExtractor.TableDetails)) (query : string)
    : SmartDBAdminAgent.Response :=
  let agent := SmartDBAdminAgent.init db catalog in
  match fst (SmartDBAdminAgent.process_query agent query) with
  | Ok result => result
  | Raise e =>
      SmartDBAdminAgent.Failure ("Failed to generate SQL: " ++ str_of_exn e)
        [ "Try: 'Show all tables'";
          "Try: 'Show table sizes'";
          "Try: 'List all indexes'";
          "Try: 'Describe table actor'";
          "Try: 'Show database size'";
          "Try: 'Show row counts'";
          "Try: 'Show active connections'" ]
  end.

End Main.

(** ** The generator agent: [SQLGeneratorAgent]

    The language model is a collaborator: [generate] is given what
    [crew.kickoff()] returned, the text [str(result)] or the exception
    raised. *)

Module SQLGeneratorAgent.

Inductive QueryType : Type :=
| SELECT
| INSERT
| UPDATE
| DELETE
| OTHER.

Inductive Generation : Type :=
| GenerationFailed (error : string)
| Generated (sql : string) (query_type : QueryType) (warning : option string).

Definition _detect_query_type (sql : string) : QueryType :=
  let sql_upper := strip (upper sql) in
  if startswith sql_upper "SELECT" then SELECT
  else if startswith sql_upper "INSERT" then INSERT
  else if startswith sql_upper "UPDATE" then UPDATE
  else if startswith sql_upper "DELETE" then DELETE
  else OTHER.

Definition generate (kickoff : res string) : Generation :=
  match kickoff with
  | Raise e => GenerationFailed ("SQL generation failed: " ++ Main.str_of_exn e)
  | Ok result =>
      let sql :=
        strip_chars squote (strip_chars dquote (strip_chars bquote (strip result))) in
      let query_type := _detect_query_type sql in
      let warning :=
        match query_type with
        | UPDATE | DELETE =>
            if negb (contains "WHERE" (upper sql))
            then Some "⚠️ WARNING: This query modifies data without a WHERE clause!"
            else None
        | _ => None
        end in
      Generated sql query_type warning
  end.

End SQLGeneratorAgent.

(** ** The executor agent: [SQLExecutorAgent]

    [_analyze_and_fix_error] is given what [crew.kickoff()] returned for
    the failed statement and its error. *)

Module SQLExecutorAgent.

(** The dictionary [_analyze_and_fix_error] returns; [fixed_sql] is
    [None] both for the value [None] and, on the exception path, for the
    missing key. *)
Record Fix : Type := {
  can_retry : bool;
  fixed_sql : option string;
  analysis : string;
  suggestion : string
}.

Definition is_some (o : option string) : bool :=
  match o with
  | Some _ => true
  | None => false
  end.

Definition _analyze_and_fix_error (kickoff : res string) : Fix :=
  match kickoff with
  | Raise e =>
      {| can_retry := false;
         fixed_sql := None;
         analysis := "Could not analyze error: " ++ Main.str_of_exn e;
         suggestion := "Please review the SQL query manually." |}
  | Ok result =>
      let can_retry := contains "yes" (take 100 (lower result)) in
      let fixed_sql :=
        if contains "FIXED_SQL:" result then
          let lines :=
            strip (hd "" (split (nth 1 (split result "FIXED_SQL:") "") "ANALYSIS:")) in
          let fixed_sql :=
            strip_chars squote (strip_chars dquote (strip_chars bquote (strip lines))) in
          if String.eqb (lower fixed_sql) "null" then None else Some fixed_sql
        else None in
      {| can_retry := can_retry && is_some fixed_sql;
         fixed_sql := fixed_sql;
         analysis := result;
         suggestion := "Review the error analysis above for details." |}
  end.

Record Env : Type := {
  (** The handler's answer to a statement, given the statements run
      before it. *)
  db_answer : list string -> string -> Main.DbResult;
  (** What the model answers for a failed statement and its error. *)
  kickoff : string -> string -> res string;
  MAX_RETRY_ATTEMPTS : Z
}.

(** The dictionary [execute] returns. *)
Inductive Response : Type :=
| Executed (payload : string)
| GaveUp (error message : string)
| NotFixed (error error_analysis suggestion : string).

(** [execute(sql, retry_count)], by recursion on the retries that remain,
    [MAX_RETRY_ATTEMPTS - retry_count] cut off at zero; the state is the
    list of statements handed to the handler. *)
Fixpoint execute (w : Env) (remaining : nat) (sql : string) (sent : Main.Sent)
    : Response * Main.Sent :=
  let result := db_answer w sent sql in
  let sent' := (sent ++ [sql])%list in
  match result with
  | Main.DbSuccess payload => (Executed payload, sent')
  | Main.DbFailure error =>
      match remaining with
      | O =>
          (GaveUp error "Max retry attempts reached. Please review the query manually.",
           sent')
      | S k =>
          let fix_result := _analyze_and_fix_error (kickoff w sql error) in
          if can_retry fix_result
             && SmartDBAdminAgent.truthy_opt (fixed_sql fix_result)
          then
            match fixed_sql fix_result with
            | Some fixed => execute w k fixed sent'
            | None => (NotFixed error (analysis fix_result) (suggestion fix_result), sent')
            end
          else (NotFixed error (analysis fix_result) (suggestion fix_result), sent')
      end
  end.

(** The collaborators of the execute endpoint that this agent makes. *)
Definition collaborators (w : Env) (get_schema : string -> res string)
    : Main.Collaborators :=
  {| Main.db_answer := db_answer w;
     Main.fixed_sql := fun sql error =>
       let fix_result := _analyze_and_fix_error (kickoff w sql error) in
       if can_retry fix_result then fixed_sql fix_result else None;
     Main.get_schema := get_schema;
     Main.MAX_RETRY_ATTEMPTS := MAX_RETRY_ATTEMPTS w |}.

End SQLExecutorAgent.

(** ** The database handler: [PostgreSQLHandler.execute]

    The driver is a collaborator: what connecting and running a statement
    gives is data here.  The exits of the two [with] blocks are left out. *)

Module PostgreSQLHandler.

Inductive DriverError : Type :=
| OperationalError (msg : string)
| ProgrammingError (msg : string)
(** Any other [psycopg2.Error], with the name of its class. *)
| DatabaseError (type_name msg : string)
(** Any other exception. *)
| PythonError (msg : string).

Record Cursor : Type := {
  (** The column names [desc[0]] of [cur.description]; [None] when the
      statement gives no result set. *)
  description : option (list string);
  fetchall : DriverError + list (list string);
  rowcount : Z;
  (** The exception [conn.commit()] raises, if any. *)
  commit : option DriverError
}.

(** [psycopg2.connect] followed by [cur.execute(sql)]. *)
Definition Driver : Type := string -> DriverError + Cursor.

(** A dictionary with string keys, in insertion order. *)
Definition Dict : Type := list (string * string).

Fixpoint dict_set (key value : string) (d : Dict) : Dict :=
  match d with
  | [] => [(key, value)]
  | (k, v) :: rest =>
      if String.eqb k key then (k, value) :: rest
      else (k, v) :: dict_set key value rest
  end.

(** [dict(pairs)]. *)
Definition dict (pairs : list (string * string)) : Dict :=
  fold_left (fun d kv => dict_set (fst kv) (snd kv) d) pairs [].

Fixpoint zip (xs ys : list string) : list (string * string) :=
  match xs, ys with
  | x :: xs', y :: ys' => (x, y) :: zip xs' ys'
  | _, _ => []
  end.

Inductive Result : Type :=
| Rows (data : list Dict) (columns : list string) (row_count : nat)
| Affected (affected_rows : Z) (message : string)
| Failed (error : string) (error_type : option string).

Definition failed (e : DriverError) : Result :=
  match e with
  | OperationalError msg => Failed msg (Some "OperationalError")
  | ProgrammingError msg => Failed msg (Some "ProgrammingError")
  | DatabaseError type_name msg => Failed msg (Some type_name)
  | PythonError msg => Failed ("Unexpected error: " ++ msg) None
  end.

Definition execute (driver : Driver) (sql : string) : Result :=
  match driver sql with
  | inl e => failed e
  | inr cur =>
      let sql_upper := upper (strip sql) in
      if startswith sql_upper "SELECT" || startswith sql_upper "WITH" then
        match description cur with
        | None => failed (PythonError "'NoneType' object is not iterable")
        | Some columns =>
            match fetchall cur with
            | inl e => failed e
            | inr rows =>
                Rows (map (fun row => dict (zip columns row)) rows) columns
                  (List.length rows)
            end
        end
      else
        match commit cur with
        | Some e => failed e
        | None =>
            Affected (rowcount cur)
              ("Query executed successfully. " ++ str_of_Z (rowcount cur)
                 ++ " rows affected.")
        end
  end.

End PostgreSQLHandler.

(** ** The schema cache of [backend/main.py]

    [schema_cache] is a dictionary from database names to schema texts;
    [Catalogs] is what the extractor of each database sees at the time of
    a call. *)

Module SchemaCache.

Definition Cache : Type := string -> option string.

Definition empty : Cache := fun _ => None.

(** [schema_cache[db_name] = schema]. *)
Definition store (db_name schema : string) (schema_cache : Cache) : Cache :=
  fun name => if String.eqb name db_name then Some schema else schema_cache name.

Definition Catalogs : Type := string -> res (list SchemaExtractor.TableDetails).

Definition extractor (catalogs : Catalogs) (db_name : string) : SchemaExtractor.t :=
  {| SchemaExtractor.db_name := db_name;
     SchemaExtractor.catalog := catalogs db_name |}.

Definition get_schema (catalogs : Catalogs) (db_name : string) (schema_cache : Cache)
    : res string * Cache :=
  match schema_cache db_name with
  | Some schema => (Ok schema, schema_cache)
  | None =>
      match SchemaExtractor.extract_schema (extractor catalogs db_name) with
      | Ok schema => (Ok schema, store db_name schema schema_cache)
      | Raise e => (Raise e, schema_cache)
      end
  end.

Record SchemaResponse : Type := {
  success : bool;
  schema : option string;
  tables : option (list string)
}.

(** [SchemaExtractor.get_all_tables]. *)
Definition get_all_tables (self : SchemaExtractor.t) : list string :=
  match SchemaExtractor.catalog self with
  | Ok details => map SchemaExtractor.table_name details
  | Raise _ => []
  end.

(** [POST /schema/extract]. *)
Definition extract_schema (catalogs : Catalogs) (db_name : string)
    (schema_cache : Cache) : Main.Http SchemaResponse * Cache :=
  match SchemaExtractor.extract_schema (extractor catalogs db_name) with
  | Raise e => (Main.HTTPException 500 (Main.str_of_exn e), schema_cache)
  | Ok schema =>
      (Main.Returned {| success := true;
                        schema := Some schema;
                        tables := Some (get_all_tables (extractor catalogs db_name)) |},
       store db_name schema schema_cache)
  end.

End SchemaCache.

(** ** Notions the statements use *)

Import SmartDBAdminAgent.

(** [kw] occurs in [sql] up to the case of letters. *)
Definition icontains (kw sql : string) : Prop :=
  exists a d b, sql = a ++ d ++ b /\ upper d = kw.

(** The closed enumeration of intent tags. *)
Definition intent_kinds : list string :=
  [ "list_tables"; "describe_table"; "list_indexes"; "foreign_keys";
    "table_sizes"; "database_size"; "row_counts"; "connections";
    "active_queries"; "statistics"; "data_query"; "modification"; "unknown" ].

(** The ten keyword sets of the classifier, in priority order, and its two
  prefix sets. *)
Definition keyword_sets : list (list string) :=
  [ ["show tables"; "list tables"; "what tables"; "all tables"];
    ["describe"; "table structure"; "columns in"; "show columns"; "schema of"];
    ["show indexes"; "list indexes"; "what indexes"; "all indexes"];
    ["foreign key"; "relationships"; "references"; "constraints"];
    ["table size"; "table sizes"; "disk usage"; "space used"];
    ["database size"; "db size"; "total size"];
    ["row count"; "table rows"; "count rows"; "how many rows"];
    ["connections"; "active sessions"; "who is connected"; "connected users"];
    ["running queries"; "active queries"; "current queries"];
    ["statistics"; "stats"; "table stats"] ].

Definition data_query_prefixes : list string :=
  ["select"; "show me"; "get"; "find"; "list all"].

Definition modification_prefixes : list string :=
  ["update"; "delete"; "insert"; "create"; "alter"; "drop"].

(** The input matches some keyword set or some prefix. *)
Definition matched (query : string) : bool :=
  let query_lower := strip (lower query) in
  existsb (fun kws => any_in kws query_lower) keyword_sets
  || startswith_any query_lower data_query_prefixes
  || startswith_any query_lower modification_prefixes.

(** Group 1 of the leftmost match of a pattern, when there is a match. *)
Definition capture (pat : Re.pattern) (query : string) : option string :=
  match Re.search pat query with
  | Some (Some table_name) => Some table_name
  | _ => None
  end.

(** The keyword lists of the safety classifier. *)
Definition dangerous_keywords : list string := ["DROP"; "TRUNCATE"].
Definition modify_keywords : list string :=
  ["DELETE"; "UPDATE"; "INSERT"; "ALTER"; "CREATE"].
Definition safe_prefixes : list string := ["SELECT"; "SHOW"; "WITH"].

(** The specification's reading of the dangerous tier, in its words:
  the text contains the keyword "as a whole keyword", that is, an
  occurrence with no word character right before it and none right
  after it, whatever the case of the letters. *)
Definition word_boundary_after (n : nat) (s : string) : bool :=
  match drop n s with
  | EmptyString => true
  | String c _ => negb (is_word c)
  end.

Fixpoint whole_word_go (kw : string) (after_word : bool) (s : string) : bool :=
  (negb after_word && String.prefix kw s && word_boundary_after (String.length kw) s)
  || match s with
     | EmptyString => false
     | String c s' => whole_word_go kw (is_word c) s'
     end.

Definition contains_whole_keyword (kw sql : string) : bool :=
  whole_word_go kw false (upper sql).

(** The specification's list of example queries, in its words. *)
Definition spec_suggestions : list string :=
  [ "Show all tables"; "Show table sizes"; "List all indexes";
    "Describe table actor"; "Show database size"; "Show active connections";
    "Show row counts"; "Show foreign keys" ].

(** Collaborators for examples: a database that accepts every statement,
    a model that proposes no correction, a schema that loads. *)
Definition accepting : Main.Collaborators :=
  {| Main.db_answer := fun _ _ => Main.DbSuccess "done";
     Main.fixed_sql := fun _ _ => None;
     Main.get_schema := fun _ => Ok "";
     Main.MAX_RETRY_ATTEMPTS := 3%Z |}.

(** A database that rejects every statement, a model that always
    proposes a corrected one, and a negative setting of the retries. *)
Definition rejecting : Main.Collaborators :=
  {| Main.db_answer := fun _ _ => Main.DbFailure "syntax error";
     Main.fixed_sql := fun _ _ => Some "SELECT 1;";
     Main.get_schema := fun _ => Ok "";
     Main.MAX_RETRY_ATTEMPTS := (-1)%Z |}.

(** A catalogue for examples: one table, UserTable, with one text
    column. *)
Definition user_table_catalog : list SchemaExtractor.TableDetails :=
  [ {| SchemaExtractor.table_name := "UserTable";
       SchemaExtractor.row_count := 0;
       SchemaExtractor.columns :=
         [ {| SchemaExtractor.name := "name";
              SchemaExtractor.data_type := "text";
              SchemaExtractor.max_length := None;
              SchemaExtractor.precision := None;
              SchemaExtractor.scale := None;
              SchemaExtractor.nullable := true;
              SchemaExtractor.default := None;
              SchemaExtractor.is_primary_key := false;
              SchemaExtractor.foreign_key := None;
              SchemaExtractor.is_unique := false |} ];
       SchemaExtractor.indexes := [] |} ].

(** A catalogue for examples: one table, UserTable, that shows no
    column. *)
Definition bare_user_table_catalog : list SchemaExtractor.TableDetails :=
  [ {| SchemaExtractor.table_name := "UserTable";
       SchemaExtractor.row_count := 0;
       SchemaExtractor.columns := [];
       SchemaExtractor.indexes := [] |} ].

(** The same with the table named in lower case. *)
Definition users_catalog : list SchemaExtractor.TableDetails :=
  [ {| SchemaExtractor.table_name := "users";
       SchemaExtractor.row_count := 1500;
       SchemaExtractor.columns :=
         [ {| SchemaExtractor.name := "name";
              SchemaExtractor.data_type := "character varying";
              SchemaExtractor.max_length := Some 50%Z;
              SchemaExtractor.precision := None;
              SchemaExtractor.scale := None;
              SchemaExtractor.nullable := false;
              SchemaExtractor.default := None;
              SchemaExtractor.is_primary_key := true;
              SchemaExtractor.foreign_key := None;
              SchemaExtractor.is_unique := false |} ];
       SchemaExtractor.indexes := [] |} ].

(** A catalogue for examples: the tables customers and orders. *)
Definition customers_orders_catalog : list SchemaExtractor.TableDetails :=
  [ {| SchemaExtractor.table_name := "customers";
       SchemaExtractor.row_count := 120;
       SchemaExtractor.columns :=
         [ {| SchemaExtractor.name := "id";
              SchemaExtractor.data_type := "integer";
              SchemaExtractor.max_length := None;
              SchemaExtractor.precision := None;
              SchemaExtractor.scale := None;
              SchemaExtractor.nullable := false;
              SchemaExtractor.default := None;
              SchemaExtractor.is_primary_key := true;
              SchemaExtractor.foreign_key := None;
              SchemaExtractor.is_unique := false |};
           {| SchemaExtractor.name := "name";
              SchemaExtractor.data_type := "text";
              SchemaExtractor.max_length := None;
              SchemaExtractor.precision := None;
              SchemaExtractor.scale := None;
              SchemaExtractor.nullable := false;
              SchemaExtractor.default := None;
              SchemaExtractor.is_primary_key := false;
              SchemaExtractor.foreign_key := None;
              SchemaExtractor.is_unique := false |} ];
       SchemaExtractor.indexes := [] |};
    {| SchemaExtractor.table_name := "orders";
       SchemaExtractor.row_count := 900;
       SchemaExtractor.columns :=
         [ {| SchemaExtractor.name := "id";
              SchemaExtractor.data_type := "integer";
              SchemaExtractor.max_length := None;
              SchemaExtractor.precision := None;
              SchemaExtractor.scale := None;
              SchemaExtractor.nullable := false;
              SchemaExtractor.default := None;
              SchemaExtractor.is_primary_key := true;
              SchemaExtractor.foreign_key := None;
              SchemaExtractor.is_unique := false |};
           {| SchemaExtractor.name := "customer_id";
              SchemaExtractor.data_type := "integer";
              SchemaExtractor.max_length := None;
              SchemaExtractor.precision := None;
              SchemaExtractor.scale := None;
              SchemaExtractor.nullable := false;
              SchemaExtractor.default := None;
              SchemaExtractor.is_primary_key := false;
              SchemaExtractor.foreign_key := Some ("customers", "id");
              SchemaExtractor.is_unique := false |} ];
       SchemaExtractor.indexes := [] |} ].

(** A driver for examples: a join whose result set has the column id
    twice. *)
Definition join_driver : PostgreSQLHandler.Driver :=
  fun _ =>
    inr {| PostgreSQLHandler.description := Some ["id"; "name"; "id"];
           PostgreSQLHandler.fetchall := inr [["1"; "ann"; "7"]; ["2"; "bob"; "8"]];
           PostgreSQLHandler.rowcount := 2;
           PostgreSQLHandler.commit := None |}.

(** A catalogue for examples with capital letters in its names and a
    default value: the table Tickets. *)
Definition tickets_catalog : list SchemaExtractor.TableDetails :=
  [ {| SchemaExtractor.table_name := "Tickets";
       SchemaExtractor.row_count := 42;
       SchemaExtractor.columns :=
         [ {| SchemaExtractor.name := "Title";
              SchemaExtractor.data_type := "text";
              SchemaExtractor.max_length := None;
              SchemaExtractor.precision := None;
              SchemaExtractor.scale := None;
              SchemaExtractor.nullable := false;
              SchemaExtractor.default := None;
              SchemaExtractor.is_primary_key := false;
              SchemaExtractor.foreign_key := None;
              SchemaExtractor.is_unique := false |};
           {| SchemaExtractor.name := "created_at";
              SchemaExtractor.data_type := "timestamp without time zone";
              SchemaExtractor.max_length := None;
              SchemaExtractor.precision := None;
              SchemaExtractor.scale := None;
              SchemaExtractor.nullable := false;
              SchemaExtractor.default := Some "CURRENT_TIMESTAMP";
              SchemaExtractor.is_primary_key := false;
              SchemaExtractor.foreign_key := None;
              SchemaExtractor.is_unique := false |} ];
       SchemaExtractor.indexes := [] |} ].

(** Every character of [s] passes [p]. *)
Fixpoint allb (p : ascii -> bool) (s : string) : bool :=
  match s with
  | EmptyString => true
  | String c s' => p c && allb p s'
  end.

(** No capital T in a name. *)
Definition no_T (s : string) : bool :=
  allb (fun c => negb (Ascii.eqb c "T")) s.

(** Every capital T of [s] is followed by a character other than [a]. *)
Fixpoint quiet (s : string) : bool :=
  match s with
  | EmptyString => true
  | String c s' =>
      if Ascii.eqb c "T" then
        match s' with
        | EmptyString => false
        | String d _ => negb (Ascii.eqb d "a") && quiet s'
        end
      else quiet s'
  end.

Definition no_T_opt (o : option string) : bool :=
  match o with
  | Some s => no_T s
  | None => true
  end.

Definition plain_column (col : SchemaExtractor.Column) : bool :=
  no_T (SchemaExtractor.name col)
  && no_T (SchemaExtractor.data_type col)
  && no_T_opt (SchemaExtractor.default col)
  && match SchemaExtractor.foreign_key col with
     | Some (ref_table, ref_col) => no_T ref_table && no_T ref_col
     | None => true
     end.

Definition plain_index (idx : SchemaExtractor.Index) : bool :=
  no_T (SchemaExtractor.index_name idx)
  && forallb no_T (SchemaExtractor.index_columns idx)
  && no_T (SchemaExtractor.index_type idx).

Definition plain_table (details : SchemaExtractor.TableDetails) : bool :=
  no_T (SchemaExtractor.table_name details)
  && forallb plain_column (SchemaExtractor.columns details)
  && forallb plain_index (SchemaExtractor.indexes details).

(** A database none of whose names holds a capital T: its own name and
  the names, types, defaults and references in its catalogue. *)
Definition plain_database (db : string)
    (catalog : res (list SchemaExtractor.TableDetails)) : bool :=
  no_T db
  && match catalog with
     | Ok tables => forallb plain_table tables
     | Raise _ => true
     end.

(** No line of a schema text holds the marker [Table:]. *)
Definition unmarked (schema : string) : bool :=
  forallb (fun line => negb (contains "Table:" line)) (split schema nl).

(** Last character is not white space (and there is one). *)
Fixpoint ends_nonspace (kw : string) : bool :=
  match kw with
  | EmptyString => false
  | String c EmptyString => negb (is_space c)
  | String _ kw' => ends_nonspace kw'
  end.

Definition starts_nonspace (kw : string) : bool :=
  match kw with
  | EmptyString => false
  | String c _ => negb (is_space c)
  end.

(** White space only. *)
Definition all_space (s : string) : bool := allb is_space s.

(** A name made of word characters: not empty, nothing but letters,
    digits and underscores. *)
Definition word_name (s : string) : bool :=
  truthy s && allb is_word s.

(** The capturing groups of a pattern take word characters only. *)
Definition groups_take_words (pat : Re.pattern) : Prop :=
  forall p, In (Re.Group1Plus p) pat -> forall c, p c = true -> is_word c = true.

(** A table name as the lookup can give it back: not empty, no white
    space (hence no line break), no marker inside. *)
Definition listable (name : string) : bool :=
  truthy name
  && allb (fun c => negb (is_space c)) name
  && negb (contains "Table:" name).

(** The test the lookup makes on a line, as a boolean: the line holds a
    marker and the second piece of its split at the markers has no word. *)
Definition blank_marker (line : string) : bool :=
  contains "Table:" line
  && match split_ws (nth 1 (split line "Table:") "") with
     | [] => true
     | _ :: _ => false
     end.

(** A line whose first marker is followed by nothing but white space, up
    to the next marker or the end of the line. *)
Definition blank_after_first_marker (line : string) : Prop :=
  exists pre gap rest,
    line = pre ++ "Table:" ++ gap ++ rest
    /\ contains "Table:" pre = false
    /\ all_space gap = true
    /\ (rest = "" \/ String.prefix "Table:" rest = true).

(** * Properties *)

Unset Implicit Arguments.

(** ** Evaluations of the primitives *)

Example split_lines_ex :
split ("a" ++ nl ++ "bc" ++ nl) nl = ["a"; "bc"; ""].
Proof. reflexivity. Qed.

Example split_sep_ex :
split "xTable: a Table:b" "Table:" = ["x"; " a "; "b"].
Proof. reflexivity. Qed.

Example split_ws_ex : split_ws "  ab  c " = ["ab"; "c"].
Proof. reflexivity. Qed.

Example strip_ex : strip "  a b  " = "a b".
Proof. reflexivity. Qed.

Example upper_ex : upper "Select * from t_1" = "SELECT * FROM T_1".
Proof. reflexivity. Qed.

(** ** Facts about the string primitives *)

Lemma append_assoc (a b c : string) : (a ++ b) ++ c = a ++ (b ++ c).
Proof. induction a as [|x a IH]; simpl; [reflexivity | now rewrite IH]. Qed.

Lemma append_empty_r (a : string) : a ++ "" = a.
Proof. induction a as [|x a IH]; simpl; [reflexivity | now rewrite IH]. Qed.

Lemma prefix_empty (s : string) : String.prefix "" s = true.
Proof. destruct s; reflexivity. Qed.

Lemma prefix_cons (c d : ascii) (p s : string) :
  String.prefix (String c p) (String d s) = Ascii.eqb c d && String.prefix p s.
Proof.
  simpl. destruct (Ascii.ascii_dec c d) as [->|Hne].
  - now rewrite Ascii.eqb_refl.
  - apply Ascii.eqb_neq in Hne. now rewrite Hne.
Qed.

Lemma prefix_iff (p s : string) :
  String.prefix p s = true <-> exists t, s = p ++ t.
Proof.
  revert s. induction p as [|c p IH]; intros s.
  - rewrite prefix_empty. split; [intros _; now exists s | reflexivity].
  - destruct s as [|d s].
    + simpl. split; [discriminate | intros [t Ht]; discriminate].
    + rewrite prefix_cons, andb_true_iff, Ascii.eqb_eq, IH. split.
      * intros [-> [t ->]]. now exists t.
      * intros [t Ht]. simpl in Ht. injection Ht as -> ->. split; [reflexivity | now exists t].
Qed.

Lemma contains_iff (p s : string) :
  contains p s = true <-> exists a b, s = a ++ p ++ b.
Proof.
  induction s as [|c s IH].
  - cbn [contains]. rewrite orb_false_r, prefix_iff. split.
    + intros [t Ht]. now exists "", t.
    + intros [a [b Hab]]. destruct a; simpl in Hab; [now exists b | discriminate].
  - cbn [contains]. rewrite orb_true_iff, prefix_iff, IH. split.
    + intros [[t Ht] | [a [b Hab]]].
      * now exists "", t.
      * exists (String c a), b. simpl. now rewrite Hab.
    + intros [a [b Hab]]. destruct a as [|x a]; simpl in Hab.
      * left. now exists b.
      * right. injection Hab as -> ->. now exists a, b.
Qed.

Lemma contains_app_l (p a b : string) :
  contains p a = true -> contains p (a ++ b) = true.
Proof.
  rewrite !contains_iff. intros [x [y ->]]. exists x, (y ++ b).
  now rewrite !append_assoc.
Qed.

Lemma contains_app_r (p a b : string) :
  contains p b = true -> contains p (a ++ b) = true.
Proof.
  rewrite !contains_iff. intros [x [y ->]]. exists (a ++ x), y.
  now rewrite !append_assoc.
Qed.

Lemma map_str_app (f : ascii -> ascii) (a b : string) :
  map_str f (a ++ b) = map_str f a ++ map_str f b.
Proof. induction a as [|x a IH]; simpl; [reflexivity | now rewrite IH]. Qed.

Lemma map_str_app_inv (f : ascii -> ascii) (s x y : string) :
  map_str f s = x ++ y ->
  exists a b, s = a ++ b /\ map_str f a = x /\ map_str f b = y.
Proof.
  revert s. induction x as [|c x IH]; intros s H.
  - exists "", s. auto.
  - destruct s as [|d s]; simpl in H; [discriminate|].
    injection H as Hc Hs. destruct (IH _ Hs) as [a [b [-> [Ha Hb]]]].
    exists (String d a), b. simpl. now rewrite Hc, Ha.
Qed.

(** White space at either end hides no occurrence of a keyword that
    starts and ends with another character. *)
Lemma contains_lstrip (kw s : string) :
  starts_nonspace kw = true -> contains kw (lstrip s) = contains kw s.
Proof.
  intros Hkw. destruct kw as [|k kw]; [discriminate|]. simpl in Hkw.
  induction s as [|c s IH]; [reflexivity|].
  cbn [lstrip]. destruct (is_space c) eqn:Hc; [|reflexivity].
  rewrite IH. cbn [contains]. rewrite prefix_cons.
  destruct (Ascii.eqb k c) eqn:Hkc; [|reflexivity].
  apply Ascii.eqb_eq in Hkc. subst c. rewrite Hc in Hkw. discriminate.
Qed.

Lemma prefix_rstrip (kw s : string) :
  ends_nonspace kw = true -> String.prefix kw (rstrip s) = String.prefix kw s.
Proof.
  revert s. induction kw as [|k kw IH]; intros s Hkw; [discriminate|].
  destruct s as [|c s]; [reflexivity|].
  cbn [rstrip]. destruct kw as [|k' kw].
  - simpl in Hkw.
    destruct (rstrip s) as [|r0 r].
    + destruct (is_space c) eqn:Hc.
      * rewrite prefix_cons, prefix_empty, andb_true_r.
        destruct (Ascii.eqb k c) eqn:Hkc; [|reflexivity].
        apply Ascii.eqb_eq in Hkc. subst c. rewrite Hc in Hkw. discriminate.
      * now rewrite !prefix_cons, !prefix_empty.
    + now rewrite !prefix_cons, !prefix_empty.
  - assert (Hkw' : ends_nonspace (String k' kw) = true) by exact Hkw.
    specialize (IH s Hkw').
    destruct (rstrip s) as [|r0 r] eqn:Hr.
    + rewrite prefix_cons, <- IH.
      destruct (is_space c); [now rewrite andb_false_r|].
      rewrite prefix_cons. reflexivity.
    + rewrite (prefix_cons k c (String k' kw) (String r0 r)).
      rewrite (prefix_cons k c (String k' kw) s). now rewrite IH.
Qed.

Lemma contains_rstrip (kw s : string) :
  ends_nonspace kw = true -> contains kw (rstrip s) = contains kw s.
Proof.
  intros Hkw. induction s as [|c s IH]; [reflexivity|].
  pose proof (@prefix_rstrip kw (String c s) Hkw) as Hp.
  cbn [rstrip] in *. cbn [contains]. rewrite <- IH, <- Hp.
  assert (Hne : String.prefix kw "" = false) by (destruct kw; [discriminate | reflexivity]).
  destruct (rstrip s) as [|r0 r].
  - destruct (is_space c); cbn [contains]; rewrite ?Hne, ?orb_false_r; reflexivity.
  - reflexivity.
Qed.

Lemma contains_strip (kw s : string) :
  starts_nonspace kw = true -> ends_nonspace kw = true ->
  contains kw (strip s) = contains kw s.
Proof.
  intros H1 H2. unfold strip. now rewrite contains_rstrip, contains_lstrip.
Qed.

(** On this 8-bit text, containment up to case is containment in the
    upper-cased text. *)
Lemma icontains_iff (kw sql : string) :
  icontains kw sql <-> contains kw (upper sql) = true.
Proof.
  rewrite contains_iff. unfold icontains, upper. split.
  - intros [a [d [b [-> Hd]]]]. exists (map_str upper_char a), (map_str upper_char b).
    now rewrite !map_str_app, Hd.
  - intros [x [y H]].
    destruct (@map_str_app_inv _ _ _ _ H) as [a [r [-> [Ha Hr]]]].
    destruct (@map_str_app_inv _ _ _ _ Hr) as [d [b [-> [Hd Hb]]]].
    now exists a, d, b.
Qed.


(** ** The safety classifier *)

Lemma dangerous_test (sql : string) :
any_in dangerous_keywords (strip (upper sql)) = true <->
icontains "DROP" sql \/ icontains "TRUNCATE" sql.
Proof.
unfold any_in, dangerous_keywords. cbn [existsb].
rewrite !contains_strip by reflexivity.
rewrite orb_false_r, orb_true_iff, !icontains_iff. reflexivity.
Qed.

Lemma safety_cases (sql : string) :
let sql_upper := strip (upper sql) in
level (_analyze_safety sql) =
  if any_in dangerous_keywords sql_upper then "dangerous"
  else if any_in modify_keywords sql_upper then "modify"
  else if startswith_any sql_upper safe_prefixes then "safe"
  else "unknown".
Proof.
unfold _analyze_safety. cbv zeta.
fold dangerous_keywords modify_keywords safe_prefixes.
destruct (any_in dangerous_keywords _); [reflexivity|].
destruct (any_in modify_keywords _); [reflexivity|].
destruct (startswith_any _ safe_prefixes); reflexivity.
Qed.

(** C2.  The classifier tests containment of a dangerous keyword first,
  then containment of a modify keyword, then the safe prefixes, and
  answers "unknown" when all three fail.  Hence a statement that starts
  with SELECT and holds DROP in any case of letters is rated
  "dangerous", not "safe", although the prefix test would accept it. *)
Theorem safety_checks_dangerous_first :
forall sql : string,
  let sql_upper := strip (upper sql) in
  (any_in dangerous_keywords sql_upper = true ->
     level (_analyze_safety sql) = "dangerous")
  /\ (any_in dangerous_keywords sql_upper = false ->
      any_in modify_keywords sql_upper = true ->
      level (_analyze_safety sql) = "modify")
  /\ (any_in dangerous_keywords sql_upper = false ->
      any_in modify_keywords sql_upper = false ->
      startswith_any sql_upper safe_prefixes = true ->
      level (_analyze_safety sql) = "safe")
  /\ (any_in dangerous_keywords sql_upper = false ->
      any_in modify_keywords sql_upper = false ->
      startswith_any sql_upper safe_prefixes = false ->
      level (_analyze_safety sql) = "unknown")
  /\ (startswith sql_upper "SELECT" = true ->
      icontains "DROP" sql ->
      startswith_any sql_upper safe_prefixes = true
      /\ level (_analyze_safety sql) = "dangerous"
      /\ level (_analyze_safety sql) <> "safe").
Proof.
intros sql sql_upper. pose proof (safety_cases sql) as Hc.
cbv zeta in Hc. fold sql_upper in Hc.
split; [|split; [|split; [|split]]].
- intros H. now rewrite Hc, H.
- intros H1 H2. now rewrite Hc, H1, H2.
- intros H1 H2 H3. now rewrite Hc, H1, H2, H3.
- intros H1 H2 H3. now rewrite Hc, H1, H2, H3.
- intros H Hd.
  assert (Hk : any_in dangerous_keywords sql_upper = true)
    by (apply dangerous_test; now left).
  rewrite Hc, Hk. split; [|split; [reflexivity | discriminate]].
  unfold startswith_any, safe_prefixes. cbn [existsb]. now rewrite H.
Qed.

Lemma safety_checks_dangerous_first_witness :
level (_analyze_safety "select 'Drop it' from notes;") = "dangerous"
/\ level (_analyze_safety "select 'Drop it' from notes;") <> "safe".
Proof.
destruct (safety_checks_dangerous_first "select 'Drop it' from notes;")
  as (_ & _ & _ & _ & H).
apply H.
- reflexivity.
- exists "select '", "Drop", " it' from notes;". split; reflexivity.
Defined.

(** C3, as the specification words it, fails: DROP inside a longer word
  makes a statement "dangerous" although neither keyword occurs in it
  as a whole keyword. *)
Lemma dangerous_on_fragment :
level (_analyze_safety "SELECT * FROM dropdown;") = "dangerous"
/\ contains_whole_keyword "DROP" "SELECT * FROM dropdown;" = false
/\ contains_whole_keyword "TRUNCATE" "SELECT * FROM dropdown;" = false.
Proof. repeat split; vm_compute; reflexivity. Qed.

(** C3, amended.  The tier is "dangerous" exactly when the upper-cased
  text ([sql.upper()]) holds DROP or TRUNCATE as a substring, whole word
  or fragment of a longer one; white space around the text plays no part.
  The verdict then carries the recommendation on permanent deletion and
  the warning that the operation cannot be undone and needs a backup. *)
Theorem dangerous_iff_substring :
forall sql : string,
  (level (_analyze_safety sql) = "dangerous" <->
     contains "DROP" (upper sql) = true \/ contains "TRUNCATE" (upper sql) = true)
  /\ (level (_analyze_safety sql) = "dangerous" ->
      contains "This will permanently delete data or structure"
        (recommendation (_analyze_safety sql)) = true
      /\ warnings (_analyze_safety sql)
         = Some "This operation cannot be undone. Make sure you have a backup.").
Proof.
intros sql.
assert (Ht : any_in dangerous_keywords (strip (upper sql)) = true <->
             contains "DROP" (upper sql) = true
             \/ contains "TRUNCATE" (upper sql) = true).
{ unfold any_in, dangerous_keywords. cbn [existsb].
  rewrite !contains_strip by reflexivity.
  now rewrite orb_false_r, orb_true_iff. }
rewrite <- Ht. clear Ht.
pose proof (safety_cases sql) as Hc. cbv zeta in Hc.
unfold _analyze_safety in *. fold dangerous_keywords in *.
destruct (any_in dangerous_keywords (strip (upper sql))).
- split; [split; reflexivity|]. intros _. split; vm_compute; reflexivity.
- cbn [level] in Hc |- *. split.
  + split; [|discriminate]. rewrite Hc.
    destruct (any_in modify_keywords _); [discriminate|].
    destruct (startswith_any _ safe_prefixes); discriminate.
  + rewrite Hc.
    destruct (any_in modify_keywords _); [discriminate|].
    destruct (startswith_any _ safe_prefixes); discriminate.
Qed.

(** ** The intent classifier *)

Ltac split_intent_tests :=
  repeat match goal with
         | |- context [if any_in ?kws ?q then _ else _] =>
             destruct (any_in kws q) eqn:?
         | |- context [if startswith_any ?q ?ps then _ else _] =>
             destruct (startswith_any q ps) eqn:?
         end.

Lemma intent_kind_listed (query : string) :
  In (type (_analyze_intent query)) intent_kinds.
Proof.
  unfold _analyze_intent. cbv zeta. split_intent_tests;
    cbn [type]; unfold intent_kinds; cbn [In]; tauto.
Qed.

Lemma intent_statistics (query : string) :
  type (_analyze_intent query) = "statistics" ->
  _analyze_intent query
  = {| type := "statistics"; explanation := "Show database statistics";
       table := None |}.
Proof.
  unfold _analyze_intent. cbv zeta. split_intent_tests; cbn [type];
    intros H; try discriminate H; reflexivity.
Qed.

(** C6.  Classification is a function from inputs to intents with no
    failing step: every input gets one intent, its tag is one of the
    thirteen of the enumeration, and the tag is "unknown" exactly for the
    inputs that match no keyword set and no data-query or modification
    prefix, which get the fallback intent. *)
Theorem classify_total :
  forall query : string,
    In (type (_analyze_intent query)) intent_kinds
    /\ (matched query = false ->
        _analyze_intent query
        = {| type := "unknown"; explanation := "General database query";
             table := None |})
    /\ (type (_analyze_intent query) = "unknown" -> matched query = false).
Proof.
  intros query. split; [apply intent_kind_listed|].
  unfold matched, keyword_sets, data_query_prefixes, modification_prefixes,
    _analyze_intent.
  cbv zeta. cbn [existsb].
  split_intent_tests; cbn [type orb]; split; intros H;
    try discriminate H; reflexivity.
Qed.

Lemma classify_total_witness :
  _analyze_intent "please vacuum everything"
  = {| type := "unknown"; explanation := "General database query";
       table := None |}.
Proof.
  destruct (classify_total "please vacuum everything") as (_ & H & _).
  apply H. reflexivity.
Defined.

Example priority_order_ex :
  type (_analyze_intent "show all tables and relationships") = "list_tables".
Proof. reflexivity. Qed.

(** ** Synthesis for the fixed intents *)

Lemma generate_statistics (query schema : string) (intent : Intent) :
  type intent = "statistics" ->
  _generate_sql query intent schema = Ok (Some sql_statistics).
Proof. intros H. unfold _generate_sql. rewrite H. reflexivity. Qed.

Lemma generate_modification (query schema : string) (intent : Intent) :
  type intent = "modification" ->
  _generate_sql query intent schema = Ok None.
Proof. intros H. unfold _generate_sql. rewrite H. reflexivity. Qed.

(** What [process_query] answers once the outcome of synthesis is known. *)
Lemma process_query_absent (self : t) (query : string) :
  _generate_sql query (_analyze_intent query) (fst (_load_schema_context self))
  = Ok None ->
  fst (process_query self query)
  = Ok (Failure "Could not generate SQL query. Please rephrase your request."
          (_get_suggestions query)).
Proof.
  unfold process_query. destruct (_load_schema_context self) as [schema self'].
  cbn [fst]. intros ->. reflexivity.
Qed.

Lemma process_query_present (self : t) (query sql : string) :
  _generate_sql query (_analyze_intent query) (fst (_load_schema_context self))
  = Ok (Some sql) ->
  sql <> "" ->
  fst (process_query self query)
  = Ok (Generated sql (explanation (_analyze_intent query))
          (level (_analyze_safety sql)) (recommendation (_analyze_safety sql))
          (warnings (_analyze_safety sql)) (type (_analyze_intent query))).
Proof.
  unfold process_query. destruct (_load_schema_context self) as [schema self'].
  cbn [fst]. intros -> Hne. destruct sql; [now contradiction Hne | reflexivity].
Qed.

(** C10.  Every input classified as statistics gets the safety level
    "modify", not "safe": the fixed template is a SELECT, so the prefix
    test would accept it, but its column aliases inserts, updates and
    deletes hold INSERT, UPDATE and DELETE once upper-cased, and the
    containment test comes first. *)
Theorem statistics_rated_modify :
  forall (self : t) (query : string),
    type (_analyze_intent query) = "statistics" ->
    fst (process_query self query)
    = Ok (Generated sql_statistics "Show database statistics" "modify"
            (recommendation (_analyze_safety sql_statistics))
            (Some "Ensure you have reviewed the impact of this change.")
            "statistics")
    /\ startswith (strip (upper sql_statistics)) "SELECT" = true
    /\ any_in dangerous_keywords (strip (upper sql_statistics)) = false
    /\ contains "INSERT" (strip (upper sql_statistics)) = true
    /\ contains "UPDATE" (strip (upper sql_statistics)) = true
    /\ contains "DELETE" (strip (upper sql_statistics)) = true.
Proof.
  intros self query Hkind. split; [|repeat split; vm_compute; reflexivity].
  rewrite (process_query_present self query sql_statistics).
  - rewrite (intent_statistics _ Hkind). cbn [explanation type].
    f_equal.
  - apply generate_statistics, Hkind.
  - discriminate.
Qed.

Lemma statistics_rated_modify_witness :
  fst (process_query (init "dvdrental" (Ok [])) "show table stats")
  = Ok (Generated sql_statistics "Show database statistics" "modify"
          (recommendation (_analyze_safety sql_statistics))
          (Some "Ensure you have reviewed the impact of this change.")
          "statistics").
Proof.
  apply (statistics_rated_modify (init "dvdrental" (Ok [])) "show table stats").
  reflexivity.
Defined.

(** C9, as the specification words it, fails: the items of the list are
    not the bare example queries but each of them wrapped in a hint. *)
Lemma suggestions_not_verbatim :
  type (_analyze_intent "drop table actor") = "modification"
  /\ fst (process_query (init "dvdrental" (Ok [])) "drop table actor")
     = Ok (Failure "Could not generate SQL query. Please rephrase your request."
             (_get_suggestions "drop table actor"))
  /\ hd "" (_get_suggestions "drop table actor") = "Try: 'Show all tables'"
  /\ _get_suggestions "drop table actor" <> spec_suggestions.
Proof.
  split; [reflexivity|]. split; [reflexivity|]. split; [reflexivity|].
  discriminate.
Qed.

(** C9, amended.  For every input whose intent is modification the
    failure carries the same eight suggestions, whatever the input: the
    eight example queries of the specification in its order, each wrapped
    as Try: '<example>'. *)
Theorem modification_suggestions :
  forall (self : t) (query : string),
    type (_analyze_intent query) = "modification" ->
    fst (process_query self query)
    = Ok (Failure "Could not generate SQL query. Please rephrase your request."
            (map (fun example => "Try: '" ++ example ++ "'") spec_suggestions))
    /\ List.length (map (fun example => "Try: '" ++ example ++ "'") spec_suggestions) = 8.
Proof.
  intros self query Hkind. split; [|reflexivity].
  rewrite process_query_absent; [reflexivity|].
  apply generate_modification, Hkind.
Qed.

Lemma modification_suggestions_witness :
  fst (process_query (init "dvdrental" (Ok [])) "delete from actor")
  = Ok (Failure "Could not generate SQL query. Please rephrase your request."
          (map (fun example => "Try: '" ++ example ++ "'") spec_suggestions)).
Proof.
  apply (modification_suggestions (init "dvdrental" (Ok [])) "delete from actor").
  reflexivity.
Defined.

(** ** Table-name extraction *)

Lemma in_list_iff (s : string) (xs : list string) :
  in_list s xs = true <-> In s xs.
Proof.
  unfold in_list. rewrite existsb_exists. split.
  - intros [x [Hx Heq]]. apply String.eqb_eq in Heq. now subst.
  - intros H. exists s. split; [assumption | apply String.eqb_refl].
Qed.

Lemma first_table_name_step (pat : Re.pattern) (rest : list Re.pattern)
    (query : string) :
  first_table_name (pat :: rest) query
  = match capture pat query with
    | Some name => if in_list name stop_words
                   then first_table_name rest query else Some name
    | None => first_table_name rest query
    end.
Proof.
  cbn [first_table_name]. unfold capture.
  destruct (Re.search pat query) as [[name|]|]; try reflexivity.
  now destruct (in_list name stop_words).
Qed.

(** The result is the capture of the first pattern, in list order, whose
    capture is not a stop word. *)
Lemma first_table_name_spec (pats : list Re.pattern) (query name : string) :
  first_table_name pats query = Some name <->
  exists i pat,
    nth_error pats i = Some pat
    /\ capture pat query = Some name
    /\ ~ In name stop_words
    /\ forall j pat' name',
         j < i -> nth_error pats j = Some pat' ->
         capture pat' query = Some name' -> In name' stop_words.
Proof.
  induction pats as [|pat rest IH].
  - split; [discriminate|]. intros (i & p & Hn & _). destruct i; discriminate.
  - rewrite first_table_name_step. split.
    + destruct (capture pat query) as [found|] eqn:Hcap.
      * destruct (in_list found stop_words) eqn:Hstop.
        -- intros H. apply IH in H. destruct H as (i & p & Hn & Hc & Hs & Hlt).
           exists (S i), p. repeat split; try assumption.
           intros j p' n' Hj Hnth Hc'. destruct j as [|j].
           ++ cbn in Hnth. injection Hnth as <-. rewrite Hcap in Hc'.
              injection Hc' as <-. now apply in_list_iff.
           ++ apply (Hlt j p' n'); [lia | assumption | assumption].
        -- intros H. injection H as <-. exists 0, pat. repeat split.
           ++ assumption.
           ++ intros Hin. apply in_list_iff in Hin. congruence.
           ++ intros j p' n' Hj. lia.
      * intros H. apply IH in H. destruct H as (i & p & Hn & Hc & Hs & Hlt).
        exists (S i), p. repeat split; try assumption.
        intros j p' n' Hj Hnth Hc'. destruct j as [|j].
        -- cbn in Hnth. injection Hnth as <-. congruence.
        -- apply (Hlt j p' n'); [lia | assumption | assumption].
    + intros (i & p & Hn & Hc & Hs & Hlt). destruct i as [|i].
      * cbn in Hn. injection Hn as <-. rewrite Hc.
        destruct (in_list name stop_words) eqn:Hstop; [|reflexivity].
        apply in_list_iff in Hstop. contradiction.
      * assert (Hrest : first_table_name rest query = Some name).
        { apply IH. exists i, p. repeat split; try assumption.
          intros j p' n' Hj Hnth Hc'.
          apply (Hlt (S j) p' n'); [lia | assumption | assumption]. }
        destruct (capture pat query) as [found|] eqn:Hcap; [|assumption].
        assert (Hin : In found stop_words)
          by (apply (Hlt 0 pat found); [lia | reflexivity | assumption]).
        apply in_list_iff in Hin. now rewrite Hin.
Qed.

(** C8.  On "show columns in customer_orders" the extraction gives
    customer_orders.  In general the patterns are tried in their order:
    the result is the capture of the first pattern whose capture is not
    one of the stop words table, from, in, for, of, the, a, an, so a stop
    word is never returned. *)
Theorem extract_table_name_skips_stop_words :
  _extract_table_name "show columns in customer_orders" = Some "customer_orders"
  /\ (forall query name : string,
        _extract_table_name query = Some name ->
        ~ In name ["table"; "from"; "in"; "for"; "of"; "the"; "a"; "an"])
  /\ (forall query name : string,
        _extract_table_name query = Some name <->
        exists i pat,
          nth_error patterns i = Some pat
          /\ capture pat query = Some name
          /\ ~ In name stop_words
          /\ forall j pat' name',
               j < i -> nth_error patterns j = Some pat' ->
               capture pat' query = Some name' -> In name' stop_words).
Proof.
  split; [vm_compute; reflexivity|]. split.
  - intros query name H. apply first_table_name_spec in H.
    destruct H as (_ & _ & _ & _ & Hs & _). exact Hs.
  - intros query name. apply first_table_name_spec.
Qed.

Lemma extract_table_name_skips_stop_words_witness :
  ~ In "users" ["table"; "from"; "in"; "for"; "of"; "the"; "a"; "an"].
Proof.
  destruct extract_table_name_skips_stop_words as (_ & H & _).
  apply (H "describe users in the" "users"). vm_compute. reflexivity.
Defined.

Example extract_later_pattern_ex :
  capture (nth 0 patterns []) "describe users in the" = Some "the"
  /\ capture (nth 2 patterns []) "describe users in the" = Some "users"
  /\ _extract_table_name "describe users in the" = Some "users".
Proof. repeat split; vm_compute; reflexivity. Qed.

Example extract_nothing_ex :
  _extract_table_name "describe the orders table" = None.
Proof. vm_compute. reflexivity. Qed.

(** ** Table names of a schema summary and the generic SELECT *)

Lemma allb_app (p : ascii -> bool) (a b : string) :
  allb p (a ++ b) = allb p a && allb p b.
Proof.
  induction a as [|c a IH]; [reflexivity|].
  cbn [append allb]. now rewrite IH, andb_assoc.
Qed.

Lemma rstrip_nonspace (s : string) :
  allb (fun c => negb (is_space c)) s = true -> rstrip s = s.
Proof.
  induction s as [|c s IH]; [reflexivity|].
  cbn [allb rstrip]. intros H. apply andb_true_iff in H as [Hc Hs].
  rewrite (IH Hs). destruct s; [|reflexivity].
  apply negb_true_iff in Hc. now rewrite Hc.
Qed.

Lemma strip_token (tok : string) :
  allb (fun c => negb (is_space c)) tok = true -> strip tok = tok.
Proof.
  intros H. unfold strip. destruct tok as [|c tok]; [reflexivity|].
  pose proof H as H'. cbn [allb] in H'. apply andb_true_iff in H' as [Hc _].
  apply negb_true_iff in Hc. cbn [lstrip]. rewrite Hc.
  now apply rstrip_nonspace.
Qed.

(** The tokens of [split()] are not empty and hold no white space. *)
Lemma split_ws_go_tokens (s cur tok : string) :
  allb (fun c => negb (is_space c)) cur = true ->
  In tok (split_ws_go cur s) ->
  tok <> "" /\ allb (fun c => negb (is_space c)) tok = true.
Proof.
  revert cur. induction s as [|c s IH]; intros cur Hcur Hin.
  - cbn [split_ws_go] in Hin. destruct cur; [contradiction|].
    destruct Hin as [<-|[]]. split; [discriminate | assumption].
  - cbn [split_ws_go] in Hin. destruct (is_space c) eqn:Hc.
    + destruct cur as [|x cur].
      * now apply (IH "").
      * destruct Hin as [<-|Hin]; [split; [discriminate | assumption]|].
        now apply (IH "").
    + apply (IH (cur ++ String c "")); [|assumption].
      rewrite allb_app, Hcur. cbn [allb]. now rewrite Hc.
Qed.

Lemma scan_lines_truthy (lines tables found : list string) :
  scan_lines lines tables = Ok found ->
  (forall tb, In tb tables -> tb <> "") ->
  forall tb, In tb found -> tb <> "".
Proof.
  revert tables. induction lines as [|line rest IH]; intros tables Hscan Hacc.
  - cbn in Hscan. injection Hscan as <-. assumption.
  - cbn [scan_lines] in Hscan.
    destruct (contains "Table:" line); [|now apply (IH tables)].
    destruct (1 <? List.length (split line "Table:"))%nat; [|now apply (IH tables)].
    destruct (split_ws (nth 1 (split line "Table:") "")) as [|tok toks] eqn:Htoks;
      [discriminate|].
    apply (IH _ Hscan). intros tb Hin. apply in_app_or in Hin as [Hin|[<-|[]]].
    + now apply Hacc.
    + assert (Htok : In tok (split_ws_go "" (nth 1 (split line "Table:") "")))
        by (unfold split_ws in Htoks; rewrite Htoks; now left).
      apply split_ws_go_tokens in Htok as [Hne Hall]; [|reflexivity].
      now rewrite strip_token.
Qed.

Lemma schema_tables_truthy (schema : string) (tables : list string) :
  _extract_table_names_from_schema schema = Ok tables ->
  forall tb, In tb tables -> truthy tb = true.
Proof.
  intros H tb Hin. unfold _extract_table_names_from_schema in H.
  assert (Hne : tb <> "")
    by (apply (scan_lines_truthy _ _ _ H); [intros ? [] | assumption]).
  destruct tb; [now contradiction Hne | reflexivity].
Qed.

Lemma find_first (A : Type) (f : A -> bool) (pre post : list A) (x : A) :
  (forall u, In u pre -> f u = false) -> f x = true ->
  find f (pre ++ x :: post)%list = Some x.
Proof.
  intros Hpre Hx. induction pre as [|u pre IH]; cbn [app find].
  - now rewrite Hx.
  - rewrite (Hpre u) by now left. apply IH. intros v Hv. apply Hpre. now right.
Qed.

Lemma find_none_iff (A : Type) (f : A -> bool) (l : list A) :
  find f l = None <-> forall u, In u l -> f u = false.
Proof.
  split; [apply find_none|]. induction l as [|u l IH]; intros H; [reflexivity|].
  cbn [find]. rewrite (H u) by now left. apply IH. intros v Hv. apply H. now right.
Qed.

Lemma construct_select_found (query schema name : string) (tables : list string) :
  _extract_table_names_from_schema schema = Ok tables ->
  find (fun tb => contains (lower tb) (lower query)) tables = Some name ->
  exists middle tail,
    _construct_select_query query schema
    = Ok (Some ("SELECT * FROM " ++ name ++ middle ++ tail ++ ";"))
    /\ tail = (if negb (contains "limit" (lower query))
                  && negb (contains "all" (lower query))
               then nl ++ "LIMIT 100" else "").
Proof.
  intros Hs Hf. unfold _construct_select_query. cbv zeta. rewrite Hs.
  cbn [bind]. rewrite Hf.
  assert (Ht : truthy name = true).
  { apply (schema_tables_truthy _ _ Hs). apply find_some in Hf. tauto. }
  rewrite Ht. cbn [negb].
  exists (if any_in ["where"; "with"; "having"] (lower query)
          then nl ++ "-- Add WHERE clause as needed" else "").
  eexists. split; [|reflexivity].
  destruct (any_in _ (lower query));
    destruct (negb (contains "limit" (lower query))
              && negb (contains "all" (lower query)));
    rewrite ?append_assoc, ?append_empty_r; reflexivity.
Qed.

Lemma construct_select_none (query schema : string) (tables : list string) :
  _extract_table_names_from_schema schema = Ok tables ->
  (_construct_select_query query schema = Ok None <->
   forall u, In u tables -> contains (lower u) (lower query) = false).
Proof.
  intros Hs. rewrite <- (find_none_iff _ (fun tb => contains (lower tb) (lower query)) tables).
  destruct (find (fun tb => contains (lower tb) (lower query)) tables) as [name|] eqn:Hf.
  - destruct (construct_select_found _ _ _ _ Hs Hf) as (middle & tail & -> & _).
    split; discriminate.
  - unfold _construct_select_query. cbv zeta. rewrite Hs. cbn [bind].
    rewrite Hf. split; reflexivity.
Qed.

Lemma generate_data_query (query schema : string) (intent : Intent) :
  type intent = "data_query" ->
  _generate_sql query intent schema = _construct_select_query query schema.
Proof. intros H. unfold _generate_sql. rewrite H. reflexivity. Qed.

(** C5.  The agent's schema context is the compact summary, and no line
    of the summary of a database with the tables customers and orders
    holds the marker [Table:] the lookup reads (the line of the full
    summary starts with TABLE: in capitals).  The lookup therefore lists
    no table, and the data query "show me customers" gets no SQL and is
    answered with a failure, where SELECT * FROM customers with LIMIT 100
    is specified.  On the two lines Table: customers and Table: orders
    the same code gives the specified statement. *)
Theorem data_query_misses_listed_table :
  let summary :=
    "Database 'shop' - 2 tables:" ++ nl
    ++ "  • customers: id:int [PK], name:text" ++ nl
    ++ "  • orders: id:int [PK], customer_id:int [FK→customers]" in
  let query := "show me customers" in
  SchemaExtractor.extract_schema_compact
    (schema_extractor (init "shop" (Ok customers_orders_catalog)))
  = Ok summary
  /\ fst (_load_schema_context (init "shop" (Ok customers_orders_catalog))) = summary
  /\ type (_analyze_intent query) = "data_query"
  /\ contains "limit" (lower query) = false
  /\ contains "all" (lower query) = false
  /\ _extract_table_names_from_schema summary = Ok []
  /\ _extract_table_names_from_schema
       (SchemaExtractor.schema_text "shop" customers_orders_catalog) = Ok []
  /\ _generate_sql query (_analyze_intent query) summary = Ok None
  /\ fst (process_query (init "shop" (Ok customers_orders_catalog)) query)
     = Ok (Failure "Could not generate SQL query. Please rephrase your request."
             (_get_suggestions query))
  /\ _extract_table_names_from_schema ("Table: customers" ++ nl ++ "Table: orders")
     = Ok ["customers"; "orders"]
  /\ _generate_sql query (_analyze_intent query)
       ("Table: customers" ++ nl ++ "Table: orders")
     = Ok (Some ("SELECT * FROM customers" ++ nl ++ "LIMIT 100;")).
Proof. cbv zeta. repeat split; vm_compute; reflexivity. Qed.

Example data_query_all_omits_limit_ex :
  _construct_select_query "show all customers"
    ("Table: customers" ++ nl ++ "Table: orders")
  = Ok (Some "SELECT * FROM customers;").
Proof. reflexivity. Qed.

(** ** When synthesis is absent *)

Ltac other_kind :=
  let H := fresh in
  intros [H|[H|[[H _]|[H _]]]]; discriminate H.

Ltac fixed_template Hk :=
  unfold _generate_sql; rewrite Hk; cbn [String.eqb Ascii.eqb Bool.eqb];
  split; [split; [discriminate | other_kind]
         | right; eexists; split; [|reflexivity]; discriminate].

Lemma describe_template_nonempty (tb : string) : sql_describe_table tb <> "".
Proof. unfold sql_describe_table. cbn [append]. discriminate. Qed.

Lemma generate_cases (query schema : string) (intent : Intent) (tables : list string) :
  In (type intent) intent_kinds ->
  (type intent = "data_query" ->
   _extract_table_names_from_schema schema = Ok tables) ->
  (_generate_sql query intent schema = Ok None <->
     type intent = "modification" \/ type intent = "unknown"
     \/ (type intent = "describe_table"
         /\ truthy_opt (or_else (table intent) (_extract_table_name (lower query))) = false)
     \/ (type intent = "data_query"
         /\ forall u, In u tables -> contains (lower u) (lower query) = false))
  /\ (_generate_sql query intent schema = Ok None
      \/ exists sql, sql <> "" /\ _generate_sql query intent schema = Ok (Some sql)).
Proof.
  intros Hkind Hs. unfold intent_kinds in Hkind. cbn [In] in Hkind.
  destruct Hkind as [Hk|[Hk|[Hk|[Hk|[Hk|[Hk|[Hk|[Hk|[Hk|[Hk|[Hk|[Hk|[Hk|[]]]]]]]]]]]]]];
    symmetry in Hk.
  - fixed_template Hk.
  - unfold _generate_sql. rewrite Hk. cbn [String.eqb Ascii.eqb Bool.eqb].
    destruct (or_else (table intent) (_extract_table_name (lower query))) as [tb|];
      cbn [truthy_opt].
    + destruct (truthy tb).
      * split; [split; [discriminate|]|].
        -- intros [H|[H|[[_ H]|[H _]]]]; discriminate H.
        -- right. eexists. split; [|reflexivity]. apply describe_template_nonempty.
      * split; [split; [|reflexivity]|now left]. intros _. right. right. left. now split.
    + split; [split; [|reflexivity]|now left]. intros _. right. right. left. now split.
  - fixed_template Hk.
  - fixed_template Hk.
  - fixed_template Hk.
  - fixed_template Hk.
  - fixed_template Hk.
  - fixed_template Hk.
  - fixed_template Hk.
  - fixed_template Hk.
  - specialize (Hs Hk). rewrite (generate_data_query _ _ _ Hk).
    pose proof (construct_select_none query schema tables Hs) as Hnone.
    split.
    + rewrite Hnone. split.
      * intros H. right. right. right. now split.
      * intros [H|[H|[[H _]|[_ H]]]]; try (rewrite Hk in H; discriminate H). exact H.
    + destruct (find (fun tb => contains (lower tb) (lower query)) tables)
        as [name|] eqn:Hf.
      * destruct (construct_select_found _ _ _ _ Hs Hf) as (middle & tail & Heq & _).
        right. eexists. split; [|exact Heq]. cbn [append]. discriminate.
      * left. apply Hnone. now apply find_none_iff.
  - unfold _generate_sql. rewrite Hk. cbn [String.eqb Ascii.eqb Bool.eqb].
    split; [split; [now left | reflexivity] | now left].
  - unfold _generate_sql. rewrite Hk. cbn [String.eqb Ascii.eqb Bool.eqb].
    split; [split; [intros _; right; now left | reflexivity] | now left].
Qed.

(** C7, as the specification words it, fails: the intent describe_table
    does not always yield SQL.  When no table name can be extracted the
    template is not filled and synthesis is absent. *)
Lemma describe_without_table_absent :
  type (_analyze_intent "describe the orders table") = "describe_table"
  /\ table (_analyze_intent "describe the orders table") = None
  /\ _generate_sql "describe the orders table"
       (_analyze_intent "describe the orders table") "" = Ok None
  /\ fst (process_query (init "dvdrental" (Ok [])) "describe the orders table")
     = Ok (Failure "Could not generate SQL query. Please rephrase your request."
             (_get_suggestions "describe the orders table")).
Proof. repeat split; vm_compute; reflexivity. Qed.

(** C7, amended.  Synthesis is absent exactly for the intents
    modification and unknown, for describe_table when neither the intent
    nor the query gives a table name, and for data_query when no listed
    table occurs in the query; in every other case it is a non-empty SQL
    string.  Absence is reported as a failure with the suggestions, a
    string as a generated answer, and nothing is raised.  For data_query
    this is stated over the schema summaries whose table names can be
    read. *)
Theorem synthesis_absent_cases :
  forall (query schema : string) (intent : Intent) (tables : list string),
    In (type intent) intent_kinds ->
    (type intent = "data_query" ->
     _extract_table_names_from_schema schema = Ok tables) ->
    (_generate_sql query intent schema = Ok None <->
       type intent = "modification" \/ type intent = "unknown"
       \/ (type intent = "describe_table"
           /\ truthy_opt (or_else (table intent) (_extract_table_name (lower query))) = false)
       \/ (type intent = "data_query"
           /\ forall u, In u tables -> contains (lower u) (lower query) = false))
    /\ (_generate_sql query intent schema = Ok None
        \/ exists sql, sql <> "" /\ _generate_sql query intent schema = Ok (Some sql))
    /\ (forall self : t,
          fst (_load_schema_context self) = schema ->
          intent = _analyze_intent query ->
          (_generate_sql query intent schema = Ok None
           /\ fst (process_query self query)
              = Ok (Failure "Could not generate SQL query. Please rephrase your request."
                      (_get_suggestions query)))
          \/ (exists sql,
                sql <> ""
                /\ _generate_sql query intent schema = Ok (Some sql)
                /\ fst (process_query self query)
                   = Ok (Generated sql (explanation intent)
                           (level (_analyze_safety sql))
                           (recommendation (_analyze_safety sql))
                           (warnings (_analyze_safety sql)) (type intent)))).
Proof.
  intros query schema intent tables Hkind Hs.
  destruct (generate_cases query schema intent tables Hkind Hs) as [Hiff Hor].
  split; [exact Hiff|]. split; [exact Hor|].
  intros self <- ->. destruct Hor as [Hnone|(sql & Hne & Hsome)].
  - left. split; [exact Hnone|]. now apply process_query_absent.
  - right. exists sql. split; [exact Hne|]. split; [exact Hsome|].
    now apply process_query_present.
Qed.

Lemma synthesis_absent_cases_witness :
  _generate_sql "describe the orders table"
    (_analyze_intent "describe the orders table") "" = Ok None.
Proof.
  destruct (synthesis_absent_cases "describe the orders table" ""
              (_analyze_intent "describe the orders table") [])
    as (H & _ & _).
  - apply intent_kind_listed.
  - intros _. reflexivity.
  - apply H. right. right. left. split; vm_compute; reflexivity.
Defined.

(** ** The execution gate *)

Lemma executor_sends_first (w : Main.Collaborators) (remaining : nat) :
  forall (sql : string) (sent : Main.Sent),
  exists result later,
    Main.executor_execute w remaining sql sent
    = (result, (sent ++ sql :: later)%list).
Proof.
  induction remaining as [|k IH]; intros sql sent.
  - cbn [Main.executor_execute Main.handler_execute].
    destruct (Main.db_answer w sent sql); eexists; exists []; reflexivity.
  - cbn [Main.executor_execute Main.handler_execute].
    destruct (Main.db_answer w sent sql) as [payload|error];
      [eexists; exists []; reflexivity|].
    destruct (Main.fixed_sql w sql error) as [fixed|];
      [|eexists; exists []; reflexivity].
    destruct (truthy fixed); [|eexists; exists []; reflexivity].
    destruct (IH fixed (sent ++ [sql])%list) as (result & later & ->).
    exists result, (fixed :: later). now rewrite <- app_assoc.
Qed.

(** C1, as the specification words it, fails for the smart-admin
    endpoint: its request has no confirmation field, and a statement sent
    to it reaches the database. *)
Lemma smart_execute_runs_unconfirmed :
  Main.smart_admin_execute accepting
    {| Main.admin_db_name := "dvdrental"; Main.admin_sql := "DROP TABLE actor;" |} []
  = (Main.Returned (Main.DbSuccess "done"), ["DROP TABLE actor;"]).
Proof. reflexivity. Qed.

(** C1, amended.  The endpoint /query/execute refuses with status 400,
    and hands nothing to the database, unless the request's confirm flag
    is set; on confirmation, once the schema is loaded, the statement is
    the first thing handed to the database.  The smart-admin endpoint
    /admin/smart/execute takes no confirmation flag: it hands every
    statement it receives to the database and returns the answer;
    confirmation is left to its caller. *)
Theorem execution_gate :
  forall (w : Main.Collaborators) (sent : Main.Sent),
    (forall request : Main.SQLExecutionRequest,
       Main.confirm request = false ->
       Main.execute_sql w request sent
       = (Main.HTTPException 400 "Execution requires confirmation", sent))
    /\ (forall (request : Main.SQLExecutionRequest) (schema : string),
          Main.confirm request = true ->
          Main.get_schema w (Main.db_name request) = Ok schema ->
          exists result later,
            Main.execute_sql w request sent
            = (Main.Returned result, (sent ++ Main.sql request :: later)%list))
    /\ (forall request : Main.SQLExecutionRequest,
          snd (Main.execute_sql w request sent) <> sent ->
          Main.confirm request = true)
    /\ (forall request : Main.SmartAdminExecuteRequest,
          Main.smart_admin_execute w request sent
          = (Main.Returned (Main.db_answer w sent (Main.admin_sql request)),
             (sent ++ [Main.admin_sql request])%list)).
Proof.
  intros w sent. split; [|split; [|split]].
  - intros request H. unfold Main.execute_sql. now rewrite H.
  - intros request schema Hc Hs. unfold Main.execute_sql. rewrite Hc, Hs.
    cbn [negb].
    destruct (executor_sends_first w (Z.to_nat (Main.MAX_RETRY_ATTEMPTS w))
                (Main.sql request) sent) as (result & later & ->).
    now exists result, later.
  - intros request H. destruct (Main.confirm request) eqn:Hc; [reflexivity|].
    unfold Main.execute_sql in H. rewrite Hc in H. now contradiction H.
  - intros request. reflexivity.
Qed.

Lemma execution_gate_witness :
  Main.execute_sql accepting
    {| Main.db_name := "dvdrental"; Main.sql := "DROP TABLE actor;";
       Main.confirm := false |} []
  = (Main.HTTPException 400 "Execution requires confirmation", []).
Proof.
  destruct (execution_gate accepting []) as (H & _).
  apply H. reflexivity.
Defined.

Example confirmed_execution_ex :
  Main.execute_sql accepting
    {| Main.db_name := "dvdrental"; Main.sql := "SELECT 1;";
       Main.confirm := true |} []
  = (Main.Returned (Main.ExecSuccess "done"), ["SELECT 1;"]).
Proof. reflexivity. Qed.

(** ** Schema summaries of the extractor and the table-name lookup *)

Lemma no_T_app (a b : string) : no_T (a ++ b) = no_T a && no_T b.
Proof. apply allb_app. Qed.

Lemma allb_rev_str (p : ascii -> bool) (s : string) :
  allb p (rev_str s) = allb p s.
Proof.
  induction s as [|c s IH]; [reflexivity|].
  cbn [rev_str]. rewrite allb_app, IH. cbn [allb].
  now rewrite andb_true_r, andb_comm.
Qed.

Lemma allb_commas_rev (p : ascii -> bool) (s : string) :
  p ","%char = true -> allb p s = true -> forall k, allb p (commas_rev k s) = true.
Proof.
  intros Hcomma. induction s as [|c s IH]; intros Hs k; [reflexivity|].
  cbn [allb] in Hs. apply andb_true_iff in Hs as [Hc Hs].
  cbn [commas_rev]. destruct (k =? 3)%nat; cbn [allb];
    rewrite ?Hcomma, Hc, (IH Hs); reflexivity.
Qed.

Lemma no_T_uint (d : Decimal.uint) : no_T (NilEmpty.string_of_uint d) = true.
Proof. induction d; cbn [NilEmpty.string_of_uint]; try reflexivity; exact IHd. Qed.

Lemma no_T_str_of_nat (n : nat) : no_T (str_of_nat n) = true.
Proof. apply no_T_uint. Qed.

Lemma no_T_str_of_Z (z : Z) : no_T (str_of_Z z) = true.
Proof.
  unfold str_of_Z, NilEmpty.string_of_int.
  destruct (Z.to_int z); [apply no_T_uint|].
  change (no_T ("-" ++ NilEmpty.string_of_uint d) = true).
  rewrite no_T_app, no_T_uint. reflexivity.
Qed.

Lemma no_T_str_of_Z_commas (z : Z) : no_T (str_of_Z_commas z) = true.
Proof.
  unfold str_of_Z_commas, no_T. rewrite allb_rev_str.
  apply allb_commas_rev; [reflexivity|].
  rewrite allb_rev_str. apply no_T_str_of_Z.
Qed.

Lemma no_T_join (sep : string) (xs : list string) :
  no_T sep = true -> forallb no_T xs = true -> no_T (join sep xs) = true.
Proof.
  intros Hsep. induction xs as [|x xs IH]; intros H; [reflexivity|].
  cbn [forallb] in H. apply andb_true_iff in H as [Hx Hxs].
  cbn [join]. destruct xs as [|y ys]; [exact Hx|].
  rewrite !no_T_app, Hx, Hsep. apply (IH Hxs).
Qed.

(** Every piece of a split of a text without capital T is without
    capital T. *)
Lemma no_T_split_go (sep : string) (s : string) :
  forall (skip : nat) (cur : string),
    no_T cur = true -> no_T s = true ->
    forallb no_T (split_go sep skip cur s) = true.
Proof.
  induction s as [|c s IH]; intros skip cur Hcur Hs.
  - cbn [split_go forallb]. now rewrite Hcur.
  - unfold no_T in Hs. cbn [allb] in Hs. apply andb_true_iff in Hs as [Hc Hs].
    cbn [split_go]. destruct skip as [|k].
    + destruct (String.prefix sep (String c s)).
      * cbn [forallb]. rewrite Hcur. now apply IH.
      * apply IH; [|exact Hs]. rewrite no_T_app, Hcur. unfold no_T. cbn [allb].
        now rewrite Hc.
    + now apply IH.
Qed.

Lemma no_T_quiet (s : string) : no_T s = true -> quiet s = true.
Proof.
  induction s as [|c s IH]; [reflexivity|].
  unfold no_T. cbn [allb quiet]. intros H. apply andb_true_iff in H as [Hc Hs].
  apply negb_true_iff in Hc. rewrite Hc. now apply IH.
Qed.

Lemma quiet_tail (c : ascii) (s : string) : quiet (String c s) = true -> quiet s = true.
Proof.
  cbn [quiet]. destruct (Ascii.eqb c "T"); [|trivial].
  destruct s; [discriminate|]. intros H. now apply andb_true_iff in H as [_ H].
Qed.

Lemma quiet_app (a b : string) :
  quiet a = true -> quiet b = true -> quiet (a ++ b) = true.
Proof.
  intros Ha Hb. induction a as [|c a IH]; [exact Hb|].
  pose proof (quiet_tail _ _ Ha) as Ha'. specialize (IH Ha').
  cbn [append quiet] in *. destruct (Ascii.eqb c "T"); [|exact IH].
  destruct a as [|d a]; [discriminate|].
  cbn [append] in *. apply andb_true_iff in Ha as [Hd _]. now rewrite Hd.
Qed.

Lemma quiet_join (sep : string) (xs : list string) :
  quiet sep = true -> forallb quiet xs = true -> quiet (join sep xs) = true.
Proof.
  intros Hsep. induction xs as [|x xs IH]; intros H; [reflexivity|].
  cbn [forallb] in H. apply andb_true_iff in H as [Hx Hxs].
  cbn [join]. destruct xs as [|y ys]; [exact Hx|].
  apply quiet_app; [exact Hx|]. apply quiet_app; [exact Hsep|]. apply (IH Hxs).
Qed.

Lemma quiet_no_table (s : string) : quiet s = true -> contains "Table:" s = false.
Proof.
  induction s as [|c s IH]; [reflexivity|].
  intros H. cbn [contains]. rewrite (IH (quiet_tail _ _ H)), orb_false_r.
  rewrite prefix_cons. destruct (Ascii.eqb "T" c) eqn:Hc; [|reflexivity].
  apply Ascii.eqb_eq in Hc. subst c. cbn [quiet] in H.
  rewrite Ascii.eqb_refl in H. destruct s as [|d s]; [discriminate|].
  rewrite prefix_cons. apply andb_true_iff in H as [Hd _].
  apply negb_true_iff in Hd. rewrite Ascii.eqb_sym in Hd. now rewrite Hd.
Qed.

(** A line of a text holds only what the text holds. *)
Lemma split_line_contains (p sep : string) (s : string) :
  String.length sep = 1 ->
  forall (cur line : string),
    In line (split_go sep 0 cur s) ->
    contains p line = true -> contains p (cur ++ s) = true.
Proof.
  intros Hsep. induction s as [|c s IH]; intros cur line Hin Hp.
  - cbn [split_go] in Hin. destruct Hin as [<-|[]]. now rewrite append_empty_r.
  - cbn [split_go] in Hin. rewrite Hsep in Hin. cbn [Nat.sub] in Hin.
    destruct (String.prefix sep (String c s)).
    + destruct Hin as [<-|Hin]; [now apply contains_app_l|].
      apply contains_app_r. cbn [contains]. apply orb_true_iff. right.
      apply (IH "" line Hin Hp).
    + specialize (IH _ _ Hin Hp). now rewrite append_assoc in IH.
Qed.

Lemma scan_lines_without_marker (lines tables : list string) :
  (forall line, In line lines -> contains "Table:" line = false) ->
  scan_lines lines tables = Ok tables.
Proof.
  induction lines as [|line rest IH]; intros H; [reflexivity|].
  cbn [scan_lines]. rewrite (H line) by now left.
  apply IH. intros l Hl. apply H. now right.
Qed.

Lemma no_marker_no_tables (schema : string) :
  contains "Table:" schema = false ->
  _extract_table_names_from_schema schema = Ok [].
Proof.
  intros H. unfold _extract_table_names_from_schema.
  apply scan_lines_without_marker. intros line Hin.
  destruct (contains "Table:" line) eqn:Hl; [|reflexivity].
  rewrite <- H. symmetry.
  apply (split_line_contains "Table:" nl schema eq_refl "" line Hin Hl).
Qed.

Lemma split_go_nonempty (sep : string) (s : string) :
  forall (skip : nat) (cur : string), split_go sep skip cur s <> [].
Proof.
  induction s as [|c s IH]; intros skip cur; cbn [split_go]; [discriminate|].
  destruct skip; [|apply IH]. destruct (String.prefix sep (String c s));
    [discriminate | apply IH].
Qed.

Lemma split_has_two_parts (sep s : string) :
  sep <> "" -> contains sep s = true ->
  forall cur, (1 <? List.length (split_go sep 0 cur s))%nat = true.
Proof.
  intros Hsep. induction s as [|c s IH]; intros H cur.
  - cbn in H. rewrite orb_false_r in H. destruct sep; [now contradiction Hsep | discriminate].
  - cbn [contains] in H. cbn [split_go].
    destruct (String.prefix sep (String c s)) eqn:Hp.
    + cbn [List.length].
      pose proof (split_go_nonempty sep s (String.length sep - 1) "") as Hne.
      destruct (split_go sep (String.length sep - 1) "" s); [now contradiction Hne|].
      reflexivity.
    + cbn [orb] in H. now apply IH.
Qed.

(** Every line with a marker adds one name, unless the lookup raises. *)
Lemma scan_lines_length (lines : list string) :
  forall tables found,
    scan_lines lines tables = Ok found ->
    List.length found
    = (List.length tables
       + List.length (filter (fun line => contains "Table:" line) lines))%nat.
Proof.
  induction lines as [|line rest IH]; intros tables found H.
  - cbn in H. injection H as <-. cbn. lia.
  - cbn [scan_lines filter] in *. destruct (contains "Table:" line) eqn:Hmark.
    + pose proof (split_has_two_parts "Table:" line ltac:(discriminate) Hmark "") as Hlen.
      change (split_go "Table:" 0 "" line) with (split line "Table:") in Hlen.
      rewrite Hlen in H.
      destruct (split_ws (nth 1 (split line "Table:") "")) as [|tok toks];
        [discriminate|].
      rewrite (IH _ _ H), length_app. cbn [List.length]. lia.
    + apply (IH _ _ H).
Qed.

(** The lookup returns the empty list exactly on the texts none of whose
    lines holds the marker. *)
Lemma lookup_empty_iff (schema : string) :
  _extract_table_names_from_schema schema = Ok [] <-> unmarked schema = true.
Proof.
  unfold _extract_table_names_from_schema, unmarked. split.
  - intros H. apply scan_lines_length in H. cbn [List.length] in H.
    apply forallb_forall. intros line Hin.
    destruct (contains "Table:" line) eqn:Hmark; [|reflexivity].
    assert (Hf : In line (filter (fun l => contains "Table:" l) (split schema nl)))
      by (apply filter_In; now split).
    destruct (filter _ (split schema nl)); [contradiction | discriminate].
  - intros H. apply scan_lines_without_marker. intros line Hin.
    rewrite forallb_forall in H. now apply negb_true_iff, H.
Qed.

(** A text that holds no marker has no line that does. *)
Lemma no_marker_unmarked (schema : string) :
  contains "Table:" schema = false -> unmarked schema = true.
Proof.
  intros H. now apply lookup_empty_iff, no_marker_no_tables.
Qed.

Ltac no_T_pieces :=
  rewrite ?no_T_app;
  repeat (apply andb_true_intro; split);
  try reflexivity; try assumption;
  auto using no_T_str_of_nat, no_T_str_of_Z, no_T_str_of_Z_commas.

Lemma no_T_type_mapping (dtype : string) :
  no_T dtype = true -> no_T (SchemaExtractor.type_mapping dtype) = true.
Proof.
  intros H. unfold SchemaExtractor.type_mapping.
  repeat match goal with
         | |- context [if String.eqb ?a ?b then _ else _] =>
             destruct (String.eqb a b); [reflexivity|]
         end.
  exact H.
Qed.

Lemma no_T_format_data_type (col : SchemaExtractor.Column) :
  no_T (SchemaExtractor.data_type col) = true ->
  no_T (SchemaExtractor.format_data_type col) = true.
Proof.
  intros H. apply no_T_type_mapping in H. unfold SchemaExtractor.format_data_type.
  cbv zeta.
  destruct (SchemaExtractor.truthy_Z (SchemaExtractor.max_length col));
    [no_T_pieces|].
  destruct (SchemaExtractor.truthy_Z (SchemaExtractor.precision col));
    [|exact H].
  destruct (SchemaExtractor.truthy_Z (SchemaExtractor.scale col)); no_T_pieces.
Qed.

Lemma no_T_bracketed (sep : string) (items : list string) :
  no_T sep = true -> forallb no_T items = true ->
  no_T (SchemaExtractor.bracketed sep items) = true.
Proof.
  intros Hsep Hitems. unfold SchemaExtractor.bracketed.
  destruct items as [|x xs]; [reflexivity|].
  no_T_pieces. now apply no_T_join.
Qed.

Lemma plain_column_parts (col : SchemaExtractor.Column) :
  plain_column col = true ->
  no_T (SchemaExtractor.name col) = true
  /\ no_T (SchemaExtractor.data_type col) = true
  /\ no_T_opt (SchemaExtractor.default col) = true
  /\ match SchemaExtractor.foreign_key col with
     | Some fk => no_T (SchemaExtractor.references fk) = true
     | None => True
     end.
Proof.
  unfold plain_column. intros H.
  apply andb_true_iff in H as [H Hfk]. apply andb_true_iff in H as [H Hd].
  apply andb_true_iff in H as [Hn Ht]. repeat split; try assumption.
  destruct (SchemaExtractor.foreign_key col) as [[ref_table ref_col]|]; [|exact I].
  apply andb_true_iff in Hfk as [H1 H2].
  unfold SchemaExtractor.references. cbn [fst snd]. no_T_pieces.
Qed.

Lemma no_T_compact_column (col : SchemaExtractor.Column) :
  plain_column col = true -> no_T (SchemaExtractor.compact_column col) = true.
Proof.
  intros H. destruct (plain_column_parts col H) as (Hn & Ht & _ & Hfk).
  unfold SchemaExtractor.compact_column. cbv zeta.
  rewrite !no_T_app, Hn, (no_T_format_data_type col Ht). cbn [andb no_T allb].
  apply no_T_bracketed; [reflexivity|].
  rewrite forallb_app. apply andb_true_intro. split.
  - destruct (SchemaExtractor.is_primary_key col); reflexivity.
  - destruct (SchemaExtractor.foreign_key col) as [fk|]; [|reflexivity].
    cbn [forallb]. rewrite andb_true_r, no_T_app.
    apply andb_true_intro. split; [reflexivity|].
    pose proof (no_T_split_go "." (SchemaExtractor.references fk) 0 "" eq_refl Hfk) as Hs.
    unfold split. destruct (split_go "." 0 "" (SchemaExtractor.references fk));
      [reflexivity|].
    cbn [forallb hd] in *. now apply andb_true_iff in Hs as [Hs _].
Qed.

Lemma forallb_map_in (A B : Type) (p : B -> bool) (f : A -> B) (l : list A) :
  (forall x, In x l -> p (f x) = true) -> forallb p (map f l) = true.
Proof.
  induction l as [|x l IH]; intros H; [reflexivity|].
  cbn [map forallb]. rewrite (H x) by now left.
  apply IH. intros y Hy. apply H. now right.
Qed.

Lemma no_T_compact_table_line (details : SchemaExtractor.TableDetails) :
  plain_table details = true ->
  no_T (SchemaExtractor.compact_table_line details) = true.
Proof.
  unfold plain_table. intros H. apply andb_true_iff in H as [H _].
  apply andb_true_iff in H as [Hn Hcols].
  unfold SchemaExtractor.compact_table_line. no_T_pieces.
  apply no_T_join; [reflexivity|]. apply forallb_map_in.
  rewrite forallb_forall in Hcols. intros col Hin. apply no_T_compact_column.
  now apply Hcols.
Qed.

Lemma no_T_compact_text (db : string) (tables : list SchemaExtractor.TableDetails) :
  no_T db = true -> forallb plain_table tables = true ->
  no_T (SchemaExtractor.compact_text db tables) = true.
Proof.
  intros Hdb Htables. unfold SchemaExtractor.compact_text.
  destruct tables as [|tb tbs]; [no_T_pieces|].
  apply no_T_join; [reflexivity|]. cbn [forallb]. apply andb_true_intro. split.
  - no_T_pieces.
  - apply forallb_map_in. rewrite forallb_forall in Htables. intros d Hin.
    apply no_T_compact_table_line. now apply Htables.
Qed.

Ltac split_andb :=
  repeat match goal with
         | |- (_ && _)%bool = true => apply andb_true_intro; split
         end.

Ltac quiet_pieces :=
  repeat apply quiet_app;
  try reflexivity;
  try solve [apply no_T_quiet;
             auto using no_T_str_of_nat, no_T_str_of_Z, no_T_str_of_Z_commas].

Lemma forallb_flat_map_in (A B : Type) (p : B -> bool) (f : A -> list B) (l : list A) :
  (forall x, In x l -> forallb p (f x) = true) -> forallb p (flat_map f l) = true.
Proof.
  induction l as [|x l IH]; intros H; [reflexivity|].
  cbn [flat_map]. rewrite forallb_app, (H x) by now left.
  apply IH. intros y Hy. apply H. now right.
Qed.

Lemma quiet_bracketed (sep : string) (items : list string) :
  quiet sep = true -> forallb quiet items = true ->
  quiet (SchemaExtractor.bracketed sep items) = true.
Proof.
  intros Hsep Hitems. unfold SchemaExtractor.bracketed.
  destruct items as [|x xs]; [reflexivity|].
  quiet_pieces. now apply quiet_join.
Qed.

Lemma quiet_column_line (col : SchemaExtractor.Column) :
  plain_column col = true -> quiet (SchemaExtractor.column_line col) = true.
Proof.
  intros H. destruct (plain_column_parts col H) as (Hn & Ht & Hd & Hfk).
  pose proof (no_T_format_data_type col Ht) as Hf.
  unfold SchemaExtractor.column_line. cbv zeta. quiet_pieces.
  - destruct (SchemaExtractor.nullable col); reflexivity.
  - destruct (SchemaExtractor.default col) as [d|]; [|reflexivity].
    destruct (truthy d); [|reflexivity]. quiet_pieces.
  - apply quiet_bracketed; [reflexivity|].
    rewrite !forallb_app. split_andb.
    + destruct (SchemaExtractor.is_primary_key col); reflexivity.
    + destruct (SchemaExtractor.foreign_key col) as [fk|]; [|reflexivity].
      cbn [forallb]. rewrite andb_true_r.
      apply quiet_app; [reflexivity | exact (no_T_quiet _ Hfk)].
    + destruct (SchemaExtractor.is_unique col && negb (SchemaExtractor.is_primary_key col));
        reflexivity.
Qed.

Lemma quiet_index_line (idx : SchemaExtractor.Index) :
  plain_index idx = true -> quiet (SchemaExtractor.index_line idx) = true.
Proof.
  unfold plain_index. intros H. apply andb_true_iff in H as [H Ht].
  apply andb_true_iff in H as [Hn Hcols].
  unfold SchemaExtractor.index_line. cbv zeta. quiet_pieces.
  - destruct (SchemaExtractor.unique idx); reflexivity.
  - apply no_T_quiet. now apply no_T_join.
Qed.

Lemma quiet_repeat_char (c : ascii) (n : nat) :
  Ascii.eqb c "T" = false -> quiet (repeat_char c n) = true.
Proof.
  intros Hc. induction n as [|n IH]; [reflexivity|].
  cbn [repeat_char quiet]. now rewrite Hc.
Qed.

Lemma quiet_table_block (details : SchemaExtractor.TableDetails) :
  plain_table details = true ->
  forallb quiet (SchemaExtractor.table_block details) = true.
Proof.
  unfold plain_table. intros H. apply andb_true_iff in H as [H Hidx].
  apply andb_true_iff in H as [Hn Hcols].
  rewrite forallb_forall in Hcols, Hidx.
  unfold SchemaExtractor.table_block. cbv zeta.
  rewrite !forallb_app. split_andb.
  - cbn [forallb]. rewrite andb_true_r. quiet_pieces.
  - destruct (0 <? SchemaExtractor.row_count details)%Z; [|reflexivity].
    cbn [forallb]. rewrite andb_true_r. quiet_pieces.
  - cbn [forallb]. rewrite (quiet_repeat_char "-" 80 eq_refl). reflexivity.
  - apply forallb_map_in. intros col Hin. apply quiet_column_line. now apply Hcols.
  - destruct (filter (fun idx => negb (SchemaExtractor.primary idx))
                (SchemaExtractor.indexes details)) as [|i0 is0] eqn:Hfilter;
      [reflexivity|].
    rewrite forallb_app. apply andb_true_intro. split; [reflexivity|].
    apply forallb_map_in. intros idx Hin. apply quiet_index_line. apply Hidx.
    rewrite <- Hfilter in Hin. apply filter_In in Hin. tauto.
  - reflexivity.
Qed.

Lemma quiet_schema_text (db : string) (tables : list SchemaExtractor.TableDetails) :
  no_T db = true -> forallb plain_table tables = true ->
  quiet (SchemaExtractor.schema_text db tables) = true.
Proof.
  intros Hdb Htables. unfold SchemaExtractor.schema_text.
  destruct tables as [|tb tbs]; [quiet_pieces|].
  apply quiet_join; [reflexivity|].
  rewrite forallb_app. apply andb_true_intro. split.
  - cbn [forallb]. rewrite (quiet_repeat_char "=" 80 eq_refl).
    split_andb; try reflexivity; quiet_pieces.
  - apply forallb_flat_map_in. rewrite forallb_forall in Htables.
    intros d Hin. apply quiet_table_block. now apply Htables.
Qed.

Lemma load_schema_fresh (db : string)
    (catalog : res (list SchemaExtractor.TableDetails)) :
  fst (_load_schema_context (init db catalog))
  = match catalog with
    | Ok tables => SchemaExtractor.compact_text db tables
    | Raise _ => "Schema unavailable"
    end.
Proof. destruct catalog; reflexivity. Qed.

(** C4, as stated, fails: a table whose name ends in Table puts the
    marker [Table:] into its line of the compact summary, the lookup then
    takes the first column description for a table name, and a data query
    naming it succeeds. *)
Lemma lookup_finds_marker_in_compact_schema :
  SchemaExtractor.extract_schema_compact
    (schema_extractor (init "shop" (Ok user_table_catalog)))
  = Ok ("Database 'shop' - 1 tables:" ++ nl ++ "  • UserTable: name:text")
  /\ _extract_table_names_from_schema
       ("Database 'shop' - 1 tables:" ++ nl ++ "  • UserTable: name:text")
     = Ok ["name:text"]
  /\ type (_analyze_intent "show me name:text") = "data_query"
  /\ fst (process_query (init "shop" (Ok user_table_catalog)) "show me name:text")
     = Ok (Generated ("SELECT * FROM name:text" ++ nl ++ "LIMIT 100;")
             "Retrieve data from database" "safe"
             (recommendation (_analyze_safety "SELECT 1"))
             None "data_query").
Proof. repeat split; vm_compute; reflexivity. Qed.

(** A sufficient condition on the catalogue: when no name of the
    database holds a capital T, neither summary has a marked line. *)
Lemma plain_database_unmarked (db : string)
    (tables : list SchemaExtractor.TableDetails) :
  plain_database db (Ok tables) = true ->
  unmarked (SchemaExtractor.compact_text db tables) = true
  /\ unmarked (SchemaExtractor.schema_text db tables) = true.
Proof.
  unfold plain_database. intros Hplain.
  apply andb_true_iff in Hplain as [Hdb Hcat].
  split; apply no_marker_unmarked, quiet_no_table.
  - apply no_T_quiet. now apply no_T_compact_text.
  - now apply quiet_schema_text.
Qed.

(** C4, amended.  On the summaries of both extractors the table-name
    lookup returns the empty list exactly when no line of the summary
    holds [Table:].  Hence, when no line of the compact summary holds
    it, every input classified as data_query gets a failure with the
    suggestions from [process_query]; so it does when the schema cannot
    be loaded. *)
Theorem unmarked_schema_lists_no_table :
  forall (db : string) (catalog : res (list SchemaExtractor.TableDetails)),
    (forall tables,
       (_extract_table_names_from_schema (SchemaExtractor.compact_text db tables)
        = Ok []
        <-> unmarked (SchemaExtractor.compact_text db tables) = true)
       /\ (_extract_table_names_from_schema (SchemaExtractor.schema_text db tables)
           = Ok []
           <-> unmarked (SchemaExtractor.schema_text db tables) = true))
    /\ (forall tables,
          catalog = Ok tables ->
          unmarked (SchemaExtractor.compact_text db tables) = true ->
          forall query : string,
            type (_analyze_intent query) = "data_query" ->
            fst (process_query (init db catalog) query)
            = Ok (Failure "Could not generate SQL query. Please rephrase your request."
                    (_get_suggestions query)))
    /\ (forall e,
          catalog = Raise e ->
          forall query : string,
            type (_analyze_intent query) = "data_query" ->
            fst (process_query (init db catalog) query)
            = Ok (Failure "Could not generate SQL query. Please rephrase your request."
                    (_get_suggestions query))).
Proof.
  intros db catalog.
  assert (Hfail : forall query,
            type (_analyze_intent query) = "data_query" ->
            unmarked (fst (_load_schema_context (init db catalog))) = true ->
            fst (process_query (init db catalog) query)
            = Ok (Failure "Could not generate SQL query. Please rephrase your request."
                    (_get_suggestions query))).
  { intros query Hkind Hun. apply process_query_absent.
    rewrite (generate_data_query _ _ _ Hkind).
    apply lookup_empty_iff in Hun.
    apply (construct_select_none query _ [] Hun). intros u []. }
  split; [|split].
  - intros tables. split; apply lookup_empty_iff.
  - intros tables -> Hun query Hkind. apply (Hfail query Hkind).
    now rewrite load_schema_fresh.
  - intros e -> query Hkind. apply (Hfail query Hkind).
    rewrite load_schema_fresh. reflexivity.
Qed.

Lemma unmarked_schema_lists_no_table_witness :
  fst (process_query (init "HelpDesk" (Ok tickets_catalog)) "show me tickets")
  = Ok (Failure "Could not generate SQL query. Please rephrase your request."
          (_get_suggestions "show me tickets")).
Proof.
  destruct (unmarked_schema_lists_no_table "HelpDesk" (Ok tickets_catalog))
    as (_ & H & _).
  apply (H tickets_catalog); reflexivity.
Defined.

Example tickets_schema_ex :
  SchemaExtractor.compact_text "HelpDesk" tickets_catalog
  = "Database 'HelpDesk' - 1 tables:" ++ nl
    ++ "  • Tickets: Title:text, created_at:timestamp"
  /\ plain_database "HelpDesk" (Ok tickets_catalog) = false
  /\ unmarked (SchemaExtractor.compact_text "HelpDesk" tickets_catalog) = true
  /\ unmarked (SchemaExtractor.schema_text "HelpDesk" tickets_catalog) = true.
Proof. repeat split; vm_compute; reflexivity. Qed.

Example compact_schema_ex :
  SchemaExtractor.compact_text "shop" users_catalog
  = "Database 'shop' - 1 tables:" ++ nl ++ "  • users: name:varchar(50) [PK]".
Proof. vm_compute. reflexivity. Qed.

Example full_schema_ex :
  SchemaExtractor.schema_text "shop" users_catalog
  = join nl
      [ "DATABASE: 'shop'"; "TABLES: 1"; repeat_char "=" 80; "";
        "TABLE: users"; "Rows: ~1,500"; repeat_char "-" 80; "COLUMNS:";
        "  • name: varchar(50) NOT NULL [PRIMARY KEY]"; "" ].
Proof. vm_compute. reflexivity. Qed.

Example lookup_raises_ex :
  _extract_table_names_from_schema ("Table: customers" ++ nl ++ "Table:")
  = Raise IndexError.
Proof. reflexivity. Qed.

(** A table whose name ends in Table and that shows no column leaves
    nothing after the marker: the lookup raises, and the generate
    endpoint answers with its own failure. *)
Example generate_endpoint_catches_ex :
  Main.smart_admin_generate "shop" (Ok bare_user_table_catalog) "show me users"
  = Failure "Failed to generate SQL: list index out of range"
      [ "Try: 'Show all tables'"; "Try: 'Show table sizes'";
        "Try: 'List all indexes'"; "Try: 'Describe table actor'";
        "Try: 'Show database size'"; "Try: 'Show row counts'";
        "Try: 'Show active connections'" ].
Proof. vm_compute. reflexivity. Qed.

(** * Further properties of the code *)

(** ** Case of letters and white space around a text *)

Lemma upper_char_idem (c : ascii) : upper_char (upper_char c) = upper_char c.
Proof. destruct c as [[] [] [] [] [] [] [] []]; reflexivity. Qed.

Lemma lower_char_idem (c : ascii) : lower_char (lower_char c) = lower_char c.
Proof. destruct c as [[] [] [] [] [] [] [] []]; reflexivity. Qed.

Lemma upper_lower_char (c : ascii) : upper_char (lower_char c) = upper_char c.
Proof. destruct c as [[] [] [] [] [] [] [] []]; reflexivity. Qed.

Lemma lower_upper_char (c : ascii) : lower_char (upper_char c) = lower_char c.
Proof. destruct c as [[] [] [] [] [] [] [] []]; reflexivity. Qed.

Lemma space_upper_char (c : ascii) : is_space (upper_char c) = is_space c.
Proof. destruct c as [[] [] [] [] [] [] [] []]; reflexivity. Qed.

Lemma space_lower_char (c : ascii) : is_space (lower_char c) = is_space c.
Proof. destruct c as [[] [] [] [] [] [] [] []]; reflexivity. Qed.

Lemma map_str_compose (f g h : ascii -> ascii) (s : string) :
  (forall c, f (g c) = h c) -> map_str f (map_str g s) = map_str h s.
Proof.
  intros H. induction s as [|c s IH]; [reflexivity|].
  cbn [map_str]. now rewrite H, IH.
Qed.

Lemma upper_idem (s : string) : upper (upper s) = upper s.
Proof. apply map_str_compose, upper_char_idem. Qed.

Lemma lower_idem (s : string) : lower (lower s) = lower s.
Proof. apply map_str_compose, lower_char_idem. Qed.

Lemma upper_lower (s : string) : upper (lower s) = upper s.
Proof. apply map_str_compose, upper_lower_char. Qed.

Lemma lower_upper (s : string) : lower (upper s) = lower s.
Proof. apply map_str_compose, lower_upper_char. Qed.

Lemma all_space_map (f : ascii -> ascii) (w : string) :
  (forall c, is_space (f c) = is_space c) ->
  all_space (map_str f w) = all_space w.
Proof.
  intros H. induction w as [|c w IH]; [reflexivity|].
  unfold all_space in *. cbn [map_str allb]. now rewrite H, IH.
Qed.

Lemma lstrip_pad (w s : string) : all_space w = true -> lstrip (w ++ s) = lstrip s.
Proof.
  induction w as [|c w IH]; [reflexivity|].
  unfold all_space. cbn [allb append lstrip]. intros H.
  apply andb_true_iff in H as [Hc Hw]. rewrite Hc. now apply IH.
Qed.

Lemma rstrip_all_space (w : string) : all_space w = true -> rstrip w = "".
Proof.
  induction w as [|c w IH]; [reflexivity|].
  unfold all_space. cbn [allb rstrip]. intros H.
  apply andb_true_iff in H as [Hc Hw]. now rewrite (IH Hw), Hc.
Qed.

Lemma rstrip_pad (s w : string) : all_space w = true -> rstrip (s ++ w) = rstrip s.
Proof.
  intros Hw. induction s as [|c s IH].
  - cbn [append rstrip]. now apply rstrip_all_space.
  - cbn [append rstrip]. now rewrite IH.
Qed.

Lemma lstrip_app_pad (s w : string) :
  all_space w = true ->
  exists w', all_space w' = true /\ lstrip (s ++ w) = lstrip s ++ w'.
Proof.
  intros Hw. induction s as [|c s IH].
  - exists "". split; [reflexivity|]. cbn [append lstrip].
    rewrite <- (append_empty_r w), lstrip_pad by assumption. reflexivity.
  - cbn [append lstrip]. destruct (is_space c); [exact IH|].
    exists w. split; [assumption | reflexivity].
Qed.

Lemma strip_pad (w1 w2 s : string) :
  all_space w1 = true -> all_space w2 = true -> strip (w1 ++ s ++ w2) = strip s.
Proof.
  intros H1 H2. unfold strip. rewrite lstrip_pad by assumption.
  destruct (lstrip_app_pad s w2 H2) as (w' & Hw' & ->).
  now apply rstrip_pad.
Qed.

Lemma lstrip_map (f : ascii -> ascii) (s : string) :
  (forall c, is_space (f c) = is_space c) ->
  lstrip (map_str f s) = map_str f (lstrip s).
Proof.
  intros H. induction s as [|c s IH]; [reflexivity|].
  cbn [map_str lstrip]. rewrite H. now destruct (is_space c).
Qed.

Lemma rstrip_map (f : ascii -> ascii) (s : string) :
  (forall c, is_space (f c) = is_space c) ->
  rstrip (map_str f s) = map_str f (rstrip s).
Proof.
  intros H. induction s as [|c s IH]; [reflexivity|].
  cbn [map_str rstrip]. rewrite IH, H.
  destruct (rstrip s); cbn [map_str]; [|reflexivity].
  now destruct (is_space c).
Qed.

Lemma strip_upper (s : string) : strip (upper s) = upper (strip s).
Proof.
  unfold strip, upper.
  now rewrite lstrip_map, rstrip_map by apply space_upper_char.
Qed.

(** X1.  The safety verdict depends neither on the case of the letters
    of the statement nor on white space around it. *)
Theorem safety_ignores_case_and_padding :
  forall (before after sql : string),
    all_space before = true -> all_space after = true ->
    _analyze_safety (before ++ upper sql ++ after) = _analyze_safety sql
    /\ _analyze_safety (before ++ lower sql ++ after) = _analyze_safety sql.
Proof.
  intros before after sql Hb Ha.
  assert (Hub : all_space (upper before) = true)
    by (unfold upper; rewrite all_space_map; [assumption | apply space_upper_char]).
  assert (Hua : all_space (upper after) = true)
    by (unfold upper; rewrite all_space_map; [assumption | apply space_upper_char]).
  unfold _analyze_safety. cbv zeta.
  assert (H1 : strip (upper (before ++ upper sql ++ after)) = strip (upper sql)).
  { unfold upper at 1. rewrite !map_str_app. fold (upper before) (upper after).
    fold (upper (upper sql)). rewrite upper_idem. now apply strip_pad. }
  assert (H2 : strip (upper (before ++ lower sql ++ after)) = strip (upper sql)).
  { unfold upper at 1. rewrite !map_str_app. fold (upper before) (upper after).
    fold (upper (lower sql)). rewrite upper_lower. now apply strip_pad. }
  rewrite H1, H2. split; reflexivity.
Qed.

Lemma safety_ignores_case_and_padding_witness :
  _analyze_safety ("  " ++ upper "Drop Table actor;" ++ nl)
  = _analyze_safety "Drop Table actor;".
Proof.
  apply (safety_ignores_case_and_padding "  " nl "Drop Table actor;"); reflexivity.
Defined.

Lemma strip_lower_pad (before after query : string) :
  all_space before = true -> all_space after = true ->
  strip (lower (before ++ query ++ after)) = strip (lower query).
Proof.
  intros Hb Ha. unfold lower. rewrite !map_str_app.
  apply strip_pad; rewrite all_space_map; try assumption; apply space_lower_char.
Qed.

Lemma analyze_intent_lower (query query' : string) :
  strip (lower query) = strip (lower query') ->
  _analyze_intent query = _analyze_intent query'.
Proof. intros H. unfold _analyze_intent. cbv zeta. now rewrite H. Qed.

Lemma generate_sql_lower (query query' schema : string) (intent : Intent) :
  lower query = lower query' ->
  _generate_sql query intent schema = _generate_sql query' intent schema.
Proof.
  intros H. unfold _generate_sql, _construct_select_query. cbv zeta.
  now rewrite H.
Qed.

(** X2.  Two requests that differ only in the case of their letters get
    the same answer from [process_query], and white space around a
    request does not change its intent. *)
Theorem process_query_ignores_case :
  forall (self : t) (query query' : string),
    lower query = lower query' ->
    process_query self query = process_query self query'
    /\ (forall before after : string,
          all_space before = true -> all_space after = true ->
          _analyze_intent (before ++ query ++ after) = _analyze_intent query').
Proof.
  intros self query query' H. split.
  - unfold process_query. destruct (_load_schema_context self) as [schema self'].
    rewrite (analyze_intent_lower query query') by now rewrite H.
    rewrite (generate_sql_lower query query' schema _ H). reflexivity.
  - intros before after Hb Ha. apply analyze_intent_lower.
    rewrite strip_lower_pad by assumption. now rewrite H.
Qed.

Lemma process_query_ignores_case_witness :
  process_query (init "dvdrental" (Ok [])) "SHOW Table Sizes"
  = process_query (init "dvdrental" (Ok [])) "show table sizes".
Proof.
  apply (process_query_ignores_case (init "dvdrental" (Ok []))
           "SHOW Table Sizes" "show table sizes").
  reflexivity.
Defined.

(** ** The shape of the SQL that is generated *)

Lemma length_append (a b : string) :
  String.length (a ++ b) = String.length a + String.length b.
Proof. induction a as [|c a IH]; [reflexivity|]. cbn [append String.length]. now rewrite IH. Qed.

Lemma drop_append (a b : string) (k : nat) :
  drop (String.length a + k) (a ++ b) = drop k b.
Proof. induction a as [|c a IH]; [reflexivity|]. exact IH. Qed.

Lemma endswith_append (a b suffix : string) :
  endswith b suffix = true -> endswith (a ++ b) suffix = true.
Proof.
  unfold endswith. intros H. apply andb_true_iff in H as [Hlen Heq].
  apply Nat.leb_le in Hlen. rewrite length_append.
  apply andb_true_intro. split; [apply Nat.leb_le; lia|].
  replace (String.length a + String.length b - String.length suffix)
    with (String.length a + (String.length b - String.length suffix)) by lia.
  now rewrite drop_append.
Qed.

Lemma select_prefix_kept (sql : string) :
  startswith sql "SELECT" = true ->
  startswith (strip (upper sql)) "SELECT" = true.
Proof.
  unfold startswith. intros H. apply prefix_iff in H as [rest ->].
  unfold strip. change (upper ("SELECT" ++ rest)) with ("SELECT" ++ upper rest).
  change (lstrip ("SELECT" ++ upper rest)) with ("SELECT" ++ upper rest).
  rewrite prefix_rstrip by reflexivity. apply prefix_iff. now exists (upper rest).
Qed.

Lemma select_never_unknown (sql : string) :
  startswith sql "SELECT" = true ->
  In (level (_analyze_safety sql)) ["safe"; "modify"; "dangerous"].
Proof.
  intros H. apply select_prefix_kept in H. rewrite safety_cases. cbv zeta.
  destruct (any_in dangerous_keywords _); [cbn; tauto|].
  destruct (any_in modify_keywords _); [cbn; tauto|].
  unfold startswith_any, safe_prefixes. cbn [existsb]. rewrite H. cbn; tauto.
Qed.

Ltac template_shape Hk :=
  unfold _generate_sql; rewrite Hk; cbn [String.eqb Ascii.eqb Bool.eqb];
  let H := fresh in
  intros H; injection H as <-; split; vm_compute; reflexivity.

Lemma generate_shape (query schema sql : string) (intent : Intent) :
  In (type intent) intent_kinds ->
  _generate_sql query intent schema = Ok (Some sql) ->
  startswith sql "SELECT" = true /\ endswith sql ";" = true.
Proof.
  intros Hkind. unfold intent_kinds in Hkind. cbn [In] in Hkind.
  destruct Hkind as [Hk|[Hk|[Hk|[Hk|[Hk|[Hk|[Hk|[Hk|[Hk|[Hk|[Hk|[Hk|[Hk|[]]]]]]]]]]]]]];
    symmetry in Hk; try (template_shape Hk).
  - unfold _generate_sql. rewrite Hk. cbn [String.eqb Ascii.eqb Bool.eqb].
    destruct (or_else (table intent) (_extract_table_name (lower query))) as [tb|];
      [|discriminate].
    destruct (truthy tb); [|discriminate].
    intros H. injection H as <-. split; [reflexivity|].
    unfold sql_describe_table. do 2 apply endswith_append. reflexivity.
  - rewrite (generate_data_query _ _ _ Hk). unfold _construct_select_query.
    cbv zeta. destruct (_extract_table_names_from_schema schema) as [tables|e];
      [|discriminate].
    cbn [bind].
    destruct (find (fun tb => contains (lower tb) (lower query)) tables) as [tb|];
      [|discriminate].
    destruct (truthy tb); [|discriminate]. cbn [negb].
    intros H. injection H as <-. split.
    + repeat match goal with
             | |- context [if ?c then _ else _] => destruct c
             end; reflexivity.
    + apply endswith_append. reflexivity.
  - unfold _generate_sql. rewrite Hk. discriminate.
  - unfold _generate_sql. rewrite Hk. discriminate.
Qed.

(** X3.  Whatever SQL [process_query] generates starts with SELECT and
    ends with a semicolon, and its safety level is safe, modify or
    dangerous, never unknown. *)
Theorem generated_sql_is_a_select :
  forall (self : t) (query sql explanation safety_level recommendation : string)
         (warnings : option string) (intent_type : string),
    fst (process_query self query)
    = Ok (Generated sql explanation safety_level recommendation warnings intent_type) ->
    startswith sql "SELECT" = true
    /\ endswith sql ";" = true
    /\ safety_level = level (_analyze_safety sql)
    /\ In safety_level ["safe"; "modify"; "dangerous"].
Proof.
  intros self query sql expl lvl rec warn kind. unfold process_query.
  destruct (_load_schema_context self) as [schema self'].
  destruct (_generate_sql query (_analyze_intent query) schema) as [[found|]|e] eqn:Hgen;
    cbn [fst truthy_opt]; try discriminate.
  destruct (generate_shape _ _ _ _ (intent_kind_listed query) Hgen) as [Hs He].
  destruct (truthy found); cbn [negb]; [|discriminate].
  intros H. injection H as <- _ <- _ _ _.
  repeat split; try assumption. now apply select_never_unknown.
Qed.

Lemma generated_sql_is_a_select_witness :
  startswith sql_list_tables "SELECT" = true
  /\ endswith sql_list_tables ";" = true
  /\ "safe" = level (_analyze_safety sql_list_tables)
  /\ In "safe" ["safe"; "modify"; "dangerous"].
Proof.
  apply (generated_sql_is_a_select (init "dvdrental" (Ok [])) "show tables"
           sql_list_tables "List all tables in the database" "safe"
           (recommendation (_analyze_safety sql_list_tables)) None "list_tables").
  vm_compute. reflexivity.
Defined.

Ltac safe_template Hk :=
  eexists; eexists;
  rewrite (process_query_present _ _ _
             ltac:(unfold _generate_sql; rewrite Hk; reflexivity)
             ltac:(discriminate));
  rewrite Hk; f_equal.

(** X4.  The eight fixed templates other than the statistics one are
    rated safe: for every input with one of these intents the answer of
    [process_query] has safety level safe and no warning. *)
Theorem fixed_templates_rated_safe :
  forall (self : t) (query : string),
    In (type (_analyze_intent query))
       [ "list_tables"; "list_indexes"; "foreign_keys"; "table_sizes";
         "database_size"; "row_counts"; "connections"; "active_queries" ] ->
    exists sql recommendation,
      fst (process_query self query)
      = Ok (Generated sql (explanation (_analyze_intent query)) "safe"
              recommendation None (type (_analyze_intent query))).
Proof.
  intros self query Hkind. cbn [In] in Hkind.
  destruct Hkind as [Hk|[Hk|[Hk|[Hk|[Hk|[Hk|[Hk|[Hk|[]]]]]]]]];
    symmetry in Hk; safe_template Hk.
Qed.

Lemma fixed_templates_rated_safe_witness :
  exists sql recommendation,
    fst (process_query (init "dvdrental" (Ok [])) "who is connected")
    = Ok (Generated sql (explanation (_analyze_intent "who is connected")) "safe"
            recommendation None (type (_analyze_intent "who is connected"))).
Proof.
  apply (fixed_templates_rated_safe (init "dvdrental" (Ok [])) "who is connected").
  vm_compute. tauto.
Defined.

(** ** What the patterns capture *)

Lemma allb_weaken (p q : ascii -> bool) (s : string) :
  (forall c, p c = true -> q c = true) -> allb p s = true -> allb q s = true.
Proof.
  intros H. induction s as [|c s IH]; [reflexivity|].
  cbn [allb]. intros Hs. apply andb_true_iff in Hs as [Hc Hs].
  now rewrite (H c Hc), IH.
Qed.

Lemma plus_go_taken (A : Type) (p : ascii -> bool)
    (k : string -> string -> option A) (s : string) :
  forall (taken : string) (r : A),
    Re.plus_go p k taken s = Some r ->
    exists x s', x <> "" /\ allb p x = true /\ k (taken ++ x) s' = Some r.
Proof.
  induction s as [|c s IH]; intros taken r H; [discriminate|].
  cbn [Re.plus_go] in H. destruct (p c) eqn:Hc; [|discriminate].
  destruct (Re.plus_go p k (taken ++ String c "") s) as [r'|] eqn:Hmore.
  - injection H as ->. destruct (IH _ _ Hmore) as (x & s' & Hx & Hp & Hk).
    exists (String c x), s'. split; [discriminate|]. split.
    + cbn [allb]. now rewrite Hc.
    + rewrite append_assoc in Hk. exact Hk.
  - exists (String c ""), s. split; [discriminate|]. split; [|exact H].
    cbn [allb]. now rewrite Hc.
Qed.

Lemma first_some_in (A : Type) (xs : list (option A)) (a : A) :
  Re.first_some xs = Some a -> In (Some a) xs.
Proof.
  induction xs as [|[x|] xs IH]; cbn [Re.first_some]; intros H.
  - discriminate.
  - injection H as ->. now left.
  - right. now apply IH.
Qed.

Lemma groups_take_words_tail (it : Re.item) (pat : Re.pattern) :
  groups_take_words (it :: pat) -> groups_take_words pat.
Proof. intros H p Hin. apply H. now right. Qed.

Lemma match_at_captures_word (pat : Re.pattern) :
  groups_take_words pat ->
  forall (s : string) (g r : option string),
    (forall name, g = Some name -> word_name name = true) ->
    Re.match_at pat g s = Some r ->
    forall name, r = Some name -> word_name name = true.
Proof.
  induction pat as [|it rest IH]; intros Hpat s g r Hg H.
  - cbn in H. injection H as <-. exact Hg.
  - pose proof (IH (groups_take_words_tail _ _ Hpat)) as IH'.
    cbn [Re.match_at] in H. destruct it as [l|ls|p|p|p|p].
    + destruct (String.prefix l s); [|discriminate]. exact (IH' _ _ _ Hg H).
    + apply first_some_in, in_map_iff in H. destruct H as (l & Hl & _).
      destruct (String.prefix l s); [|discriminate]. exact (IH' _ _ _ Hg Hl).
    + destruct s as [|c s]; [discriminate|].
      destruct (p c); [|discriminate]. exact (IH' _ _ _ Hg H).
    + destruct s as [|c s]; [exact (IH' _ _ _ Hg H)|].
      destruct (p c); [|exact (IH' _ _ _ Hg H)].
      destruct (Re.match_at rest g s) as [r'|] eqn:Hfirst.
      * injection H as <-. exact (IH' _ _ _ Hg Hfirst).
      * exact (IH' _ _ _ Hg H).
    + apply plus_go_taken in H. destruct H as (x & s' & _ & _ & H).
      exact (IH' _ _ _ Hg H).
    + apply plus_go_taken in H. destruct H as (x & s' & Hx & Hp & H).
      refine (IH' _ _ _ _ H). intros name Hname. injection Hname as <-.
      unfold word_name. cbn [append]. apply andb_true_intro. split.
      * destruct x; [now contradiction Hx | reflexivity].
      * apply (allb_weaken p); [|exact Hp]. apply Hpat. now left.
Qed.

Lemma search_captures_word (pat : Re.pattern) (s : string) (r : option string) :
  groups_take_words pat ->
  Re.search pat s = Some r ->
  forall name, r = Some name -> word_name name = true.
Proof.
  intros Hpat. induction s as [|c s IH]; cbn [Re.search]; intros H.
  - destruct (Re.match_at pat None "") as [g|] eqn:Hm; [|discriminate].
    injection H as <-. refine (match_at_captures_word pat Hpat _ None _ _ Hm).
    intros ? Hnone. discriminate Hnone.
  - destruct (Re.match_at pat None (String c s)) as [g|] eqn:Hm.
    + injection H as <-. refine (match_at_captures_word pat Hpat _ None _ _ Hm).
      intros ? Hnone. discriminate Hnone.
    + now apply IH.
Qed.

Lemma patterns_take_words (pat : Re.pattern) :
  In pat patterns -> groups_take_words pat.
Proof.
  unfold patterns. intros Hin p Hp c Hc. cbn [In] in Hin.
  destruct Hin as [<-|[<-|[<-|[<-|[]]]]]; cbn [In] in Hp;
    repeat match goal with
           | H : _ \/ _ |- _ => destruct H as [H|H]
           | H : False |- _ => destruct H
           | H : _ = Re.Group1Plus _ |- _ => first [discriminate H | injection H as <-]
           end;
    exact Hc.
Qed.

Lemma extract_table_name_word (query name : string) :
  _extract_table_name query = Some name -> word_name name = true.
Proof.
  intros H. apply first_table_name_spec in H.
  destruct H as (i & pat & Hnth & Hcap & _).
  apply nth_error_In, patterns_take_words in Hnth.
  unfold capture in Hcap.
  destruct (Re.search pat query) as [[found|]|] eqn:Hs; try discriminate.
  injection Hcap as ->. now apply (search_captures_word pat query _ Hnth Hs).
Qed.

(** X5.  A table name taken from a request is never empty and holds
    nothing but letters, digits and underscores, hence no quote; so the
    describe template is always filled with such a name when
    [process_query] answers a describe request. *)
Theorem described_table_is_a_word :
  forall (self : t) (query sql explanation safety_level recommendation : string)
         (warnings : option string),
    fst (process_query self query)
    = Ok (Generated sql explanation safety_level recommendation warnings
            "describe_table") ->
    exists name,
      sql = sql_describe_table name
      /\ name <> ""
      /\ allb is_word name = true
      /\ contains squote name = false.
Proof.
  intros self query sql expl lvl rec warn. unfold process_query.
  destruct (_load_schema_context self) as [schema self'].
  destruct (_generate_sql query (_analyze_intent query) schema) as [[found|]|e] eqn:Hgen;
    cbn [fst truthy_opt]; try discriminate.
  destruct (truthy found); cbn [negb]; [|discriminate].
  intros H. injection H as <- _ _ _ _ Hkind.
  unfold _generate_sql in Hgen. rewrite Hkind in Hgen.
  cbn [String.eqb Ascii.eqb Bool.eqb] in Hgen.
  assert (Hword : forall name,
             or_else (table (_analyze_intent query)) (_extract_table_name (lower query))
             = Some name -> word_name name = true).
  { intros name. unfold or_else.
    destruct (truthy_opt (table (_analyze_intent query))).
    - revert Hkind. unfold _analyze_intent. cbv zeta. split_intent_tests;
        cbn [type table]; intros Hkind; try discriminate Hkind.
      apply extract_table_name_word.
    - apply extract_table_name_word. }
  destruct (or_else (table (_analyze_intent query)) (_extract_table_name (lower query)))
    as [tb|]; [|discriminate].
  specialize (Hword tb eq_refl). destruct (truthy tb); [|discriminate].
  injection Hgen as <-. exists tb. unfold word_name in Hword.
  apply andb_true_iff in Hword as [Hne Hall].
  split; [reflexivity|]. split; [destruct tb; [discriminate | discriminate]|].
  split; [assumption|].
  clear - Hall. induction tb as [|c tb IH]; [reflexivity|].
  cbn [allb] in Hall. apply andb_true_iff in Hall as [Hc Hall].
  cbn [contains]. rewrite (IH Hall), orb_false_r.
  unfold squote. rewrite prefix_cons, prefix_empty, andb_true_r.
  destruct (Ascii.eqb (ascii_of_nat 39) c) eqn:Hq; [|reflexivity].
  apply Ascii.eqb_eq in Hq. subst c. discriminate Hc.
Qed.

Lemma described_table_is_a_word_witness :
  exists name,
    sql_describe_table "customer_orders" = sql_describe_table name
    /\ name <> ""
    /\ allb is_word name = true
    /\ contains squote name = false.
Proof.
  apply (described_table_is_a_word (init "dvdrental" (Ok []))
           "show columns in customer_orders"
           (sql_describe_table "customer_orders")
           "Show structure of table: customer_orders" "safe"
           (recommendation (_analyze_safety "SELECT 1")) None).
  vm_compute. reflexivity.
Defined.

(** ** The table-name lookup *)

Lemma split_go_skip (sep y rest : string) :
  forall cur, split_go sep (String.length y) cur (y ++ rest) = split_go sep 0 cur rest.
Proof. induction y as [|c y IH]; intros cur; [reflexivity | apply IH]. Qed.

(** The first piece of a split ends at the first separator, when the
    text before it does not hold the separator's first character. *)
Lemma split_go_first (k : ascii) (sep' x rest : string) :
  mem_char k x = false ->
  forall cur,
    split_go (String k sep') 0 cur (x ++ String k sep' ++ rest)
    = (cur ++ x) :: split_go (String k sep') 0 "" rest.
Proof.
  induction x as [|c x IH]; intros H cur.
  - rewrite append_empty_r. cbn [append split_go].
    assert (Hp : String.prefix (String k sep') (String k (sep' ++ rest)) = true)
      by (apply prefix_iff; now exists rest).
    rewrite Hp. cbn [String.length Nat.sub]. rewrite Nat.sub_0_r.
    now rewrite split_go_skip.
  - cbn [mem_char] in H. apply orb_false_iff in H as [Hkc Hx].
    cbn [append split_go]. rewrite prefix_cons, Hkc. cbn [andb].
    rewrite (IH Hx), append_assoc. reflexivity.
Qed.

(** The pieces of a split are pieces of the text. *)
Lemma split_go_piece (sep : string) (s : string) :
  forall (skip : nat) (cur piece : string),
    (skip <> 0 -> cur = "") ->
    In piece (split_go sep skip cur s) ->
    exists a b, cur ++ s = a ++ piece ++ b.
Proof.
  induction s as [|c s IH]; intros skip cur piece Hskip Hin.
  - cbn [split_go] in Hin. destruct Hin as [<-|[]]. now exists "", "".
  - cbn [split_go] in Hin. destruct skip as [|k].
    + destruct (String.prefix sep (String c s)).
      * destruct Hin as [<-|Hin]; [now exists "", (String c s)|].
        destruct (IH _ "" piece ltac:(reflexivity) Hin) as (a & b & Hab).
        cbn [append] in Hab. exists (cur ++ String c a), b.
        rewrite Hab, !append_assoc. reflexivity.
      * destruct (IH 0 _ piece ltac:(intros Hne; now contradiction Hne) Hin) as (a & b & Hab).
        exists a, b. rewrite <- Hab, append_assoc. reflexivity.
    + rewrite (Hskip ltac:(discriminate)) in *.
      destruct (IH k "" piece ltac:(reflexivity) Hin) as (a & b & Hab).
      cbn [append] in *. exists (String c a), b. cbn [append]. now rewrite Hab.
Qed.

Lemma split_ws_go_piece (s : string) :
  forall (cur tok : string),
    In tok (split_ws_go cur s) -> exists a b, cur ++ s = a ++ tok ++ b.
Proof.
  induction s as [|c s IH]; intros cur tok Hin.
  - cbn [split_ws_go] in Hin. destruct cur; [contradiction|].
    destruct Hin as [<-|[]]. now exists "", "".
  - cbn [split_ws_go] in Hin. destruct (is_space c).
    + assert (Hrest : In tok (split_ws_go "" s) -> exists a b, cur ++ String c s = a ++ tok ++ b).
      { intros H. destruct (IH "" tok H) as (a & b & Hab). cbn [append] in Hab.
        exists (cur ++ String c a), b. rewrite Hab, !append_assoc. reflexivity. }
      destruct cur as [|x cur]; [now apply Hrest|].
      destruct Hin as [<-|Hin]; [now exists "", (String c s) | now apply Hrest].
    + destruct (IH _ tok Hin) as (a & b & Hab). exists a, b.
      rewrite <- Hab, append_assoc. reflexivity.
Qed.

Lemma contains_trans (a b c : string) :
  contains a b = true -> contains b c = true -> contains a c = true.
Proof.
  rewrite !contains_iff. intros (x & y & ->) (u & v & ->).
  exists (u ++ x), (y ++ v). now rewrite !append_assoc.
Qed.

Lemma scan_lines_names (lines tables found : list string) :
  scan_lines lines tables = Ok found ->
  forall name, In name found ->
    In name tables
    \/ (name <> ""
        /\ allb (fun c => negb (is_space c)) name = true
        /\ exists line, In line lines /\ contains name line = true).
Proof.
  revert tables. induction lines as [|line rest IH]; intros tables Hscan name Hin.
  - cbn in Hscan. injection Hscan as <-. now left.
  - assert (Hrest : forall tables',
               scan_lines rest tables' = Ok found ->
               (forall n, In n tables' -> In n tables
                  \/ (n <> "" /\ allb (fun c => negb (is_space c)) n = true
                      /\ contains n line = true)) ->
               In name tables
               \/ (name <> "" /\ allb (fun c => negb (is_space c)) name = true
                   /\ exists l, In l (line :: rest) /\ contains name l = true)).
    { intros tables' Hs Hacc. destruct (IH _ Hs name Hin) as [Hold|(H1 & H2 & l & Hl & Hc)].
      - destruct (Hacc _ Hold) as [H|(H1 & H2 & H3)]; [now left|].
        right. repeat split; try assumption. exists line. split; [now left | assumption].
      - right. repeat split; try assumption. exists l. split; [now right | assumption]. }
    cbn [scan_lines] in Hscan.
    destruct (contains "Table:" line) eqn:Hmark;
      [|apply (Hrest tables Hscan); intros n Hn; now left].
    destruct (1 <? List.length (split line "Table:"))%nat eqn:Hlen;
      [|apply (Hrest tables Hscan); intros n Hn; now left].
    destruct (split_ws (nth 1 (split line "Table:") "")) as [|tok toks] eqn:Htoks;
      [discriminate|].
    apply (Hrest _ Hscan). intros n Hn. apply in_app_or in Hn as [Hn|[<-|[]]];
      [now left|]. right.
    assert (Htok : In tok (split_ws_go "" (nth 1 (split line "Table:") "")))
      by (unfold split_ws in Htoks; rewrite Htoks; now left).
    destruct (split_ws_go_tokens _ "" tok eq_refl Htok) as [Hne Hall].
    rewrite (strip_token tok Hall). repeat split; try assumption.
    apply (contains_trans _ (nth 1 (split line "Table:") "")).
    + apply contains_iff. destruct (split_ws_go_piece _ _ _ Htok) as (a & b & Hab).
      now exists a, b.
    + apply contains_iff.
      assert (Hpart : In (nth 1 (split line "Table:") "") (split line "Table:"))
        by (apply nth_In; now apply Nat.ltb_lt).
      destruct (split_go_piece "Table:" line 0 "" _ ltac:(intros Hne'; now contradiction Hne') Hpart)
        as (a & b & Hab).
      now exists a, b.
Qed.

Lemma split_lines_piece (schema line : string) :
  In line (split schema nl) -> contains line schema = true.
Proof.
  intros Hin. apply contains_iff.
  destruct (split_go_piece nl schema 0 "" line ltac:(intros Hne; now contradiction Hne) Hin)
    as (a & b & Hab).
  now exists a, b.
Qed.

(** X6.  The lookup invents nothing: every name it returns is a
    non-empty piece of the schema text without white space. *)
Theorem lookup_names_come_from_schema :
  forall (schema : string) (tables : list string),
    _extract_table_names_from_schema schema = Ok tables ->
    forall name, In name tables ->
      name <> ""
      /\ allb (fun c => negb (is_space c)) name = true
      /\ contains name schema = true.
Proof.
  intros schema tables H name Hin. unfold _extract_table_names_from_schema in H.
  destruct (scan_lines_names _ _ _ H name Hin) as [[]|(H1 & H2 & line & Hl & Hc)].
  repeat split; try assumption.
  apply (contains_trans _ line); [assumption | now apply split_lines_piece].
Qed.

Lemma lookup_names_come_from_schema_witness :
  "orders" <> ""
  /\ allb (fun c => negb (is_space c)) "orders" = true
  /\ contains "orders" ("Table: customers (id)" ++ nl ++ "xTable:orders old") = true.
Proof.
  apply (lookup_names_come_from_schema
           ("Table: customers (id)" ++ nl ++ "xTable:orders old")
           ["customers"; "orders"]).
  - reflexivity.
  - right. now left.
Defined.

Lemma scan_lines_outcome (lines : list string) :
  forall tables,
    if existsb blank_marker lines
    then scan_lines lines tables = Raise IndexError
    else exists found, scan_lines lines tables = Ok found.
Proof.
  induction lines as [|line rest IH]; intros tables.
  - cbn. now exists tables.
  - cbn [existsb scan_lines]. unfold blank_marker at 1.
    destruct (contains "Table:" line) eqn:Hmark; cbn [andb orb]; [|apply IH].
    pose proof (split_has_two_parts "Table:" line ltac:(discriminate) Hmark "") as Hlen.
    change (split_go "Table:" 0 "" line) with (split line "Table:") in Hlen.
    rewrite Hlen.
    destruct (split_ws (nth 1 (split line "Table:") "")) as [|tok toks];
      cbn [orb]; [reflexivity | apply IH].
Qed.

Lemma lookup_raises_index_error (schema : string) (e : exn) :
  _extract_table_names_from_schema schema = Raise e -> e = IndexError.
Proof.
  unfold _extract_table_names_from_schema. intros H.
  pose proof (scan_lines_outcome (split schema nl) []) as Ho.
  destruct (existsb blank_marker (split schema nl)).
  - rewrite Ho in H. now injection H as <-.
  - destruct Ho as [found Ho]. rewrite Ho in H. discriminate H.
Qed.

Lemma prefix_app (p a b : string) :
  String.prefix p a = true -> String.prefix p (a ++ b) = true.
Proof. rewrite !prefix_iff. intros [t ->]. exists (t ++ b). apply append_assoc. Qed.

(** The first piece of a split holds no separator and ends at the end of
    the text or before a separator, after which the split starts anew. *)
Lemma split_go_head (sep : string) :
  sep <> "" ->
  forall s cur,
    exists piece rest,
      s = piece ++ rest
      /\ contains sep piece = false
      /\ ((rest = "" /\ split_go sep 0 cur s = [cur ++ piece])
          \/ (exists rest',
                rest = sep ++ rest'
                /\ split_go sep 0 cur s = (cur ++ piece) :: split_go sep 0 "" rest')).
Proof.
  intros Hsep. destruct sep as [|k sep']; [now contradiction Hsep|].
  induction s as [|c s IH]; intros cur.
  - exists "", "". split; [reflexivity|]. split; [reflexivity|]. left.
    split; [reflexivity|]. cbn. now rewrite append_empty_r.
  - cbn [split_go]. destruct (String.prefix (String k sep') (String c s)) eqn:Hp.
    + exists "", (String c s). split; [reflexivity|]. split; [reflexivity|]. right.
      apply prefix_iff in Hp as [rest' Hr]. exists rest'. split; [exact Hr|].
      rewrite append_empty_r. cbn [append] in Hr. injection Hr as _ ->.
      cbn [String.length Nat.sub]. rewrite Nat.sub_0_r. now rewrite split_go_skip.
    + destruct (IH (cur ++ String c "")) as (piece & rest & Hs & Hc & Hsplit).
      exists (String c piece), rest. split; [cbn [append]; now rewrite Hs|]. split.
      * cbn [contains]. rewrite Hc, orb_false_r.
        destruct (String.prefix (String k sep') (String c piece)) eqn:Hq; [|reflexivity].
        apply (prefix_app _ _ rest) in Hq. cbn [append] in Hq.
        rewrite <- Hs in Hq. congruence.
      * rewrite append_assoc in Hsplit. exact Hsplit.
Qed.

Lemma marker_no_overlap (c : ascii) (pre rest : string) :
  String.prefix "Table:" (String c pre) = false ->
  String.prefix "Table:" (String c (pre ++ "Table:" ++ rest)) = false.
Proof.
  intros H.
  destruct pre as [|c1 [|c2 [|c3 [|c4 [|c5 pre]]]]]; cbn [append];
    rewrite ?prefix_cons, ?prefix_empty in *;
    try exact H;
    destruct (Ascii.eqb "T" c); try reflexivity;
    repeat match goal with
           | |- context [Ascii.eqb ?a ?b] =>
               first [ is_var b; destruct (Ascii.eqb a b); [|reflexivity]
                     | change (Ascii.eqb a b) with false
                     | change (Ascii.eqb a b) with true ]
           end; cbn [andb]; try reflexivity.
Qed.

(** Before its first marker a line is one piece. *)
Lemma first_marker_split (pre rest : string) :
  contains "Table:" pre = false ->
  forall cur,
    split_go "Table:" 0 cur (pre ++ "Table:" ++ rest)
    = (cur ++ pre) :: split_go "Table:" 0 "" rest.
Proof.
  induction pre as [|c pre IH]; intros H cur.
  - apply (split_go_first "T" "able:" "" rest eq_refl cur).
  - cbn [contains] in H. apply orb_false_iff in H as [Hp Hc].
    change (String c pre ++ "Table:" ++ rest) with (String c (pre ++ "Table:" ++ rest)).
    cbn [split_go]. rewrite (marker_no_overlap c pre rest Hp).
    rewrite (IH Hc), append_assoc. reflexivity.
Qed.

(** White space up to the next marker or the end of the line is the
    next piece. *)
Lemma gap_is_next_piece (gap rest : string) :
  all_space gap = true ->
  rest = "" \/ String.prefix "Table:" rest = true ->
  forall cur, hd "" (split_go "Table:" 0 cur (gap ++ rest)) = cur ++ gap.
Proof.
  intros Hgap Hrest. induction gap as [|c gap IH]; intros cur.
  - rewrite append_empty_r. cbn [append]. destruct Hrest as [->|Hp]; [reflexivity|].
    destruct rest as [|d rest]; [discriminate|]. cbn [split_go]. now rewrite Hp.
  - unfold all_space in *. cbn [allb] in Hgap. apply andb_true_iff in Hgap as [Hc Hg].
    cbn [append split_go]. rewrite prefix_cons.
    destruct (Ascii.eqb "T" c) eqn:HT.
    + apply Ascii.eqb_eq in HT. subst c. discriminate Hc.
    + cbn [andb]. rewrite (IH Hg), append_assoc. reflexivity.
Qed.

Lemma split_ws_go_nil (s : string) :
  forall cur, split_ws_go cur s = [] <-> cur = "" /\ all_space s = true.
Proof.
  unfold all_space. induction s as [|c s IH]; intros cur; cbn [split_ws_go allb].
  - destruct cur; split; try discriminate; try tauto. intros [H _]. discriminate H.
  - destruct (is_space c); cbn [andb].
    + destruct cur.
      * rewrite IH. tauto.
      * split; [discriminate|]. intros [H _]. discriminate H.
    + rewrite IH. split; [|intros [_ H]; discriminate H].
      intros [H _]. destruct cur; discriminate H.
Qed.

Lemma blank_marker_iff (line : string) :
  blank_marker line = true <-> blank_after_first_marker line.
Proof.
  unfold blank_marker, blank_after_first_marker. split.
  - intros H. apply andb_true_iff in H as [Hmark Hblank].
    destruct (split_go_head "Table:" ltac:(discriminate) line "")
      as (pre & rest & Hline & Hpre & [[-> Hs]|(rest' & -> & Hs)]).
    + rewrite append_empty_r in Hline. subst pre. congruence.
    + unfold split in Hblank. rewrite Hs in Hblank. cbn [nth append] in Hblank.
      destruct (split_go_head "Table:" ltac:(discriminate) rest' "")
        as (gap & rest2 & Hrest' & _ & Hcase).
      exists pre, gap, rest2. split; [now rewrite Hline, Hrest'|].
      split; [exact Hpre|].
      assert (Hnth : nth 0 (split_go "Table:" 0 "" rest') "" = gap)
        by (destruct Hcase as [[_ ->]|(r & _ & ->)]; reflexivity).
      rewrite Hnth in Hblank. split.
      * apply (split_ws_go_nil gap "").
        unfold split_ws in Hblank. now destruct (split_ws_go "" gap).
      * destruct Hcase as [[-> _]|(r & -> & _)]; [now left | right].
        apply prefix_iff. now exists r.
  - intros (pre & gap & rest & -> & Hpre & Hgap & Hrest).
    apply andb_true_iff. split.
    + apply contains_iff. now exists pre, (gap ++ rest).
    + unfold split. rewrite (first_marker_split pre (gap ++ rest) Hpre "").
      change (nth 1 (("" ++ pre) :: split_go "Table:" 0 "" (gap ++ rest)) "")
        with (nth 0 (split_go "Table:" 0 "" (gap ++ rest)) "").
      assert (Hnth : nth 0 (split_go "Table:" 0 "" (gap ++ rest)) "" = gap).
      { pose proof (gap_is_next_piece gap rest Hgap Hrest "") as Hhd.
        destruct (split_go "Table:" 0 "" (gap ++ rest)); exact Hhd. }
      rewrite Hnth. unfold split_ws.
      now rewrite (proj2 (split_ws_go_nil gap "") (conj eq_refl Hgap)).
Qed.

(** X7.  The lookup fails in one way only: it raises IndexError, and it
    does so exactly when on some line of the schema the first marker
    [Table:] is followed by nothing but white space, up to the next
    marker or the end of the line.  A later marker with nothing behind it
    does not count. *)
Theorem lookup_raises_on_blank_marker :
  forall schema : string,
    (_extract_table_names_from_schema schema = Raise IndexError <->
     exists line, In line (split schema nl) /\ blank_after_first_marker line)
    /\ (forall e, _extract_table_names_from_schema schema = Raise e -> e = IndexError)
    /\ ((forall line, In line (split schema nl) -> ~ blank_after_first_marker line) ->
        exists tables, _extract_table_names_from_schema schema = Ok tables).
Proof.
  intros schema. unfold _extract_table_names_from_schema.
  assert (Hex : existsb blank_marker (split schema nl) = true <->
                exists line, In line (split schema nl) /\ blank_after_first_marker line).
  { rewrite existsb_exists. split; intros (line & Hin & H); exists line;
      (split; [exact Hin | now apply blank_marker_iff]). }
  pose proof (scan_lines_outcome (split schema nl) []) as H.
  destruct (existsb blank_marker (split schema nl)).
  - rewrite H. split; [split; [intros _; now apply Hex | reflexivity]|].
    split; [intros e He; now injection He as <-|].
    intros Hno. destruct (proj1 Hex eq_refl) as (line & Hin & Hb).
    now contradiction (Hno line Hin).
  - destruct H as [found ->]. split.
    + split; [discriminate|]. intros Hx. apply Hex in Hx. discriminate Hx.
    + split; [discriminate|]. intros _. now exists found.
Qed.

Lemma lookup_raises_on_blank_marker_witness :
  _extract_table_names_from_schema
    ("Table: customers Table:" ++ nl ++ "see Table:   Table: orders")
  = Raise IndexError
  /\ exists tables,
       _extract_table_names_from_schema "Table: customers Table:" = Ok tables.
Proof.
  split.
  - apply (lookup_raises_on_blank_marker
             ("Table: customers Table:" ++ nl ++ "see Table:   Table: orders")).
    exists "see Table:   Table: orders". split; [right; now left|].
    exists "see ", "   ", "Table: orders". repeat split. now right.
  - apply (lookup_raises_on_blank_marker "Table: customers Table:").
    intros line [<-|[]] Hb. apply blank_marker_iff in Hb. discriminate Hb.
Defined.

Example later_blank_marker_ex :
  _extract_table_names_from_schema "Table: customers Table:" = Ok ["customers"].
Proof. reflexivity. Qed.

Lemma split_go_no_occurrence (sep : string) (s : string) :
  contains sep s = false -> forall cur, split_go sep 0 cur s = [cur ++ s].
Proof.
  induction s as [|c s IH]; intros H cur.
  - cbn. now rewrite append_empty_r.
  - cbn [contains] in H. apply orb_false_iff in H as [Hp Hs].
    cbn [split_go]. rewrite Hp, (IH Hs), append_assoc. reflexivity.
Qed.

Lemma split_go_line (x rest : string) :
  contains nl x = false ->
  forall cur, split_go nl 0 cur (x ++ nl ++ rest) = (cur ++ x) :: split_go nl 0 "" rest.
Proof.
  induction x as [|c x IH]; intros H cur.
  - rewrite append_empty_r. unfold nl. cbn [append split_go].
    rewrite prefix_cons, Ascii.eqb_refl, prefix_empty. reflexivity.
  - cbn [contains] in H. apply orb_false_iff in H as [Hp Hs].
    cbn [append split_go].
    assert (Hp' : String.prefix nl (String c (x ++ nl ++ rest)) = false).
    { unfold nl in *. rewrite prefix_cons, prefix_empty, andb_true_r in *. exact Hp. }
    rewrite Hp', (IH Hs), append_assoc. reflexivity.
Qed.

(** Splitting at line breaks what was joined with line breaks gives the
    lines back. *)
Lemma split_join_lines (lines : list string) :
  lines <> [] ->
  (forall line, In line lines -> contains nl line = false) ->
  split (join nl lines) nl = lines.
Proof.
  unfold split. induction lines as [|x rest IH]; intros Hne Hall; [now contradiction Hne|].
  cbn [join]. destruct rest as [|y rest'].
  - rewrite split_go_no_occurrence by (apply Hall; now left). reflexivity.
  - rewrite split_go_line by (apply Hall; now left).
    cbn [append]. f_equal. apply IH; [discriminate|].
    intros line Hl. apply Hall. now right.
Qed.

Lemma no_space_no_newline (s : string) :
  allb (fun c => negb (is_space c)) s = true -> contains nl s = false.
Proof.
  induction s as [|c s IH]; [reflexivity|].
  cbn [allb contains]. intros H. apply andb_true_iff in H as [Hc Hs].
  rewrite (IH Hs), orb_false_r. unfold nl.
  rewrite prefix_cons, prefix_empty, andb_true_r.
  destruct (Ascii.eqb (ascii_of_nat 10) c) eqn:Hq; [|reflexivity].
  apply Ascii.eqb_eq in Hq. subst c. discriminate Hc.
Qed.

Lemma split_ws_go_word (s : string) :
  allb (fun c => negb (is_space c)) s = true ->
  forall cur, cur ++ s <> "" -> split_ws_go cur s = [cur ++ s].
Proof.
  induction s as [|c s IH]; intros H cur Hne.
  - cbn [split_ws_go]. rewrite append_empty_r in *. destruct cur; [now contradiction Hne | reflexivity].
  - cbn [allb] in H. apply andb_true_iff in H as [Hc Hs]. apply negb_true_iff in Hc.
    cbn [split_ws_go]. rewrite Hc, (IH Hs), append_assoc; [reflexivity|].
    rewrite append_assoc. exact Hne.
Qed.

Lemma listable_parts (name : string) :
  listable name = true ->
  name <> ""
  /\ allb (fun c => negb (is_space c)) name = true
  /\ contains "Table:" name = false.
Proof.
  unfold listable. intros H. apply andb_true_iff in H as [H H3].
  apply andb_true_iff in H as [H1 H2]. repeat split; try assumption.
  - intros ->. discriminate H1.
  - now apply negb_true_iff.
Qed.

Lemma marker_line_name (name : string) :
  listable name = true ->
  contains "Table:" ("Table: " ++ name) = true
  /\ split ("Table: " ++ name) "Table:" = [""; " " ++ name]
  /\ split_ws (" " ++ name) = [name]
  /\ strip name = name.
Proof.
  intros H. destruct (listable_parts name H) as (Hne & Hsp & Hmark).
  split; [reflexivity|]. split; [|split].
  - unfold split. cbn [append split_go String.prefix String.length Nat.sub].
    repeat match goal with
           | |- context [Ascii.ascii_dec ?a ?b] => destruct (Ascii.ascii_dec a b); [|congruence]
           end.
    cbn [split_go]. f_equal. apply (split_go_no_occurrence "Table:" (String " " name)).
    cbn [contains]. rewrite Hmark. reflexivity.
  - unfold split_ws. cbn [append split_ws_go]. change (is_space " ") with true. cbv iota.
    now apply (split_ws_go_word name Hsp "").
  - now apply strip_token.
Qed.

Lemma scan_marker_lines (names : list string) :
  forallb listable names = true ->
  forall tables,
    scan_lines (map (fun name => "Table: " ++ name) names) tables
    = Ok (tables ++ names)%list.
Proof.
  induction names as [|name rest IH]; intros H tables.
  - cbn. now rewrite app_nil_r.
  - cbn [forallb] in H. apply andb_true_iff in H as [Hn Hrest].
    destruct (marker_line_name name Hn) as (H1 & H2 & H3 & H4).
    cbn [map scan_lines]. rewrite H1, H2. cbn [List.length Nat.ltb Nat.leb nth].
    rewrite H3, H4, (IH Hrest). now rewrite <- app_assoc.
Qed.

(** X8.  The lookup reads back what is written in its own format: from a
    schema text with one line [Table: <name>] per table it returns the
    names in order, when each name is not empty and holds no white space
    and no marker. *)
Theorem lookup_reads_marker_lines :
  forall names : list string,
    forallb listable names = true ->
    _extract_table_names_from_schema
      (join nl (map (fun name => "Table: " ++ name) names))
    = Ok names.
Proof.
  intros names H. unfold _extract_table_names_from_schema.
  destruct names as [|name rest]; [reflexivity|].
  rewrite split_join_lines.
  - now apply scan_marker_lines.
  - discriminate.
  - intros line Hin. apply in_map_iff in Hin as (n & <- & Hn).
    rewrite forallb_forall in H. destruct (listable_parts n (H n Hn)) as (_ & Hsp & _).
    cbn [append contains]. rewrite (no_space_no_newline n Hsp). reflexivity.
Qed.

Lemma lookup_reads_marker_lines_witness :
  _extract_table_names_from_schema
    (join nl (map (fun name => "Table: " ++ name) ["customers"; "order_items"]))
  = Ok ["customers"; "order_items"].
Proof.
  apply (lookup_reads_marker_lines ["customers"; "order_items"]). reflexivity.
Defined.

(** X9.  The cap on rows is dropped whenever the lower-cased request
    holds "limit" or "all" anywhere, also inside another word: the SQL is
    then SELECT * FROM the first listed table found in the request, the
    WHERE comment if "where", "with" or "having" occurs, and the
    semicolon. *)
Theorem row_cap_dropped :
  forall (query schema : string) (pre post : list string) (name : string),
    _extract_table_names_from_schema schema = Ok (pre ++ name :: post)%list ->
    (forall u, In u pre -> contains (lower u) (lower query) = false) ->
    contains (lower name) (lower query) = true ->
    contains "limit" (lower query) || contains "all" (lower query) = true ->
    _construct_select_query query schema
    = Ok (Some ("SELECT * FROM " ++ name
                  ++ (if any_in ["where"; "with"; "having"] (lower query)
                      then nl ++ "-- Add WHERE clause as needed" else "")
                  ++ ";")).
Proof.
  intros query schema pre post name Hs Hpre Hname Hcap.
  unfold _construct_select_query. cbv zeta. rewrite Hs. cbn [bind].
  rewrite (find_first _ (fun tb => contains (lower tb) (lower query)) pre post name Hpre Hname).
  rewrite (schema_tables_truthy _ _ Hs name) by (apply in_or_app; right; now left).
  cbn [negb].
  assert (Hno : negb (contains "limit" (lower query)) && negb (contains "all" (lower query)) = false).
  { destruct (contains "limit" (lower query)); [reflexivity|].
    destruct (contains "all" (lower query)); [reflexivity | discriminate Hcap]. }
  rewrite Hno.
  destruct (any_in ["where"; "with"; "having"] (lower query));
    rewrite ?append_assoc, ?append_empty_r; reflexivity.
Qed.

Lemma row_cap_dropped_witness :
  _construct_select_query "Find small orders" ("Table: customers" ++ nl ++ "Table: orders")
  = Ok (Some "SELECT * FROM orders;").
Proof.
  apply (row_cap_dropped "Find small orders" ("Table: customers" ++ nl ++ "Table: orders")
           ["customers"] [] "orders").
  - reflexivity.
  - intros u [<-|[]]. reflexivity.
  - reflexivity.
  - reflexivity.
Defined.

(** ** The compact summary, line by line *)

Lemma no_newline_app (x y : string) :
  contains nl x = false -> contains nl y = false -> contains nl (x ++ y) = false.
Proof.
  intros Hx Hy. induction x as [|c x IH]; [exact Hy|].
  cbn [contains] in Hx. apply orb_false_iff in Hx as [Hp Hx].
  cbn [append contains]. rewrite (IH Hx), orb_false_r.
  unfold nl in *. rewrite prefix_cons, prefix_empty, andb_true_r in *. exact Hp.
Qed.

Lemma no_newline_str_of_nat (n : nat) : contains nl (str_of_nat n) = false.
Proof.
  unfold str_of_nat. generalize (Nat.to_uint n). intros d.
  induction d; cbn [NilEmpty.string_of_uint]; try reflexivity;
    cbn [contains]; rewrite IHd; reflexivity.
Qed.

(** X10.  The compact summary of a database with tables has one line
    for the header and one line per table, in the catalogue's order, when
    no name holds a line break; the lookup scans exactly these lines. *)
Theorem compact_summary_lines :
  forall (db : string) (tables : list SchemaExtractor.TableDetails),
    tables <> [] ->
    contains nl db = false ->
    (forall details, In details tables ->
       contains nl (SchemaExtractor.compact_table_line details) = false) ->
    split (SchemaExtractor.compact_text db tables) nl
    = ("Database '" ++ db ++ "' - " ++ str_of_nat (List.length tables) ++ " tables:")
      :: map SchemaExtractor.compact_table_line tables.
Proof.
  intros db tables Hne Hdb Hlines. unfold SchemaExtractor.compact_text.
  destruct tables as [|tb tbs]; [now contradiction Hne|].
  apply split_join_lines; [discriminate|].
  intros line [<-|Hin].
  - repeat apply no_newline_app; try assumption; try reflexivity.
    apply no_newline_str_of_nat.
  - apply in_map_iff in Hin as (details & <- & Hd). now apply Hlines.
Qed.

Lemma compact_summary_lines_witness :
  split (SchemaExtractor.compact_text "shop" users_catalog) nl
  = ("Database '" ++ "shop" ++ "' - " ++ str_of_nat 1 ++ " tables:")
    :: map SchemaExtractor.compact_table_line users_catalog.
Proof.
  apply (compact_summary_lines "shop" users_catalog).
  - discriminate.
  - reflexivity.
  - intros details [<-|[]]. vm_compute. reflexivity.
Defined.

(** ** Execution with retries *)

Lemma executor_sends_bounded (w : Main.Collaborators) (remaining : nat) :
  forall (sql : string) (sent : Main.Sent),
    List.length (snd (Main.executor_execute w remaining sql sent))
    <= List.length sent + remaining + 1.
Proof.
  induction remaining as [|k IH]; intros sql sent;
    cbn [Main.executor_execute Main.handler_execute].
  - destruct (Main.db_answer w sent sql); cbn [snd]; rewrite length_app; cbn; lia.
  - destruct (Main.db_answer w sent sql) as [payload|error];
      [cbn [snd]; rewrite length_app; cbn; lia|].
    destruct (Main.fixed_sql w sql error) as [fixed|];
      [|cbn [snd]; rewrite length_app; cbn; lia].
    destruct (truthy fixed); [|cbn [snd]; rewrite length_app; cbn; lia].
    specialize (IH fixed (sent ++ [sql])%list). rewrite length_app in IH.
    cbn [List.length] in IH. lia.
Qed.

(** X11.  One call of the execute endpoint hands at most
    max(MAX_RETRY_ATTEMPTS, 0) + 1 statements to the database, and none at
    all when the request is not confirmed or the schema cannot be loaded.
    With a setting of zero or below, a confirmed request whose schema
    loads has exactly its own statement run: the limit is tested after
    the statement has been handed over. *)
Theorem execute_endpoint_sends_bounded :
  forall (w : Main.Collaborators) (request : Main.SQLExecutionRequest)
         (sent : Main.Sent),
    List.length (snd (Main.execute_sql w request sent))
    <= List.length sent + Z.to_nat (Main.MAX_RETRY_ATTEMPTS w) + 1
    /\ (Main.confirm request = false
        \/ (exists e, Main.get_schema w (Main.db_name request) = Raise e) ->
        snd (Main.execute_sql w request sent) = sent)
    /\ ((Main.MAX_RETRY_ATTEMPTS w <= 0)%Z ->
        Main.confirm request = true ->
        (exists schema, Main.get_schema w (Main.db_name request) = Ok schema) ->
        snd (Main.execute_sql w request sent) = (sent ++ [Main.sql request])%list).
Proof.
  intros w request sent. unfold Main.execute_sql. split; [|split].
  - destruct (Main.confirm request); cbn [negb snd]; [|lia].
    destruct (Main.get_schema w (Main.db_name request)); cbn [snd]; [|lia].
    pose proof (executor_sends_bounded w (Z.to_nat (Main.MAX_RETRY_ATTEMPTS w))
                  (Main.sql request) sent) as H.
    destruct (Main.executor_execute w (Z.to_nat (Main.MAX_RETRY_ATTEMPTS w))
                (Main.sql request) sent). exact H.
  - intros [Hc|[e He]].
    + now rewrite Hc.
    + destruct (Main.confirm request); [|reflexivity]. now rewrite He.
  - intros Hmax Hc [schema Hs]. rewrite Hc, Hs. cbn [negb].
    replace (Z.to_nat (Main.MAX_RETRY_ATTEMPTS w)) with 0 by lia.
    cbn [Main.executor_execute Main.handler_execute].
    destruct (Main.db_answer w sent (Main.sql request)); reflexivity.
Qed.

Lemma execute_endpoint_sends_bounded_witness :
  snd (Main.execute_sql accepting
         {| Main.db_name := "dvdrental"; Main.sql := "DELETE FROM actor;";
            Main.confirm := false |} ["SELECT 1;"])
  = ["SELECT 1;"]
  /\ snd (Main.execute_sql rejecting
            {| Main.db_name := "dvdrental"; Main.sql := "SELEC 1;";
               Main.confirm := true |} [])
     = ["SELEC 1;"].
Proof.
  split.
  - destruct (execute_endpoint_sends_bounded accepting
                {| Main.db_name := "dvdrental"; Main.sql := "DELETE FROM actor;";
                   Main.confirm := false |} ["SELECT 1;"]) as (_ & H & _).
    apply H. left. reflexivity.
  - destruct (execute_endpoint_sends_bounded rejecting
                {| Main.db_name := "dvdrental"; Main.sql := "SELEC 1;";
                   Main.confirm := true |} []) as (_ & _ & H).
    apply H; [discriminate | reflexivity | now exists ""].
Defined.

Lemma fixed_sql_not_null (kickoff : res string) (fixed : string) :
  SQLExecutorAgent.fixed_sql (SQLExecutorAgent._analyze_and_fix_error kickoff)
  = Some fixed ->
  lower fixed <> "null".
Proof.
  unfold SQLExecutorAgent._analyze_and_fix_error.
  destruct kickoff as [result|e]; [|discriminate].
  cbv zeta. cbn [SQLExecutorAgent.fixed_sql].
  destruct (contains "FIXED_SQL:" result); [|discriminate].
  match goal with
  | |- (if String.eqb ?a ?b then _ else _) = _ -> _ =>
      destruct (String.eqb a b) eqn:Hnull; [discriminate|]
  end.
  intros H. injection H as <-. now apply String.eqb_neq.
Qed.

Ltac stops_at sql :=
  exists [], sql; rewrite app_nil_r; cbn [app hd List.length tl];
  split; [reflexivity|]; split; [reflexivity|]; split; [lia|];
  split; [let H := fresh in intros [|? ?] ? ? H; discriminate H|];
  split; [intros ? []|].

(** What one call of the executor hands to the database, and what its
    response says about the database's answers. *)
Lemma executor_agent_invariant (w : SQLExecutorAgent.Env) (remaining : nat) :
  forall (sql : string) (sent : Main.Sent),
  exists (before : list string) (final : string),
    snd (SQLExecutorAgent.execute w remaining sql sent)
    = (sent ++ before ++ [final])%list
    /\ hd final before = sql
    /\ List.length before <= remaining
    /\ (forall pre x post,
          before = (pre ++ x :: post)%list ->
          exists error, SQLExecutorAgent.db_answer w (sent ++ pre) x
                        = Main.DbFailure error)
    /\ (forall x, In x (tl (before ++ [final])) -> x <> "" /\ lower x <> "null")
    /\ match fst (SQLExecutorAgent.execute w remaining sql sent) with
       | SQLExecutorAgent.Executed payload =>
           SQLExecutorAgent.db_answer w (sent ++ before) final = Main.DbSuccess payload
       | SQLExecutorAgent.GaveUp error _ =>
           SQLExecutorAgent.db_answer w (sent ++ before) final = Main.DbFailure error
           /\ List.length before = remaining
       | SQLExecutorAgent.NotFixed error _ _ =>
           SQLExecutorAgent.db_answer w (sent ++ before) final = Main.DbFailure error
       end.
Proof.
  induction remaining as [|k IH]; intros sql sent.
  - cbn [SQLExecutorAgent.execute].
    destruct (SQLExecutorAgent.db_answer w sent sql) as [payload|error] eqn:Hans;
      cbn [fst snd]; stops_at sql; [assumption | now split].
  - cbn [SQLExecutorAgent.execute].
    destruct (SQLExecutorAgent.db_answer w sent sql) as [payload|error] eqn:Hans;
      cbn [fst snd]; [stops_at sql; assumption|].
    set (fix_result := SQLExecutorAgent._analyze_and_fix_error
                         (SQLExecutorAgent.kickoff w sql error)).
    destruct (SQLExecutorAgent.can_retry fix_result
              && truthy_opt (SQLExecutorAgent.fixed_sql fix_result)) eqn:Hretry;
      [|cbn [fst snd]; stops_at sql; assumption].
    destruct (SQLExecutorAgent.fixed_sql fix_result) as [fixed|] eqn:Hfixed;
      [|cbn [fst snd]; stops_at sql; assumption].
    apply andb_true_iff in Hretry as [_ Htruthy]. cbn [truthy_opt] in Htruthy.
    assert (Hgood : fixed <> "" /\ lower fixed <> "null").
    { split; [intros ->; discriminate Htruthy|].
      exact (fixed_sql_not_null (SQLExecutorAgent.kickoff w sql error) fixed Hfixed). }
    destruct (IH fixed (sent ++ [sql])%list)
      as (before & final & Hsent & Hhd & Hlen & Hfail & Hlater & Hres).
    exists (sql :: before), final. split; [|split; [|split; [|split; [|split]]]].
    + rewrite Hsent, <- !app_assoc. reflexivity.
    + reflexivity.
    + cbn [List.length]. lia.
    + intros pre x post H. destruct pre as [|p pre].
      * cbn [app] in H. injection H as <- _. rewrite app_nil_r. now exists error.
      * cbn [app] in H. injection H as <- H.
        destruct (Hfail pre x post H) as [err Herr]. exists err.
        now rewrite <- app_assoc in Herr.
    + cbn [app tl]. intros x Hx. destruct before as [|b0 before'].
      * cbn [app hd] in *. destruct Hx as [<-|[]]. now subst final.
      * cbn [app hd] in *. subst b0. destruct Hx as [<-|Hx]; [exact Hgood|].
        apply Hlater. exact Hx.
    + rewrite <- app_assoc in Hres. cbn [app] in Hres.
      destruct (fst (SQLExecutorAgent.execute w k fixed (sent ++ [sql])%list));
        [assumption | split; [tauto | cbn [List.length]; lia] | assumption].
Qed.

(** X12.  One call of the executor agent with [remaining] retries left
    hands the statement and then at most [remaining] corrected statements
    to the database.  Every statement but the last one failed, every
    corrected statement is a non-empty text that does not read null, the
    response reports the database's answer to the last statement, and the
    agent gives up only after using all its retries. *)
Theorem executor_retry_discipline :
  forall (w : SQLExecutorAgent.Env) (remaining : nat) (sql : string)
         (sent : Main.Sent),
  exists (before : list string) (final : string),
    snd (SQLExecutorAgent.execute w remaining sql sent)
    = (sent ++ before ++ [final])%list
    /\ hd final before = sql
    /\ List.length before <= remaining
    /\ (forall pre x post,
          before = (pre ++ x :: post)%list ->
          exists error, SQLExecutorAgent.db_answer w (sent ++ pre) x
                        = Main.DbFailure error)
    /\ (forall x, In x (tl (before ++ [final])) -> x <> "" /\ lower x <> "null")
    /\ match fst (SQLExecutorAgent.execute w remaining sql sent) with
       | SQLExecutorAgent.Executed payload =>
           SQLExecutorAgent.db_answer w (sent ++ before) final = Main.DbSuccess payload
       | SQLExecutorAgent.GaveUp error _ =>
           SQLExecutorAgent.db_answer w (sent ++ before) final = Main.DbFailure error
           /\ List.length before = remaining
       | SQLExecutorAgent.NotFixed error _ _ =>
           SQLExecutorAgent.db_answer w (sent ++ before) final = Main.DbFailure error
       end.
Proof. intros w remaining. apply executor_agent_invariant. Qed.

(** ** Reading the model's answers *)

Lemma take_append (a b : string) (n : nat) :
  String.length a <= n -> take n (a ++ b) = a ++ take (n - String.length a) b.
Proof.
  revert n. induction a as [|c a IH]; intros n H.
  - cbn [append String.length]. now rewrite Nat.sub_0_r.
  - cbn [String.length] in H. destruct n as [|n]; [lia|].
    cbn [append take String.length Nat.sub]. rewrite IH by lia. reflexivity.
Qed.

Lemma mem_char_append (k : ascii) (a b : string) :
  mem_char k (a ++ b) = mem_char k a || mem_char k b.
Proof.
  induction a as [|c a IH]; [reflexivity|].
  cbn [append mem_char]. now rewrite IH, orb_assoc.
Qed.

Lemma contains_skip (k : ascii) (kw x y : string) :
  mem_char k x = false ->
  contains (String k kw) (x ++ y) = contains (String k kw) y.
Proof.
  induction x as [|c x IH]; intros H; [reflexivity|].
  cbn [mem_char] in H. apply orb_false_iff in H as [Hkc Hx].
  cbn [append contains]. rewrite prefix_cons, Hkc. cbn [andb orb]. now apply IH.
Qed.

(** X13.  A well-formed answer of the model is read back: from
    CAN_RETRY: yes, FIXED_SQL: <sql>, ANALYSIS: <text> on three lines the
    executor takes <sql> as the corrected statement and decides to retry,
    when <sql> holds no capital A or F, is left unchanged by the removal of
    outer white space and quotes, and does not read null, and <text> does
    not hold the marker FIXED_SQL: again. *)
Theorem fix_answer_read_back :
  forall sql text : string,
    mem_char "F" sql = false ->
    mem_char "A" sql = false ->
    strip sql = sql ->
    strip_chars squote (strip_chars dquote (strip_chars bquote sql)) = sql ->
    lower sql <> "null" ->
    contains "FIXED_SQL:" text = false ->
    let answer :=
      "CAN_RETRY: yes" ++ nl ++ "FIXED_SQL: " ++ sql ++ nl ++ "ANALYSIS: " ++ text in
    SQLExecutorAgent.can_retry (SQLExecutorAgent._analyze_and_fix_error (Ok answer)) = true
    /\ SQLExecutorAgent.fixed_sql (SQLExecutorAgent._analyze_and_fix_error (Ok answer))
       = Some sql.
Proof.
  intros sql text HF HA Hstrip Hquotes Hnull Htext answer.
  set (after := " " ++ sql ++ nl ++ "ANALYSIS: " ++ text).
  assert (Hanswer : answer = ("CAN_RETRY: yes" ++ nl) ++ "FIXED_SQL:" ++ after)
    by reflexivity.
  assert (Hafter : after = (" " ++ sql ++ nl) ++ "ANALYSIS:" ++ " " ++ text)
    by (unfold after; rewrite !append_assoc; reflexivity).
  assert (Hmark : contains "FIXED_SQL:" answer = true)
    by (apply contains_iff; now exists ("CAN_RETRY: yes" ++ nl), after).
  assert (Hnone : contains "FIXED_SQL:" after = false).
  { unfold after.
    replace (" " ++ sql ++ nl ++ "ANALYSIS: " ++ text)
      with ((" " ++ sql ++ nl ++ "ANALYSIS: ") ++ text)
      by (rewrite !append_assoc; reflexivity).
    rewrite contains_skip; [exact Htext|].
    rewrite !mem_char_append, HF. reflexivity. }
  assert (Hpart : nth 1 (split answer "FIXED_SQL:") "" = after).
  { unfold split. rewrite Hanswer.
    rewrite (split_go_first "F" "IXED_SQL:" ("CAN_RETRY: yes" ++ nl) after eq_refl).
    rewrite (split_go_no_occurrence _ _ Hnone). reflexivity. }
  assert (Hline : hd "" (split after "ANALYSIS:") = " " ++ sql ++ nl).
  { unfold split. rewrite Hafter.
    rewrite (split_go_first "A" "NALYSIS:" (" " ++ sql ++ nl) (" " ++ text)).
    - reflexivity.
    - rewrite !mem_char_append, HA. reflexivity. }
  assert (Hlines : strip (" " ++ sql ++ nl) = sql).
  { rewrite (strip_pad " " nl sql eq_refl eq_refl). exact Hstrip. }
  unfold SQLExecutorAgent._analyze_and_fix_error. cbv zeta.
  cbn [SQLExecutorAgent.can_retry SQLExecutorAgent.fixed_sql].
  rewrite Hmark, Hpart, Hline, Hlines, Hstrip, Hquotes.
  apply String.eqb_neq in Hnull. rewrite Hnull. cbn [SQLExecutorAgent.is_some].
  rewrite andb_true_r. split; [|reflexivity].
  rewrite Hanswer. unfold lower. rewrite map_str_app.
  rewrite take_append by (cbn; lia).
  apply contains_app_l. reflexivity.
Qed.

Lemma fix_answer_read_back_witness :
  SQLExecutorAgent.fixed_sql
    (SQLExecutorAgent._analyze_and_fix_error
       (Ok ("CAN_RETRY: yes" ++ nl ++ "FIXED_SQL: " ++ "select id from actor;" ++ nl
              ++ "ANALYSIS: " ++ "The column was misspelled.")))
  = Some "select id from actor;".
Proof.
  apply (fix_answer_read_back "select id from actor;" "The column was misspelled.");
    try reflexivity.
  discriminate.
Defined.

(** ** The generator agent *)

Lemma prefix_contains (p s : string) :
  String.prefix p s = true -> contains p s = true.
Proof. intros H. destruct s; cbn [contains]; now rewrite H. Qed.

(** X14.  The generator's typing and the admin agent's safety verdict
    agree on writes and reads: a statement typed INSERT, UPDATE or DELETE
    is rated modify or dangerous, never safe, and a statement typed
    SELECT is never rated unknown. *)
Theorem query_type_agrees_with_safety :
  forall sql : string,
    match SQLGeneratorAgent._detect_query_type sql with
    | SQLGeneratorAgent.INSERT | SQLGeneratorAgent.UPDATE | SQLGeneratorAgent.DELETE =>
        In (level (_analyze_safety sql)) ["modify"; "dangerous"]
    | SQLGeneratorAgent.SELECT =>
        In (level (_analyze_safety sql)) ["safe"; "modify"; "dangerous"]
    | SQLGeneratorAgent.OTHER => True
    end.
Proof.
  intros sql. unfold SQLGeneratorAgent._detect_query_type. cbv zeta.
  rewrite safety_cases. cbv zeta. unfold startswith.
  assert (Hmod : forall kw, In kw modify_keywords ->
                   String.prefix kw (strip (upper sql)) = true ->
                   In (if any_in dangerous_keywords (strip (upper sql)) then "dangerous"
                       else if any_in modify_keywords (strip (upper sql)) then "modify"
                       else if startswith_any (strip (upper sql)) safe_prefixes then "safe"
                       else "unknown") ["modify"; "dangerous"]).
  { intros kw Hin Hp. destruct (any_in dangerous_keywords _); [cbn; tauto|].
    assert (Hany : any_in modify_keywords (strip (upper sql)) = true).
    { unfold any_in. apply existsb_exists. exists kw. split; [assumption|].
      now apply prefix_contains. }
    rewrite Hany. cbn; tauto. }
  destruct (String.prefix "SELECT" (strip (upper sql))) eqn:Hsel.
  - destruct (any_in dangerous_keywords _); [cbn; tauto|].
    destruct (any_in modify_keywords _); [cbn; tauto|].
    unfold startswith_any, safe_prefixes, startswith. cbn [existsb].
    rewrite Hsel. cbn; tauto.
  - destruct (String.prefix "INSERT" (strip (upper sql))) eqn:Hins;
      [apply (Hmod "INSERT"); [cbn; tauto | assumption]|].
    destruct (String.prefix "UPDATE" (strip (upper sql))) eqn:Hupd;
      [apply (Hmod "UPDATE"); [cbn; tauto | assumption]|].
    destruct (String.prefix "DELETE" (strip (upper sql))) eqn:Hdel;
      [apply (Hmod "DELETE"); [cbn; tauto | assumption]|].
    exact I.
Qed.

Lemma rstrip_keeps (x y : string) :
  rstrip y <> "" -> rstrip (x ++ y) = x ++ rstrip y.
Proof.
  intros Hy. induction x as [|c x IH]; [reflexivity|].
  cbn [append rstrip]. rewrite IH.
  destruct (x ++ rstrip y) eqn:Hxy; [|reflexivity].
  destruct x; [now contradiction Hy | discriminate].
Qed.

Lemma rstrip_chars_keeps (chars x y : string) :
  rstrip_chars chars y <> "" ->
  rstrip_chars chars (x ++ y) = x ++ rstrip_chars chars y.
Proof.
  intros Hy. induction x as [|c x IH]; [reflexivity|].
  cbn [append rstrip_chars]. rewrite IH.
  destruct (x ++ rstrip_chars chars y) eqn:Hxy; [|reflexivity].
  destruct x; [now contradiction Hy | discriminate].
Qed.

(** X15.  The cleaning of the model's answer removes bare quotes only: an
    answer wrapped in a fence with the language tag sql keeps the tag as
    the first line of the SQL, is typed OTHER and gets no warning,
    whatever statement it holds. *)
Theorem fenced_answer_keeps_tag :
  forall body : string,
    SQLGeneratorAgent.generate
      (Ok ("```sql" ++ nl ++ body ++ nl ++ "```"))
    = SQLGeneratorAgent.Generated ("sql" ++ nl ++ body ++ nl)
        SQLGeneratorAgent.OTHER None.
Proof.
  intros body. unfold SQLGeneratorAgent.generate. cbv zeta.
  assert (Hstrip : strip ("```sql" ++ nl ++ body ++ nl ++ "```")
                   = "```sql" ++ nl ++ body ++ nl ++ "```").
  { unfold strip.
    change (lstrip ("```sql" ++ nl ++ body ++ nl ++ "```"))
      with ("```sql" ++ nl ++ body ++ nl ++ "```").
    replace ("```sql" ++ nl ++ body ++ nl ++ "```")
      with (("```sql" ++ nl ++ body ++ nl) ++ "```")
      by (rewrite !append_assoc; reflexivity).
    rewrite rstrip_keeps by discriminate. reflexivity. }
  assert (Hfence : strip_chars bquote ("```sql" ++ nl ++ body ++ nl ++ "```")
                   = "sql" ++ nl ++ body ++ nl).
  { unfold strip_chars.
    change (lstrip_chars bquote ("```sql" ++ nl ++ body ++ nl ++ "```"))
      with ("sql" ++ nl ++ body ++ nl ++ "```").
    replace ("sql" ++ nl ++ body ++ nl ++ "```")
      with (("sql" ++ nl ++ body) ++ (nl ++ "```"))
      by (rewrite !append_assoc; reflexivity).
    rewrite rstrip_chars_keeps by discriminate.
    change (rstrip_chars bquote (nl ++ "```")) with nl.
    rewrite !append_assoc. reflexivity. }
  assert (Hquote : forall q, mem_char "s" q = false ->
                     mem_char (ascii_of_nat 10) q = false ->
                     strip_chars q ("sql" ++ nl ++ body ++ nl)
                     = "sql" ++ nl ++ body ++ nl).
  { intros q Hs Hn. unfold strip_chars.
    assert (Hl : lstrip_chars q ("sql" ++ nl ++ body ++ nl)
                 = "sql" ++ nl ++ body ++ nl)
      by (cbn [append lstrip_chars]; now rewrite Hs).
    rewrite Hl.
    replace ("sql" ++ nl ++ body ++ nl) with (("sql" ++ nl ++ body) ++ nl)
      by (rewrite !append_assoc; reflexivity).
    assert (Hr : rstrip_chars q nl = nl)
      by (unfold nl; cbn [rstrip_chars]; now rewrite Hn).
    rewrite rstrip_chars_keeps; rewrite Hr; [reflexivity | discriminate]. }
  rewrite Hstrip, Hfence, !Hquote by reflexivity.
  assert (Htype : SQLGeneratorAgent._detect_query_type ("sql" ++ nl ++ body ++ nl)
                  = SQLGeneratorAgent.OTHER).
  { unfold SQLGeneratorAgent._detect_query_type, startswith, strip. cbv zeta.
    change (upper ("sql" ++ nl ++ body ++ nl)) with ("SQL" ++ nl ++ upper (body ++ nl)).
    change (lstrip ("SQL" ++ nl ++ upper (body ++ nl)))
      with ("SQL" ++ nl ++ upper (body ++ nl)).
    rewrite !prefix_rstrip by reflexivity. reflexivity. }
  rewrite Htype. reflexivity.
Qed.

(** ** The schema cache *)

Lemma store_lookup (db schema : string) (cache : SchemaCache.Cache) :
  SchemaCache.store db schema cache db = Some schema.
Proof. unfold SchemaCache.store. now rewrite String.eqb_refl. Qed.

Lemma store_other (db schema other : string) (cache : SchemaCache.Cache) :
  other <> db -> SchemaCache.store db schema cache other = cache other.
Proof.
  intros H. unfold SchemaCache.store. apply String.eqb_neq in H. now rewrite H.
Qed.

(** X16.  Once a schema text is cached for a database, every later
    [get_schema] for it returns that text and leaves the cache as it is,
    whatever the catalogue holds by then; entries of other databases are
    not touched. *)
Theorem cached_schema_is_reused :
  forall (catalogs catalogs' : SchemaCache.Catalogs) (db schema : string)
         (cache : SchemaCache.Cache),
    fst (SchemaCache.get_schema catalogs db cache) = Ok schema ->
    let cache' := snd (SchemaCache.get_schema catalogs db cache) in
    SchemaCache.get_schema catalogs' db cache' = (Ok schema, cache')
    /\ (forall other, other <> db -> cache' other = cache other).
Proof.
  intros catalogs catalogs' db schema cache. unfold SchemaCache.get_schema.
  destruct (cache db) as [cached|] eqn:Hc.
  - cbn [fst snd]. intros H. injection H as ->. rewrite Hc. split; reflexivity.
  - destruct (SchemaExtractor.extract_schema (SchemaCache.extractor catalogs db))
      as [text|e]; cbn [fst snd]; [|discriminate].
    intros H. injection H as ->. rewrite store_lookup. split; [reflexivity|].
    intros other Hne. now apply store_other.
Qed.

Lemma cached_schema_is_reused_witness :
  SchemaCache.get_schema (fun _ => Ok users_catalog) "shop"
    (snd (SchemaCache.get_schema (fun _ => Ok []) "shop" SchemaCache.empty))
  = (Ok "Database 'shop': No tables found in public schema.",
     snd (SchemaCache.get_schema (fun _ => Ok []) "shop" SchemaCache.empty)).
Proof.
  apply (cached_schema_is_reused (fun _ => Ok []) (fun _ => Ok users_catalog) "shop"
           "Database 'shop': No tables found in public schema." SchemaCache.empty).
  reflexivity.
Defined.

(** X17.  The extract endpoint refreshes the cache: when it answers, the
    text it returns replaces whatever was cached for the database and is
    what [get_schema] returns from then on; when extraction raises it
    answers with status 500 and leaves the cache as it was. *)
Theorem extract_endpoint_refreshes_cache :
  forall (catalogs : SchemaCache.Catalogs) (db : string) (cache : SchemaCache.Cache),
    match SchemaCache.extract_schema catalogs db cache with
    | (Main.Returned response, cache') =>
        exists text,
          SchemaCache.schema response = Some text
          /\ SchemaExtractor.extract_schema (SchemaCache.extractor catalogs db) = Ok text
          /\ (forall catalogs', SchemaCache.get_schema catalogs' db cache' = (Ok text, cache'))
          /\ (forall other, other <> db -> cache' other = cache other)
    | (Main.HTTPException status _, cache') => status = 500 /\ cache' = cache
    end.
Proof.
  intros catalogs db cache. unfold SchemaCache.extract_schema.
  destruct (SchemaExtractor.extract_schema (SchemaCache.extractor catalogs db))
    as [text|e]; [|split; reflexivity].
  exists text. cbn [SchemaCache.schema]. split; [reflexivity|]. split; [reflexivity|].
  split.
  - intros catalogs'. unfold SchemaCache.get_schema. now rewrite store_lookup.
  - intros other Hne. now apply store_other.
Qed.

(** ** The agent's own schema context *)

Lemma compact_text_truthy (db : string) (tables : list SchemaExtractor.TableDetails) :
  truthy (SchemaExtractor.compact_text db tables) = true.
Proof.
  unfold SchemaExtractor.compact_text. destruct tables as [|tb tbs]; [reflexivity|].
  cbn [join map]. destruct (map SchemaExtractor.compact_table_line tbs); reflexivity.
Qed.

(** X18.  The agent loads its schema context once: the text it gets is
    never empty, and every later load returns the same text and changes
    nothing, whatever the extractor would give by then. *)
Theorem schema_context_loaded_once :
  forall (self : t) (extractor' : SchemaExtractor.t),
    let schema := fst (_load_schema_context self) in
    let self' := snd (_load_schema_context self) in
    schema <> ""
    /\ schema_context self' = Some schema
    /\ _load_schema_context
         {| db_name := db_name self';
            schema_extractor := extractor';
            schema_context := schema_context self' |}
       = (schema,
          {| db_name := db_name self';
             schema_extractor := extractor';
             schema_context := schema_context self' |}).
Proof.
  intros self extractor'.
  assert (Hfresh : truthy match SchemaExtractor.extract_schema_compact (schema_extractor self) with
                          | Ok schema => schema
                          | Raise _ => "Schema unavailable"
                          end = true).
  { unfold SchemaExtractor.extract_schema_compact.
    destruct (SchemaExtractor.catalog (schema_extractor self)); cbn [bind];
      [apply compact_text_truthy | reflexivity]. }
  assert (Hload : forall s, truthy s = true ->
            s <> ""
            /\ _load_schema_context
                 {| db_name := db_name self; schema_extractor := extractor';
                    schema_context := Some s |}
               = (s, {| db_name := db_name self; schema_extractor := extractor';
                        schema_context := Some s |})).
  { intros s Hs. split; [intros ->; discriminate Hs|].
    unfold _load_schema_context. cbn [schema_context]. now rewrite Hs. }
  cbv zeta. destruct (_load_schema_context self) as [schema self'] eqn:Hl.
  cbn [fst snd]. unfold _load_schema_context in Hl.
  destruct (schema_context self) as [s|] eqn:Hctx.
  - destruct (truthy s) eqn:Hs; injection Hl as <- <-; cbn [db_name schema_context].
    + rewrite Hctx. destruct (Hload s Hs) as [H1 H2]. now repeat split.
    + destruct (Hload _ Hfresh) as [H1 H2]. now repeat split.
  - injection Hl as <- <-. cbn [db_name schema_context].
    destruct (Hload _ Hfresh) as [H1 H2]. now repeat split.
Qed.

(** ** The generate endpoint *)

Lemma generate_raises (query schema : string) (intent : Intent) (e : exn) :
  _generate_sql query intent schema = Raise e ->
  type intent = "data_query"
  /\ _extract_table_names_from_schema schema = Raise e.
Proof.
  unfold _generate_sql. cbv zeta.
  repeat match goal with
         | |- context [if String.eqb (type intent) ?k then _ else _] =>
             let Hk := fresh "Hk" in
             destruct (String.eqb (type intent) k) eqn:Hk;
             [try discriminate|]
         end; try discriminate.
  - destruct (or_else (table intent) (_extract_table_name (lower query))) as [tb|];
      [destruct (truthy tb)|]; discriminate.
  - intros H. split; [now apply String.eqb_eq|].
    unfold _construct_select_query in H. cbv zeta in H.
    destruct (_extract_table_names_from_schema schema) as [tables|e']; cbn [bind] in H.
    + destruct (find (fun tb => contains (lower tb) (lower query)) tables) as [tb|];
        [destruct (truthy tb)|]; discriminate H.
    + injection H as ->. reflexivity.
Qed.

(** X19.  The generate endpoint always answers, and a failure it answers
    has one of two forms.  The endpoint's own, whose error reads Failed to
    generate SQL: list index out of range and whose list has seven
    suggestions, is returned exactly when the request is a data query and
    the table-name lookup raises IndexError on the agent's schema.  Every
    other failure is the agent's, with its eight suggestions. *)
Theorem generate_endpoint_failures :
  forall (db : string) (catalog : res (list SchemaExtractor.TableDetails))
         (query : string),
    (type (_analyze_intent query) = "data_query"
     /\ _extract_table_names_from_schema
          (fst (_load_schema_context (init db catalog)))
        = Raise IndexError
     <-> Main.smart_admin_generate db catalog query
         = Failure "Failed to generate SQL: list index out of range"
             [ "Try: 'Show all tables'"; "Try: 'Show table sizes'";
               "Try: 'List all indexes'"; "Try: 'Describe table actor'";
               "Try: 'Show database size'"; "Try: 'Show row counts'";
               "Try: 'Show active connections'" ])
    /\ (forall (error : string) (suggestions : list string),
          Main.smart_admin_generate db catalog query = Failure error suggestions ->
          error <> "Failed to generate SQL: list index out of range" ->
          error = "Could not generate SQL query. Please rephrase your request."
          /\ suggestions = _get_suggestions query
          /\ List.length suggestions = 8
          /\ exists sql,
               _generate_sql query (_analyze_intent query)
                 (fst (_load_schema_context (init db catalog))) = Ok sql
               /\ truthy_opt sql = false).
Proof.
  intros db catalog query. unfold Main.smart_admin_generate, process_query.
  destruct (_load_schema_context (init db catalog)) as [schema self'].
  cbn [fst].
  destruct (_generate_sql query (_analyze_intent query) schema) as [sql|e] eqn:Hgen;
    cbn [fst].
  - split.
    + split.
      * intros [Hkind Hraise]. rewrite (generate_data_query _ _ _ Hkind) in Hgen.
        unfold _construct_select_query in Hgen. cbv zeta in Hgen.
        rewrite Hraise in Hgen. discriminate Hgen.
      * destruct (negb (truthy_opt sql)); discriminate.
    + intros error suggestions H _.
      destruct (truthy_opt sql) eqn:Ht; cbn [negb] in H; [discriminate|].
      injection H as <- <-. repeat split. now exists sql.
  - apply generate_raises in Hgen as [Hkind Hraise].
    pose proof (lookup_raises_index_error schema e Hraise) as ->.
    split.
    + split; [reflexivity | now split].
    + intros error suggestions H Herr. injection H as <- _.
      now contradiction Herr.
Qed.

Lemma generate_endpoint_failures_witness :
  Main.smart_admin_generate "shop" (Ok bare_user_table_catalog) "show me users"
  = Failure "Failed to generate SQL: list index out of range"
      [ "Try: 'Show all tables'"; "Try: 'Show table sizes'";
        "Try: 'List all indexes'"; "Try: 'Describe table actor'";
        "Try: 'Show database size'"; "Try: 'Show row counts'";
        "Try: 'Show active connections'" ]
  /\ ("Could not generate SQL query. Please rephrase your request."
      = "Could not generate SQL query. Please rephrase your request."
      /\ _get_suggestions "drop table actor" = _get_suggestions "drop table actor"
      /\ List.length (_get_suggestions "drop table actor") = 8
      /\ exists sql,
           _generate_sql "drop table actor" (_analyze_intent "drop table actor")
             (fst (_load_schema_context (init "dvdrental" (Ok [])))) = Ok sql
           /\ truthy_opt sql = false).
Proof.
  split.
  - apply (generate_endpoint_failures "shop" (Ok bare_user_table_catalog)
             "show me users").
    split; reflexivity.
  - apply (generate_endpoint_failures "dvdrental" (Ok []) "drop table actor");
      [reflexivity | discriminate].
Defined.

(** ** The database handler *)

Lemma show_is_no_query (text : string) :
  startswith text "SHOW" = true ->
  startswith text "SELECT" || startswith text "WITH" = false.
Proof.
  unfold startswith. intros H. apply prefix_iff in H as [rest ->]. reflexivity.
Qed.

(** X20.  The handler returns rows only for statements that start with
    SELECT or WITH once outer white space is removed and letters are
    upper-cased, and an affected-row count only for the others.  Every
    statement it runs as a query passes the safe-prefix test of the
    safety classifier, but not conversely: a statement starting with SHOW
    passes that test and is run as a write, never returning rows. *)
Theorem handler_rows_only_for_queries :
  forall (driver : PostgreSQLHandler.Driver) (sql : string),
    (forall data columns row_count,
       PostgreSQLHandler.execute driver sql
       = PostgreSQLHandler.Rows data columns row_count ->
       startswith_any (strip (upper sql)) ["SELECT"; "WITH"] = true
       /\ startswith_any (strip (upper sql)) safe_prefixes = true
       /\ row_count = List.length data)
    /\ (forall affected_rows message,
          PostgreSQLHandler.execute driver sql
          = PostgreSQLHandler.Affected affected_rows message ->
          startswith_any (strip (upper sql)) ["SELECT"; "WITH"] = false)
    /\ (startswith (strip (upper sql)) "SHOW" = true ->
        startswith_any (strip (upper sql)) safe_prefixes = true
        /\ forall data columns row_count,
             PostgreSQLHandler.execute driver sql
             <> PostgreSQLHandler.Rows data columns row_count).
Proof.
  intros driver sql. unfold PostgreSQLHandler.execute. cbv zeta.
  rewrite <- strip_upper. unfold startswith_any, safe_prefixes. cbn [existsb].
  rewrite !orb_false_r.
  assert (Hfailed : forall e data columns n,
            PostgreSQLHandler.failed e <> PostgreSQLHandler.Rows data columns n)
    by (intros [] ? ? ?; discriminate).
  split; [|split].
  - intros data columns n.
    destruct (driver sql) as [e|cur]; [intros H; now apply Hfailed in H|].
    destruct (startswith (strip (upper sql)) "SELECT"
              || startswith (strip (upper sql)) "WITH") eqn:Hq.
    + destruct (PostgreSQLHandler.description cur) as [cols|];
        [|intros H; now apply Hfailed in H].
      destruct (PostgreSQLHandler.fetchall cur) as [e|rows];
        [intros H; now apply Hfailed in H|].
      intros H. injection H as <- _ <-. split; [reflexivity|]. split.
      * apply orb_true_iff in Hq as [->| ->]; [reflexivity|].
        now rewrite !orb_true_r.
      * now rewrite length_map.
    + destruct (PostgreSQLHandler.commit cur) as [e|];
        [intros H; now apply Hfailed in H | discriminate].
  - intros k msg. destruct (driver sql) as [e|cur]; [destruct e; discriminate|].
    destruct (startswith (strip (upper sql)) "SELECT"
              || startswith (strip (upper sql)) "WITH"); [|reflexivity].
    destruct (PostgreSQLHandler.description cur) as [cols|]; [|discriminate].
    destruct (PostgreSQLHandler.fetchall cur) as [[]|rows]; discriminate.
  - intros Hshow. rewrite Hshow. split; [now rewrite orb_true_r|].
    intros data columns n. destruct (driver sql) as [e|cur]; [apply Hfailed|].
    rewrite (show_is_no_query _ Hshow).
    destruct (PostgreSQLHandler.commit cur) as [e|]; [apply Hfailed | discriminate].
Qed.

Lemma handler_rows_only_for_queries_witness :
  startswith_any (strip (upper "show search_path;")) safe_prefixes = true
  /\ forall data columns row_count,
       PostgreSQLHandler.execute
         (fun _ => inr {| PostgreSQLHandler.description := Some ["search_path"];
                          PostgreSQLHandler.fetchall := inr [["public"]];
                          PostgreSQLHandler.rowcount := 1;
                          PostgreSQLHandler.commit := None |})
         "show search_path;"
       <> PostgreSQLHandler.Rows data columns row_count.
Proof.
  destruct (handler_rows_only_for_queries
              (fun _ => inr {| PostgreSQLHandler.description := Some ["search_path"];
                               PostgreSQLHandler.fetchall := inr [["public"]];
                               PostgreSQLHandler.rowcount := 1;
                               PostgreSQLHandler.commit := None |})
              "show search_path;") as (_ & _ & H).
  apply H. reflexivity.
Defined.

Lemma dict_set_keys (key value : string) (d : PostgreSQLHandler.Dict) :
  map fst (PostgreSQLHandler.dict_set key value d)
  = if in_list key (map fst d) then map fst d else (map fst d ++ [key])%list.
Proof.
  induction d as [|[k v] d IH]; [reflexivity|].
  cbn [PostgreSQLHandler.dict_set map fst]. unfold in_list in *. cbn [existsb].
  rewrite (String.eqb_sym key k). destruct (String.eqb k key); [reflexivity|].
  cbn [map fst orb]. rewrite IH.
  now destruct (existsb (String.eqb key) (map fst d)).
Qed.

Lemma dict_set_fresh (key value : string) (d : PostgreSQLHandler.Dict) :
  ~ In key (map fst d) ->
  PostgreSQLHandler.dict_set key value d = (d ++ [(key, value)])%list.
Proof.
  induction d as [|[k v] d IH]; intros H; [reflexivity|].
  cbn [PostgreSQLHandler.dict_set map fst In app] in *.
  destruct (String.eqb k key) eqn:Hk.
  - apply String.eqb_eq in Hk. tauto.
  - rewrite IH by tauto. reflexivity.
Qed.

Lemma dict_fold_keys (pairs : list (string * string)) :
  forall d : PostgreSQLHandler.Dict,
    NoDup (map fst d) ->
    NoDup (map fst (fold_left (fun d kv => PostgreSQLHandler.dict_set (fst kv) (snd kv) d)
                      pairs d))
    /\ forall k,
         In k (map fst (fold_left (fun d kv => PostgreSQLHandler.dict_set (fst kv) (snd kv) d)
                          pairs d)) ->
         In k (map fst d) \/ In k (map fst pairs).
Proof.
  induction pairs as [|[k v] pairs IH]; intros d Hd.
  - cbn [fold_left]. split; [assumption | now left].
  - cbn [fold_left fst snd map].
    assert (Hset : NoDup (map fst (PostgreSQLHandler.dict_set k v d))).
    { rewrite dict_set_keys. destruct (in_list k (map fst d)) eqn:Hin; [assumption|].
      apply NoDup_app; [assumption | repeat constructor; intros [] |].
      intros x Hx [<-|[]]. apply in_list_iff in Hx. congruence. }
    destruct (IH _ Hset) as [Hnd Hkeys]. split; [assumption|].
    intros x Hx. destruct (Hkeys x Hx) as [H|H]; [|right; now right].
    rewrite dict_set_keys in H. destruct (in_list k (map fst d)); [now left|].
    apply in_app_or in H as [H|[<-|[]]]; [now left | right; now left].
Qed.

Lemma dict_fold_fresh (pairs : list (string * string)) :
  forall d : PostgreSQLHandler.Dict,
    NoDup (map fst d ++ map fst pairs) ->
    fold_left (fun d kv => PostgreSQLHandler.dict_set (fst kv) (snd kv) d) pairs d
    = (d ++ pairs)%list.
Proof.
  induction pairs as [|[k v] pairs IH]; intros d H.
  - cbn. now rewrite app_nil_r.
  - cbn [fold_left fst snd map] in *.
    rewrite dict_set_fresh.
    + rewrite IH; [now rewrite <- app_assoc|].
      rewrite map_app. cbn [map fst]. now rewrite <- app_assoc.
    + apply NoDup_remove_2 in H. intros Hin. apply H. apply in_or_app. now left.
Qed.

Lemma zip_keys (columns row : list string) :
  forall k, In k (map fst (PostgreSQLHandler.zip columns row)) -> In k columns.
Proof.
  revert row. induction columns as [|c columns IH]; intros row k H; [contradiction|].
  destruct row as [|v row]; [contradiction|].
  cbn [PostgreSQLHandler.zip map fst In] in *. destruct H as [H|H]; [now left|].
  right. now apply (IH row).
Qed.

Lemma zip_keys_nodup (columns row : list string) :
  NoDup columns -> NoDup (map fst (PostgreSQLHandler.zip columns row)).
Proof.
  revert row. induction columns as [|c columns IH]; intros row H; [constructor|].
  destruct row as [|v row]; [constructor|].
  cbn [PostgreSQLHandler.zip map fst]. inversion H as [|? ? Hc Hrest]. subst.
  constructor; [|now apply IH]. intros Hin. apply Hc. now apply (zip_keys _ row).
Qed.

Lemma dict_set_entries (key value : string) (d : PostgreSQLHandler.Dict) :
  forall k v,
    In (k, v) (PostgreSQLHandler.dict_set key value d) ->
    In (k, v) d \/ (k, v) = (key, value).
Proof.
  induction d as [|[k0 v0] d IH]; intros k v H.
  - destruct H as [H|[]]. right. now symmetry.
  - cbn [PostgreSQLHandler.dict_set] in H. destruct (String.eqb k0 key) eqn:Hk.
    + apply String.eqb_eq in Hk. subst k0. destruct H as [H|H].
      * right. now symmetry.
      * left. now right.
    + destruct H as [H|H]; [left; now left|].
      destruct (IH k v H) as [H'|H']; [left; now right | now right].
Qed.

Lemma dict_fold_entries (pairs : list (string * string)) :
  forall (d : PostgreSQLHandler.Dict) k v,
    In (k, v) (fold_left (fun d kv => PostgreSQLHandler.dict_set (fst kv) (snd kv) d)
                 pairs d) ->
    In (k, v) d \/ In (k, v) pairs.
Proof.
  induction pairs as [|[k0 v0] pairs IH]; intros d k v H; [now left|].
  cbn [fold_left fst snd] in H. destruct (IH _ k v H) as [H'|H']; [|right; now right].
  destruct (dict_set_entries k0 v0 d k v H') as [Hd|Heq]; [now left|].
  right. left. now symmetry.
Qed.

Lemma dict_fold_covers (pairs : list (string * string)) :
  forall (d : PostgreSQLHandler.Dict) k,
    In k (map fst d) \/ In k (map fst pairs) ->
    In k (map fst (fold_left (fun d kv => PostgreSQLHandler.dict_set (fst kv) (snd kv) d)
                     pairs d)).
Proof.
  induction pairs as [|[k0 v0] pairs IH]; intros d k H.
  - destruct H as [H|[]]. exact H.
  - cbn [fold_left fst snd map In] in *. apply IH.
    rewrite dict_set_keys.
    destruct (in_list k0 (map fst d)) eqn:Hin.
    + destruct H as [H|[<-|H]]; [now left | left; now apply in_list_iff | now right].
    + destruct H as [H|[<-|H]]; [left; apply in_or_app; now left
                                | left; apply in_or_app; right; now left
                                | now right].
Qed.

(** X21.  A row set is read off the cursor: the columns are those of its
    description, [row_count] is the number of rows it fetched, and there
    is one dictionary per fetched row, in order.  The dictionary of a row
    has distinct keys, every entry pairs a column name with a value of
    that row in the same position, and every column that has a value has
    an entry.  When the column names are distinct, the dictionary pairs
    the names with the row's values in column order; when a name is
    repeated, its entries collapse into one. *)
Theorem handler_row_dictionaries :
  forall (driver : PostgreSQLHandler.Driver) (sql : string)
         (data : list PostgreSQLHandler.Dict) (columns : list string) (row_count : nat),
    PostgreSQLHandler.execute driver sql
    = PostgreSQLHandler.Rows data columns row_count ->
    exists cur rows,
      driver sql = inr cur
      /\ PostgreSQLHandler.description cur = Some columns
      /\ PostgreSQLHandler.fetchall cur = inr rows
      /\ row_count = List.length rows
      /\ List.length data = List.length rows
      /\ forall i row,
           nth_error rows i = Some row ->
           exists d,
             nth_error data i = Some d
             /\ NoDup (map fst d)
             /\ (forall k v, In (k, v) d -> In (k, v) (PostgreSQLHandler.zip columns row))
             /\ (forall k, In k (map fst (PostgreSQLHandler.zip columns row)) ->
                           In k (map fst d))
             /\ (NoDup columns -> d = PostgreSQLHandler.zip columns row).
Proof.
  intros driver sql data columns n. unfold PostgreSQLHandler.execute. cbv zeta.
  destruct (driver sql) as [e|cur]; [destruct e; discriminate|].
  destruct (startswith (upper (strip sql)) "SELECT"
            || startswith (upper (strip sql)) "WITH").
  - destruct (PostgreSQLHandler.description cur) as [cols|] eqn:Hdesc; [|discriminate].
    destruct (PostgreSQLHandler.fetchall cur) as [[]|rows] eqn:Hfetch; try discriminate.
    intros H. injection H as <- <- <-. exists cur, rows.
    split; [reflexivity|]. split; [exact Hdesc|]. split; [exact Hfetch|].
    split; [reflexivity|]. split; [apply length_map|].
    intros i row Hrow. exists (PostgreSQLHandler.dict (PostgreSQLHandler.zip cols row)).
    split;
      [exact (map_nth_error
                (fun r => PostgreSQLHandler.dict (PostgreSQLHandler.zip cols r))
                _ _ Hrow)|].
    unfold PostgreSQLHandler.dict.
    split; [apply (dict_fold_keys _ [] (NoDup_nil _))|].
    split.
    + intros k v Hin. destruct (dict_fold_entries _ _ _ _ Hin) as [[]|Hp]. exact Hp.
    + split.
      * intros k Hk. apply dict_fold_covers. now right.
      * intros Hcols. apply (dict_fold_fresh _ []). now apply zip_keys_nodup.
  - destruct (PostgreSQLHandler.commit cur) as [[]|]; discriminate.
Qed.

Lemma handler_row_dictionaries_witness :
  exists cur rows,
    join_driver "select c.id, c.name, o.id from customers c, orders o" = inr cur
    /\ PostgreSQLHandler.description cur = Some ["id"; "name"; "id"]
    /\ PostgreSQLHandler.fetchall cur = inr rows
    /\ 2 = List.length rows
    /\ List.length [[("id", "7"); ("name", "ann")]; [("id", "8"); ("name", "bob")]]
       = List.length rows
    /\ forall i row,
         nth_error rows i = Some row ->
         exists d,
           nth_error [[("id", "7"); ("name", "ann")]; [("id", "8"); ("name", "bob")]] i
           = Some d
           /\ NoDup (map fst d)
           /\ (forall k v, In (k, v) d ->
                 In (k, v) (PostgreSQLHandler.zip ["id"; "name"; "id"] row))
           /\ (forall k, In k (map fst (PostgreSQLHandler.zip ["id"; "name"; "id"] row)) ->
                         In k (map fst d))
           /\ (NoDup ["id"; "name"; "id"] ->
               d = PostgreSQLHandler.zip ["id"; "name"; "id"] row).
Proof.
  apply (handler_row_dictionaries join_driver
           "select c.id, c.name, o.id from customers c, orders o").
  reflexivity.
Defined.

(** ** The intent of a describe request *)

(** X22.  In a describe intent the table and the explanation go
    together: either a table name was found, made of word characters and
    not a stop word, and the explanation names it, or none was found and
    the explanation is the generic one. *)
Theorem describe_intent_names_its_table :
  forall query : string,
    type (_analyze_intent query) = "describe_table" ->
    match table (_analyze_intent query) with
    | Some name =>
        word_name name = true
        /\ ~ In name stop_words
        /\ explanation (_analyze_intent query) = "Show structure of table: " ++ name
    | None => explanation (_analyze_intent query) = "Show table structure"
    end.
Proof.
  intros query. unfold _analyze_intent. cbv zeta. split_intent_tests;
    cbn [type table explanation]; intros H; try discriminate H.
  destruct (_extract_table_name (strip (lower query))) as [name|] eqn:Hname;
    [|reflexivity].
  pose proof (extract_table_name_word _ _ Hname) as Hword.
  split; [assumption|]. split.
  - apply first_table_name_spec in Hname.
    destruct Hname as (_ & _ & _ & _ & Hs & _). exact Hs.
  - unfold word_name in Hword. apply andb_true_iff in Hword as [Ht _].
    now rewrite Ht.
Qed.

Lemma describe_intent_names_its_table_witness :
  match table (_analyze_intent "Describe the orders table") with
  | Some name =>
      word_name name = true
      /\ ~ In name stop_words
      /\ explanation (_analyze_intent "Describe the orders table")
         = "Show structure of table: " ++ name
  | None =>
      explanation (_analyze_intent "Describe the orders table") = "Show table structure"
  end.
Proof.
  apply (describe_intent_names_its_table "Describe the orders table"). reflexivity.
Defined.
